(** * AtlasGTO: the data-integration and classification core

    A shallow embedding of the TypeScript sources

    - [municipalityCodes]  (code crosswalk, [validateCodeAlignment]),
    - [dataLoader]         ([getMunicipalityData], [createMunicipalityLookup],
                            [validateMunicipalityAlignment]),
    - [geoUtils]           (the enhancement of [loadMunicipalitiesGeoJSON],
                            [findMunicipalityByCode],
                            [calculateMunicipalitiesBounds]),
    - [geoJsonValidator]   ([validateGeoJSONIntegrity],
                            [createCorrectedGeoJSON]),
    - [dataJoiner]         ([joinDataWithGeometries],
                            [createChoroplethMapping], [extractDataSummary]),
    - [layerManager]       ([AtlasLayerManager]),

    followed by the properties of these functions.

    Conventions.  A JavaScript [number] that the program reads from its
    input is a rational ([Q]) or, for codes and counts, an integer ([Z],
    [nat]); a number the program computes by a division is a [jsnum], which
    adds the two infinities and NaN.  Rounding is not modelled.  A
    [Map<string, T>] that is only read by key is a [gmap string T]; a [Map]
    or [Set] whose iteration order is observable is an insertion-ordered
    list.  [undefined] is [None].  Console output is not modelled. *)

From Stdlib Require Import ZArith QArith List String Ascii Lia DecimalString.
From Stdlib Require Import Sorted Lqa.
From stdpp Require Import gmap strings list.

Open Scope string_scope.
Open Scope list_scope.

(* ===================================================================== *)
(** * Part I: the program                                                 *)
(* ===================================================================== *)

(** ** JavaScript primitives used by the sources *)

Module Js.

(** The result of an arithmetic expression: a real number, an infinity or
    NaN. *)
Inductive jsnum : Type :=
| Fin (q : Q)
| PInf
| NInf
| NaN.

(** [a / b]. *)
Definition div (a b : jsnum) : jsnum :=
  match a, b with
  | NaN, _ | _, NaN => NaN
  | Fin x, Fin y =>
      if Qeq_bool y 0 then
        (if Qeq_bool x 0 then NaN else if Qle_bool 0 x then PInf else NInf)
      else Fin (x / y)
  | Fin _, (PInf | NInf) => Fin 0
  | (PInf | NInf), (PInf | NInf) => NaN
  | PInf, Fin y => if Qle_bool 0 y then PInf else NInf
  | NInf, Fin y => if Qle_bool 0 y then NInf else PInf
  end.

(** [a * b]. *)
Definition mul (a b : jsnum) : jsnum :=
  match a, b with
  | NaN, _ | _, NaN => NaN
  | Fin x, Fin y => Fin (x * y)
  | Fin x, PInf | PInf, Fin x =>
      if Qeq_bool x 0 then NaN else if Qle_bool 0 x then PInf else NInf
  | Fin x, NInf | NInf, Fin x =>
      if Qeq_bool x 0 then NaN else if Qle_bool 0 x then NInf else PInf
  | PInf, PInf | NInf, NInf => PInf
  | PInf, NInf | NInf, PInf => NInf
  end.

(** [a + b]. *)
Definition add (a b : jsnum) : jsnum :=
  match a, b with
  | NaN, _ | _, NaN => NaN
  | Fin x, Fin y => Fin (x + y)
  | PInf, NInf | NInf, PInf => NaN
  | PInf, _ | _, PInf => PInf
  | NInf, _ | _, NInf => NInf
  end.

(** [a >= b]; every comparison with NaN is false. *)
Definition geb (a b : jsnum) : bool :=
  match a, b with
  | NaN, _ | _, NaN => false
  | Fin x, Fin y => Qle_bool y x
  | PInf, _ => true
  | _, NInf => true
  | _, _ => false
  end.

(** [a <= b]. *)
Definition leb (a b : jsnum) : bool := geb b a.

(** [Math.min(a, b)] and [Math.max(a, b)]: NaN when an argument is NaN. *)
Definition math_min (a b : jsnum) : jsnum :=
  match a, b with
  | NaN, _ | _, NaN => NaN
  | NInf, _ | _, NInf => NInf
  | PInf, x | x, PInf => x
  | Fin x, Fin y => if Qle_bool x y then Fin x else Fin y
  end.

Definition math_max (a b : jsnum) : jsnum :=
  match a, b with
  | NaN, _ | _, NaN => NaN
  | PInf, _ | _, PInf => PInf
  | NInf, x | x, NInf => x
  | Fin x, Fin y => if Qle_bool x y then Fin y else Fin x
  end.

(** [bs[i] <= bs[i+1]] for every adjacent pair of an array. *)
Fixpoint nondecreasing (bs : list jsnum) : bool :=
  match bs with
  | a :: (b :: _) as rest => leb a b && nondecreasing rest
  | _ => true
  end.

(** A natural number (a length, a size) as a JavaScript number. *)
Definition of_nat (n : nat) : jsnum := Fin (inject_Z (Z.of_nat n)).

(** [Math.max(a, b)] on two lengths. *)
Definition max_nat (a b : nat) : nat := Nat.max a b.

(** Truthiness of the values the sources test with [!x] and [x || y]. *)
Definition truthy_num (o : option Z) : bool :=
  match o with Some z => negb (Z.eqb z 0) | None => false end.

Definition truthy_str (o : option string) : bool :=
  match o with Some s => negb (String.eqb s "") | None => false end.

(** [a || b] on optional strings: [a] when it is a non-empty string. *)
Definition or_str (a b : option string) : option string :=
  if truthy_str a then a else b.

(** [values[i] || d] on an array of numbers: [d] when the index is out of
    range and also when the element is [0], which is falsy. *)
Definition index_or (values : list Q) (i : nat) (d : Q) : Q :=
  match nth_error values i with
  | Some v => if Qeq_bool v 0 then d else v
  | None => d
  end.

(** [n.toString()] on an integer. *)
Definition toString (z : Z) : string := NilZero.string_of_int (Z.to_int z).

(** [s.padStart(len, "0")]. *)
Fixpoint zeros (n : nat) : string :=
  match n with O => "" | S k => String "0"%char (zeros k) end.

Definition padStart0 (len : nat) (s : string) : string :=
  String.append (zeros (len - String.length s)) s.

(** [s.slice(k)] for [k >= 0]. *)
Definition slice_from (k : nat) (s : string) : string :=
  substring k (String.length s - k) s.

(** [parseInt(s)] on a string of decimal digits; [None] is NaN.  (Inputs
    with a sign, blanks or trailing garbage are outside what the sources
    pass, which is the digits of a catalog code.) *)
Definition parseInt (s : string) : option Z :=
  match NilZero.uint_of_string s with
  | Some u => if String.eqb s "" then None else Some (Z.of_uint u)
  | None => None
  end.

(** [`${n}`] for the result of [parseInt]. *)
Definition show_parsed (o : option Z) : string :=
  match o with Some z => toString z | None => "NaN" end.

(** A JavaScript [Set] in insertion order. *)
Section JsSet.
Context {A : Type} `{EqDecision A}.

Definition set_has (s : list A) (x : A) : bool := bool_decide (x ∈ s).

Definition set_add (s : list A) (x : A) : list A :=
  if set_has s x then s else s ++ [x].

(** [new Set(array)]. *)
Definition set_of (xs : list A) : list A := foldl set_add [] xs.

End JsSet.

End Js.

(** ** municipalityCodes: the code crosswalk *)

Module MunicipalityCodes.

Record MunicipalityInfo : Type := {
  geoJsonCode : Z;
  dataCode : string;
  officialName : string;
  commonName : option string;
  population : option Z
}.

Definition entry (c : Z) (d n : string) : Z * MunicipalityInfo :=
  (c, {| geoJsonCode := c; dataCode := d; officialName := n;
         commonName := None; population := None |}).

(** The entries of the object literal [GUANAJUATO_MUNICIPALITIES], key
    first.  The keys are written in ascending order, which is also the
    order in which [Object.values] enumerates integer keys. *)
Definition GUANAJUATO_ENTRIES : list (Z * MunicipalityInfo) :=
  [ entry 1 "11001" "Abasolo";
    entry 2 "11002" "Acámbaro";
    entry 3 "11003" "San Miguel de Allende";
    entry 4 "11004" "Apaseo el Alto";
    entry 5 "11005" "Apaseo el Grande";
    entry 6 "11006" "Atarjea";
    entry 7 "11007" "Celaya";
    entry 8 "11008" "Manuel Doblado";
    entry 9 "11009" "Comonfort";
    entry 10 "11010" "Coroneo";
    entry 11 "11011" "Cortazar";
    entry 12 "11012" "Cuerámaro";
    entry 13 "11013" "Doctor Mora";
    (14%Z, {| geoJsonCode := 14; dataCode := "11014";
            officialName :=
              "Dolores Hidalgo Cuna de la Independencia Nacional";
            commonName := Some "Dolores Hidalgo"; population := None |});
    entry 15 "11015" "Guanajuato";
    entry 16 "11016" "Huanímaro";
    entry 17 "11017" "Irapuato";
    entry 18 "11018" "Jaral del Progreso";
    entry 19 "11019" "Jerécuaro";
    entry 20 "11020" "León";
    entry 21 "11021" "Moroleón";
    entry 22 "11022" "Ocampo";
    entry 23 "11023" "Pénjamo";
    entry 24 "11024" "Pueblo Nuevo";
    entry 25 "11025" "Purísima del Rincón";
    entry 26 "11026" "Romita";
    entry 27 "11027" "Salamanca";
    entry 28 "11028" "Salvatierra";
    entry 29 "11029" "San Diego de la Unión";
    entry 30 "11030" "San Felipe";
    entry 31 "11031" "San Francisco del Rincón";
    entry 32 "11032" "San José Iturbide";
    entry 33 "11033" "San Luis de la Paz";
    entry 34 "11034" "Santa Catarina";
    entry 35 "11035" "Santa Cruz de Juventino Rosas";
    entry 36 "11036" "Santiago Maravatío";
    entry 37 "11037" "Silao";
    entry 38 "11038" "Tarandacuao";
    entry 39 "11039" "Tarimoro";
    entry 40 "11040" "Tierra Blanca";
    entry 41 "11041" "Uriangato";
    entry 42 "11042" "Valle de Santiago";
    entry 43 "11043" "Victoria";
    entry 44 "11044" "Villagrán";
    entry 45 "11045" "Xichú";
    entry 46 "11046" "Yuriria" ].

(** [GUANAJUATO_MUNICIPALITIES[k]]. *)
Definition GUANAJUATO_MUNICIPALITIES : gmap Z MunicipalityInfo :=
  list_to_map GUANAJUATO_ENTRIES.

(** [Object.values(GUANAJUATO_MUNICIPALITIES)]. *)
Definition municipality_values : list MunicipalityInfo :=
  snd <$> GUANAJUATO_ENTRIES.

(** [array.find(pred)]. *)
Definition find_info (p : MunicipalityInfo -> bool) : option MunicipalityInfo :=
  List.find p municipality_values.

Definition createGeoToDataCodeMap : gmap Z string :=
  foldl (fun m info => <[geoJsonCode info := dataCode info]> m) ∅
        municipality_values.

Definition createDataToGeoCodeMap : gmap string Z :=
  foldl (fun m info => <[dataCode info := geoJsonCode info]> m) ∅
        municipality_values.

Definition getMunicipalityByGeoCode (c : Z) : option MunicipalityInfo :=
  GUANAJUATO_MUNICIPALITIES !! c.

Definition getMunicipalityByDataCode (d : string) : option MunicipalityInfo :=
  find_info (fun info => String.eqb (dataCode info) d).

Definition geoCodeToDataCode (c : Z) : option string :=
  dataCode <$> GUANAJUATO_MUNICIPALITIES !! c.

Definition dataCodeToGeoCode (d : string) : option Z :=
  geoJsonCode <$> find_info (fun info => String.eqb (dataCode info) d).

(** The three result arrays of [validateCodeAlignment] hold these. *)
Record Matched : Type := {
  m_geoCode : Z; m_dataCode : string; m_name : string
}.

Record MissingInData : Type := {
  d_geoCode : Z; d_expectedDataCode : string; d_name : string
}.

Record MissingInGeo : Type := {
  g_dataCode : string; g_expectedGeoCode : option Z; g_name : option string
}.

Record CodeAlignmentSummary : Type := {
  s_total : nat; s_matched : nat; s_geoJsonCount : nat; s_dataCount : nat
}.

Record CodeAlignment : Type := {
  matched : list Matched;
  missingInData : list MissingInData;
  missingInGeo : list MissingInGeo;
  alignmentRatio : Js.jsnum;
  summary : CodeAlignmentSummary
}.

(** [info?.officialName || 'Unknown']. *)
Definition name_or_unknown (info : option MunicipalityInfo) : string :=
  default "Unknown" (Js.or_str (officialName <$> info) (Some "Unknown")).

(** The first [forEach] of [validateCodeAlignment]: one step per geometry
    code, pushing onto [matched] or onto [missingInData]. *)
Definition check_geo_code (dataSet : list string)
    (acc : list Matched * list MissingInData) (geoCode : Z)
  : list Matched * list MissingInData :=
  let expectedDataCode := geoCodeToDataCode geoCode in
  let info := getMunicipalityByGeoCode geoCode in
  let missing :=
    {| d_geoCode := geoCode;
       d_expectedDataCode :=
         default "Unknown" (Js.or_str expectedDataCode (Some "Unknown"));
       d_name := name_or_unknown info |} in
  match expectedDataCode with
  | Some d =>
      if Js.truthy_str expectedDataCode && Js.set_has dataSet d then
        (acc.1 ++ [ {| m_geoCode := geoCode; m_dataCode := d;
                       m_name := name_or_unknown info |} ], acc.2)
      else (acc.1, acc.2 ++ [missing])
  | None => (acc.1, acc.2 ++ [missing])
  end.

(** The second [forEach]: one step per data code. *)
Definition check_data_code (geoSet : list Z)
    (acc : list MissingInGeo) (d : string) : list MissingInGeo :=
  let expectedGeoCode := dataCodeToGeoCode d in
  let info := getMunicipalityByDataCode d in
  if negb (Js.truthy_num expectedGeoCode)
     || negb (match expectedGeoCode with
              | Some c => Js.set_has geoSet c
              | None => false
              end)
  then acc ++ [ {| g_dataCode := d; g_expectedGeoCode := expectedGeoCode;
                   g_name := officialName <$> info |} ]
  else acc.

Definition validateCodeAlignment (geoJsonCodes : list Z)
    (dataCodes : list string) : CodeAlignment :=
  let geoSet := Js.set_of geoJsonCodes in
  let dataSet := Js.set_of dataCodes in
  let '(matched, missingInData) :=
    foldl (check_geo_code dataSet) ([], []) geoJsonCodes in
  let missingInGeo := foldl (check_data_code geoSet) [] dataCodes in
  let total := Js.max_nat (length geoJsonCodes) (length dataCodes) in
  {| matched := matched;
     missingInData := missingInData;
     missingInGeo := missingInGeo;
     alignmentRatio := Js.div (Js.of_nat (length matched)) (Js.of_nat total);
     summary := {| s_total := total;
                   s_matched := length matched;
                   s_geoJsonCount := length geoJsonCodes;
                   s_dataCount := length dataCodes |} |}.

(** Whether the data code of a geometry code is in a set of data codes. *)
Definition has_data (dataSet : list string) (c : Z) : bool :=
  match geoCodeToDataCode c with
  | Some d => Js.set_has dataSet d
  | None => false
  end.

End MunicipalityCodes.

(** ** dataLoader: tabular records, lookup and alignment *)

Module DataLoader.

(** [interface MunicipalDataRecord]: whatever else a layer's record type
    [T] holds, it carries the five-digit code [municipio]. *)
Class MunicipalDataRecord (T : Type) := municipio : T -> string.

Record DataFile (T : Type) : Type := {
  version : string;
  source : option string;
  updated : option string;
  metadata : option (gmap string string);
  records : list T
}.

Arguments version {T} _.
Arguments source {T} _.
Arguments updated {T} _.
Arguments metadata {T} _.
Arguments records {T} _.

Inductive Calidad : Type := alta | media | baja.

Record RiskIndexRecord : Type := {
  ri_municipio : string;
  indice : Q;
  top_factores : list string;
  calidad : Calidad
}.

#[export] Instance RiskIndexRecord_data : MunicipalDataRecord RiskIndexRecord :=
  ri_municipio.

Inductive Tendencia : Type := subiendo | estable | bajando.

Record DisappearancesRecord : Type := {
  dr_municipio : string;
  total_casos : Q;
  tasa_por_100k : Q;
  tendencia : Tendencia
}.

#[export] Instance DisappearancesRecord_data :
  MunicipalDataRecord DisappearancesRecord := dr_municipio.

(** [createMunicipalityLookup]: one [lookup.set(record.municipio, record)]
    per record, in the order of the array. *)
Definition createMunicipalityLookup {T} `{MunicipalDataRecord T}
    (dataFile : DataFile T) : gmap string T :=
  foldl (fun lookup record => <[municipio record := record]> lookup)
        ∅ (records dataFile).

Record Alignment (A : Type) : Type := {
  matching : list A;
  missingInGeo : list A;
  missingInData : list A;
  alignmentRatio : Js.jsnum
}.

Arguments matching {A} _.
Arguments missingInGeo {A} _.
Arguments missingInData {A} _.
Arguments alignmentRatio {A} _.

(** [validateMunicipalityAlignment].  The two arguments are JavaScript
    sets, given as their elements in insertion order; [size] is the length
    of that list.  The element type is the type of a code as the join reads
    it (a string, or [undefined] when the field is absent). *)
Definition validateMunicipalityAlignment {A} `{EqDecision A}
    (geoMunicipalityCodes dataMunicipalityCodes : list A) : Alignment A :=
  let '(matching, missingInGeo) :=
    foldl (fun acc code =>
             if Js.set_has geoMunicipalityCodes code
             then (Js.set_add acc.1 code, acc.2)
             else (acc.1, Js.set_add acc.2 code))
          ([], []) dataMunicipalityCodes in
  let missingInData :=
    foldl (fun acc code =>
             if negb (Js.set_has dataMunicipalityCodes code)
             then Js.set_add acc code else acc)
          [] geoMunicipalityCodes in
  {| matching := matching;
     missingInGeo := missingInGeo;
     missingInData := missingInData;
     alignmentRatio :=
       Js.div (Js.of_nat (length matching))
              (Js.of_nat (Js.max_nat (length geoMunicipalityCodes)
                                     (length dataMunicipalityCodes))) |}.

(** [getMunicipalityData], given the outcome of the [loadLayerData] it
    awaits: the data file, or [None] when loading threw, which the function
    catches and answers with [undefined]. *)
Definition getMunicipalityData {T} `{MunicipalDataRecord T}
    (loaded : option (DataFile T)) (municipioCode : string) : option T :=
  match loaded with
  | Some dataFile =>
      List.find (fun record => String.eqb (municipio record) municipioCode)
                (records dataFile)
  | None => None
  end.

End DataLoader.

(** ** geoUtils: the geometry collection *)

Module GeoUtils.

(** [MunicipalityProperties].  A property that is absent is [None].
    [other] holds the string-valued properties beyond the named ones (the
    index signature). *)
Record MunicipalityProperties : Type := {
  state_code : option Z;
  mun_code : option Z;
  mun_name : option string;
  cvegeo : option string;
  nombre : option string;
  other : gmap string string
}.

Inductive GeometryType : Type := Polygon | MultiPolygon.

(** A coordinate tree: [number[][][]] or [number[][][][]]. *)
#[warnings="-register-all"]
Inductive Coordinates : Type :=
| Coord (q : Q)
| Ring (cs : list Coordinates).

Record Geometry : Type := {
  geometry_type : GeometryType;
  coordinates : option Coordinates
}.

Record MunicipalityFeature : Type := {
  geometry : option Geometry;
  properties : MunicipalityProperties
}.

Record MunicipalitiesGeoJSON : Type := {
  features : list MunicipalityFeature
}.

(** The callback of [geoJsonData.features.map] in
    [loadMunicipalitiesGeoJSON]: the feature with [cvegeo] set to ["11"]
    followed by [mun_code] padded to three digits, and [nombre] set to
    [mun_name].  [None] is the TypeError of [munCode.toString()] on a feature
    without [mun_code]. *)
Definition add_cvegeo (feature : MunicipalityFeature)
  : option MunicipalityFeature :=
  let props := properties feature in
  match mun_code props with
  | Some munCode =>
      Some {| geometry := geometry feature;
              properties :=
                {| state_code := state_code props;
                   mun_code := mun_code props;
                   mun_name := mun_name props;
                   cvegeo :=
                     Some (String.append "11"
                             (Js.padStart0 3 (Js.toString munCode)));
                   nombre := mun_name props;
                   other := other props |} |}
  | None => None
  end.

(** What [loadMunicipalitiesGeoJSON] makes of the parsed features. *)
Definition enhanceFeatures (raw : list MunicipalityFeature)
  : option MunicipalitiesGeoJSON :=
  (fun fs => {| features := fs |}) <$> mapM add_cvegeo raw.

Definition findMunicipalityByCode (geoJsonData : MunicipalitiesGeoJSON)
    (code : string) : option MunicipalityFeature :=
  List.find (fun feature =>
               bool_decide (cvegeo (properties feature) = Some code))
            (features geoJsonData).

(** *** [calculateMunicipalitiesBounds] *)

(** The four variables of [calculateMunicipalitiesBounds]. *)
Record Bounds : Type := {
  minLat : Js.jsnum;
  maxLat : Js.jsnum;
  minLng : Js.jsnum;
  maxLng : Js.jsnum
}.

(** The four assignments made for a point [[lng, lat]]. *)
Definition extend (b : Bounds) (lng lat : Js.jsnum) : Bounds :=
  {| minLat := Js.math_min (minLat b) lat;
     maxLat := Js.math_max (maxLat b) lat;
     minLng := Js.math_min (minLng b) lng;
     maxLng := Js.math_max (maxLng b) lng |}.

(** The number that [Math.min] and [Math.max] make of an entry of a
    coordinate array: a number is itself; an array is converted through its
    string, so that the empty array is 0, an array of one entry is the
    number of that entry, and a longer array is NaN. *)
Fixpoint number_of (c : Coordinates) : Js.jsnum :=
  match c with
  | Coord q => Js.Fin q
  | Ring [] => Js.Fin 0
  | Ring [c'] => number_of c'
  | Ring _ => Js.NaN
  end.

(** [array.forEach(f)] for an [f] that updates the bounds and may throw. *)
Definition forEach_coords (f : Coordinates -> Bounds -> option Bounds)
  : list Coordinates -> Bounds -> option Bounds :=
  fix forEach (cs : list Coordinates) (b : Bounds) : option Bounds :=
    match cs with
    | [] => Some b
    | c :: cs' =>
        match f c b with
        | Some b' => forEach cs' b'
        | None => None
        end
    end.

(** [processCoords].  An array whose first entry is a number is a point
    [[lng, lat]]; a missing [lat] is [undefined], which [Math.min] turns
    into NaN.  Any other array is walked with [forEach].  [None] is the
    TypeError of [coordArray.forEach] on a number. *)
Fixpoint processCoords (coordArray : Coordinates) (b : Bounds)
  : option Bounds :=
  match coordArray with
  | Coord _ => None
  | Ring cs =>
      match cs with
      | Coord lng :: rest =>
          let lat :=
            match rest with c :: _ => number_of c | [] => Js.NaN end in
          Some (extend b (Js.Fin lng) lat)
      | _ => forEach_coords processCoords cs b
      end
  end.

(** The body of [features.forEach]; a feature without geometry or without
    coordinates raises a TypeError. *)
Definition process_feature (b : option Bounds) (feature : MunicipalityFeature)
  : option Bounds :=
  match b, geometry feature with
  | Some b, Some g =>
      match coordinates g with
      | Some coords => processCoords coords b
      | None => None
      end
  | _, _ => None
  end.

(** [calculateMunicipalitiesBounds]: [[[south, west], [north, east]]]. *)
Definition calculateMunicipalitiesBounds (geoJsonData : MunicipalitiesGeoJSON)
  : option ((Js.jsnum * Js.jsnum) * (Js.jsnum * Js.jsnum)) :=
  (fun b => ((minLat b, minLng b), (maxLat b, maxLng b)))
    <$> foldl process_feature
              (Some {| minLat := Js.PInf; maxLat := Js.NInf;
                       minLng := Js.PInf; maxLng := Js.NInf |})
              (features geoJsonData).

(** The points gathered from the entries of an array. *)
Definition gather_points (f : Coordinates -> option (list (Q * Q)))
  : list Coordinates -> option (list (Q * Q)) :=
  fix each (cs : list Coordinates) : option (list (Q * Q)) :=
    match cs with
    | [] => Some []
    | c :: cs' =>
        match f c, each cs' with
        | Some ps, Some rest => Some (ps ++ rest)
        | _, _ => None
        end
    end.

(** The points [(lng, lat)] of a coordinate tree all of whose points are
    arrays that begin with two numbers; [None] for any other tree. *)
Fixpoint points_of (c : Coordinates) : option (list (Q * Q)) :=
  match c with
  | Coord _ => None
  | Ring cs =>
      match cs with
      | Coord lng :: rest =>
          match rest with
          | Coord lat :: _ => Some [(lng, lat)]
          | _ => None
          end
      | _ => gather_points points_of cs
      end
  end.

(** The points of all the features of a collection. *)
Definition all_points (geoJsonData : MunicipalitiesGeoJSON)
  : option (list (Q * Q)) :=
  @List.concat (Q * Q) <$> mapM (fun feature =>
                     match geometry feature with
                     | Some g =>
                         match coordinates g with
                         | Some coords => points_of coords
                         | None => None
                         end
                     | None => None
                     end)
                  (features geoJsonData).

End GeoUtils.

(** ** geoJsonValidator: integrity of a geometry collection *)

Module GeoJsonValidator.
Import GeoUtils.

Record INEGIMunicipalityData : Type := {
  clave : string;
  inegi_nombre : string;
  nombreCompleto : option string
}.

Definition inegi (c n : string) : INEGIMunicipalityData :=
  {| clave := c; inegi_nombre := n; nombreCompleto := None |}.

Definition INEGI_GUANAJUATO_MUNICIPALITIES : list INEGIMunicipalityData :=
  [ inegi "11001" "Abasolo";
    inegi "11002" "Acámbaro";
    inegi "11003" "San Miguel de Allende";
    inegi "11004" "Apaseo el Alto";
    inegi "11005" "Apaseo el Grande";
    inegi "11006" "Atarjea";
    inegi "11007" "Celaya";
    inegi "11008" "Manuel Doblado";
    inegi "11009" "Comonfort";
    inegi "11010" "Coroneo";
    inegi "11011" "Cortazar";
    inegi "11012" "Cuerámaro";
    inegi "11013" "Doctor Mora";
    inegi "11014" "Dolores Hidalgo Cuna de la Independencia Nacional";
    inegi "11015" "Guanajuato";
    inegi "11016" "Huanímaro";
    inegi "11017" "Irapuato";
    inegi "11018" "Jaral del Progreso";
    inegi "11019" "Jerécuaro";
    inegi "11020" "León";
    inegi "11021" "Moroleón";
    inegi "11022" "Ocampo";
    inegi "11023" "Pénjamo";
    inegi "11024" "Pueblo Nuevo";
    inegi "11025" "Purísima del Rincón";
    inegi "11026" "Romita";
    inegi "11027" "Salamanca";
    inegi "11028" "Salvatierra";
    inegi "11029" "San Diego de la Unión";
    inegi "11030" "San Felipe";
    inegi "11031" "San Francisco del Rincón";
    inegi "11032" "San José Iturbide";
    inegi "11033" "San Luis de la Paz";
    inegi "11034" "Santa Catarina";
    inegi "11035" "Santa Cruz de Juventino Rosas";
    inegi "11036" "Santiago Maravatío";
    {| clave := "11037"; inegi_nombre := "Silao de la Victoria";
       nombreCompleto := Some "Silao de la Victoria" |};
    inegi "11038" "Tarandacuao";
    inegi "11039" "Tarimoro";
    inegi "11040" "Tierra Blanca";
    inegi "11041" "Uriangato";
    inegi "11042" "Valle de Santiago";
    inegi "11043" "Victoria";
    inegi "11044" "Villagrán";
    inegi "11045" "Xichú";
    inegi "11046" "Yuriria" ].

Inductive ValidationIssueType : Type :=
| missing_municipality
| extra_municipality
| wrong_code
| wrong_name
| invalid_geometry
| missing_properties
| invalid_state_code.

Inductive Severity : Type := error | warning | info.

#[export] Instance Severity_eq_dec : EqDecision Severity.
Proof. solve_decision. Defined.

Record ValidationIssue : Type := {
  issue_type : ValidationIssueType;
  severity : Severity;
  municipality : option string;
  expected : option string;
  actual : option string;
  description : string;
  suggestion : option string
}.

Record Summary : Type := { errors : nat; warnings : nat; infos : nat }.

Record ValidationReport : Type := {
  isValid : bool;
  totalMunicipalities : nat;
  expectedMunicipalities : nat;
  issues : list ValidationIssue;
  summary : Summary
}.

(** The parsed input of the validator: its [features] member may be missing
    or not an array, which is [None]. *)
Record GeoJSONInput : Type := { input_features : option (list MunicipalityFeature) }.

Definition of_collection (g : MunicipalitiesGeoJSON) : GeoJSONInput :=
  {| input_features := Some (features g) |}.

(** Template literals. *)
Definition cat (parts : list string) : string :=
  foldr String.append "" parts.

Definition dquote : string := String (ascii_of_nat 34) EmptyString.

(** What the per-feature pass accumulates. *)
Record Pass : Type := {
  p_issues : list ValidationIssue;
  foundCodes : list string;
  foundNames : list string
}.

Definition push (i : ValidationIssue) (st : Pass) : Pass :=
  {| p_issues := p_issues st ++ [i];
     foundCodes := foundCodes st; foundNames := foundNames st |}.

Section Validator.

(** [String.prototype.toLowerCase]. *)
Variable toLowerCase : string -> string.

(** Step 2: [inegiByCode] and [inegiByName]. *)
Definition inegiByCode : gmap string INEGIMunicipalityData :=
  foldl (fun m mun => <[clave mun := mun]> m) ∅
        INEGI_GUANAJUATO_MUNICIPALITIES.

Definition inegiByName : gmap string INEGIMunicipalityData :=
  foldl (fun m mun => <[toLowerCase (inegi_nombre mun) := mun]> m) ∅
        INEGI_GUANAJUATO_MUNICIPALITIES.

Definition missing_properties_issue (index : nat) : ValidationIssue :=
  {| issue_type := missing_properties; severity := error;
     municipality := Some (cat ["Feature "; Js.toString (Z.of_nat index)]);
     expected := None; actual := None;
     description :=
       "Missing required properties (state_code, mun_code, mun_name)";
     suggestion := Some "Add missing properties to GeoJSON feature" |}.

Definition invalid_state_code_issue (name : string) (sc : Z) : ValidationIssue :=
  {| issue_type := invalid_state_code; severity := error;
     municipality := Some name;
     expected := Some "11"; actual := Some (Js.toString sc);
     description := "Invalid state code for Guanajuato";
     suggestion := Some "State code should be 11 for Guanajuato" |}.

Definition not_in_catalog_issue (name expectedCode : string) : ValidationIssue :=
  {| issue_type := missing_municipality; severity := error;
     municipality := Some name;
     expected := Some "Valid INEGI municipality";
     actual := Some (cat [name; " ("; expectedCode; ")"]);
     description := "Municipality not found in official INEGI catalog";
     suggestion :=
       Some "Verify municipality name and code against INEGI data" |}.

Definition wrong_name_issue (name : string) (byCode : INEGIMunicipalityData)
  : ValidationIssue :=
  {| issue_type := wrong_name; severity := warning;
     municipality := Some name;
     expected := Some (inegi_nombre byCode); actual := Some name;
     description := "Municipality name doesn't match INEGI official name";
     suggestion :=
       Some (cat ["Consider using official name: "; dquote;
                  inegi_nombre byCode; dquote]) |}.

Definition wrong_code_issue (name : string) (mc : Z)
    (byName : INEGIMunicipalityData) : ValidationIssue :=
  let correctCode := clave byName in
  let correctMunCode := Js.parseInt (Js.slice_from 2 correctCode) in
  {| issue_type := wrong_code; severity := error;
     municipality := Some name;
     expected := Some (cat ["mun_code: "; Js.show_parsed correctMunCode]);
     actual := Some (cat ["mun_code: "; Js.toString mc]);
     description := "Municipality code doesn't match INEGI official code";
     suggestion :=
       Some (cat ["Change mun_code from "; Js.toString mc; " to ";
                  Js.show_parsed correctMunCode]) |}.

Definition invalid_geometry_issue (name : string) : ValidationIssue :=
  {| issue_type := invalid_geometry; severity := error;
     municipality := Some name;
     expected := None; actual := None;
     description := "Invalid or missing geometry";
     suggestion :=
       Some "Ensure feature has valid geometry with coordinates" |}.

Definition missing_unit_issue (mun : INEGIMunicipalityData) : ValidationIssue :=
  {| issue_type := missing_municipality; severity := warning;
     municipality := Some (inegi_nombre mun);
     expected := Some (clave mun); actual := None;
     description := "Official municipality missing from GeoJSON";
     suggestion :=
       Some (cat ["Add "; inegi_nombre mun; " ("; clave mun;
                  ") to GeoJSON"]) |}.

(** [!feature.geometry || !feature.geometry.coordinates]. *)
Definition geometry_missing (feature : MunicipalityFeature) : bool :=
  match geometry feature with
  | Some g => match coordinates g with Some _ => false | None => true end
  | None => true
  end.

(** Step 4: the body of [features.forEach((feature, index) => ...)]. *)
Definition check_feature (st : Pass) (index : nat)
    (feature : MunicipalityFeature) : Pass :=
  let props := properties feature in
  match state_code props, mun_code props, mun_name props with
  | Some sc, Some mc, Some name =>
      if Z.eqb sc 0 || Z.eqb mc 0 || String.eqb name "" then
        push (missing_properties_issue index) st
      else
        let st1 :=
          if negb (Z.eqb sc 11) then push (invalid_state_code_issue name sc) st
          else st in
        let expectedCode := cat ["11"; Js.padStart0 3 (Js.toString mc)] in
        let st2 :=
          {| p_issues := p_issues st1;
             foundCodes := Js.set_add (foundCodes st1) expectedCode;
             foundNames := Js.set_add (foundNames st1) (toLowerCase name) |} in
        let inegiByCodeMatch := inegiByCode !! expectedCode in
        let inegiByNameMatch := inegiByName !! toLowerCase name in
        let st3 :=
          match inegiByCodeMatch, inegiByNameMatch with
          | None, None => push (not_in_catalog_issue name expectedCode) st2
          | Some _, Some _ => st2
          | Some byCode, None => push (wrong_name_issue name byCode) st2
          | None, Some byName => push (wrong_code_issue name mc byName) st2
          end in
        if geometry_missing feature
        then push (invalid_geometry_issue name) st3
        else st3
  | _, _, _ => push (missing_properties_issue index) st
  end.

(** [array.forEach((x, index) => ...)] threading a state. *)
Fixpoint forEach_indexed {St X : Type} (f : St -> nat -> X -> St)
    (index : nat) (xs : list X) (st : St) : St :=
  match xs with
  | [] => st
  | x :: rest => forEach_indexed f (S index) rest (f st index x)
  end.

(** Step 5: the catalog units never observed. *)
Definition check_missing (st : Pass) (issues : list ValidationIssue)
    (inegiMun : INEGIMunicipalityData) : list ValidationIssue :=
  if negb (Js.set_has (foundCodes st) (clave inegiMun))
     && negb (Js.set_has (foundNames st) (toLowerCase (inegi_nombre inegiMun)))
  then issues ++ [missing_unit_issue inegiMun]
  else issues.

Definition count_severity (s : Severity) (issues : list ValidationIssue) : nat :=
  length (filter (fun i => severity i = s) issues).

Definition validateGeoJSONIntegrity (geoJsonData : GeoJSONInput)
  : ValidationReport :=
  match input_features geoJsonData with
  | None =>
      {| isValid := false;
         totalMunicipalities := 0;
         expectedMunicipalities := length INEGI_GUANAJUATO_MUNICIPALITIES;
         issues :=
           [ {| issue_type := missing_properties; severity := error;
                municipality := None; expected := None; actual := None;
                description := "GeoJSON does not have valid features array";
                suggestion :=
                  Some ("Ensure GeoJSON has " ++ dquote ++ "features"
                        ++ dquote ++ " array property")%string |} ];
         summary := {| errors := 1; warnings := 0; infos := 0 |} |}
  | Some feats =>
      let st :=
        forEach_indexed check_feature 0 feats
          {| p_issues := []; foundCodes := []; foundNames := [] |} in
      let issues :=
        foldl (check_missing st) (p_issues st)
              INEGI_GUANAJUATO_MUNICIPALITIES in
      let summary :=
        {| errors := count_severity error issues;
           warnings := count_severity warning issues;
           infos := count_severity info issues |} in
      {| isValid := Nat.eqb (errors summary) 0;
         totalMunicipalities := length feats;
         expectedMunicipalities := length INEGI_GUANAJUATO_MUNICIPALITIES;
         issues := issues;
         summary := summary |}
  end.

(** The callback of [features.map] in [createCorrectedGeoJSON].  [None] is
    the TypeError of [props.mun_name.toLowerCase()] on a feature without
    [mun_name].  The corrected [mun_code] is the result of [parseInt], whose
    NaN is [None]. *)
Definition correct_feature (feature : MunicipalityFeature)
  : option MunicipalityFeature :=
  let props := properties feature in
  match mun_name props with
  | None => None
  | Some name =>
      match inegiByName !! toLowerCase name with
      | Some inegiMatch =>
          let correctMunCode :=
            Js.parseInt (Js.slice_from 2 (clave inegiMatch)) in
          Some {| geometry := geometry feature;
                  properties :=
                    {| state_code := state_code props;
                       mun_code := correctMunCode;
                       mun_name := Some (inegi_nombre inegiMatch);
                       cvegeo := cvegeo props;
                       nombre := nombre props;
                       other :=
                         <["inegi_code" := clave inegiMatch]> (other props)
                    |} |}
      | None => Some feature
      end
  end.

Definition createCorrectedGeoJSON (geoJsonData : MunicipalitiesGeoJSON)
  : option MunicipalitiesGeoJSON :=
  (fun fs => {| features := fs |})
    <$> mapM correct_feature (features geoJsonData).

End Validator.

(** What the per-feature checks of [validateGeoJSONIntegrity] require of a
    feature to raise no error: state code 11, a name, a non-zero municipal
    code whose five-digit code is in the catalog, and a geometry with
    coordinates. *)
Definition sound_feature (f : MunicipalityFeature) : Prop :=
  state_code (properties f) = Some 11%Z
  /\ Js.truthy_str (mun_name (properties f)) = true
  /\ (exists mc, mun_code (properties f) = Some mc /\ mc <> 0%Z
        /\ is_Some (inegiByCode
                      !! cat ["11"; Js.padStart0 3 (Js.toString mc)]))
  /\ geometry_missing f = false.

(** A feature on which the code-mismatch branch of
    [validateGeoJSONIntegrity] cannot fire: whenever its name is in the
    catalog, so is its code. *)
Definition code_follows_name (toLowerCase : string -> string)
    (f : MunicipalityFeature) : Prop :=
  forall mc name,
    mun_code (properties f) = Some mc ->
    mun_name (properties f) = Some name ->
    is_Some (inegiByName toLowerCase !! toLowerCase name) ->
    is_Some (inegiByCode !! cat ["11"; Js.padStart0 3 (Js.toString mc)]).

(** A concrete [toLowerCase] for UTF-8 text in the Latin alphabet: the
    ASCII capitals and the two-byte capitals of the Latin-1 block
    (U+00C0..U+00DE except U+00D7).  On every name of the catalog, and on
    any name written with these letters, it is what JavaScript computes. *)
Definition lower_ascii (c : ascii) : ascii :=
  let n := nat_of_ascii c in
  if (65 <=? n)%nat && (n <=? 90)%nat then ascii_of_nat (n + 32) else c.

Fixpoint toLowerCase_latin (s : string) : string :=
  match s with
  | EmptyString => EmptyString
  | String c rest =>
      match rest with
      | String d rest' =>
          if (nat_of_ascii c =? 195)%nat then
            let n := nat_of_ascii d in
            if (128 <=? n)%nat && (n <=? 158)%nat && negb (n =? 151)%nat
            then String c (String (ascii_of_nat (n + 32)) (toLowerCase_latin rest'))
            else String c (String d (toLowerCase_latin rest'))
          else String (lower_ascii c) (toLowerCase_latin rest)
      | EmptyString => String (lower_ascii c) EmptyString
      end
  end.

End GeoJsonValidator.

(** ** dataJoiner: the join and the choropleth classification *)

Module DataJoiner.
Import GeoUtils DataLoader.

(** The properties of a joined feature: the original ones (the spread
    [...feature.properties]) with [cvegeo] and [nombre] now always present,
    plus the joined fields. *)
Record EnhancedProperties (T : Type) : Type := {
  e_state_code : option Z;
  e_mun_code : option Z;
  e_mun_name : option string;
  e_cvegeo : string;
  e_nombre : string;
  e_other : gmap string string;
  data : option T;
  hasData : bool;
  dataSource : option string
}.

Arguments e_state_code {T} _.
Arguments e_mun_code {T} _.
Arguments e_mun_name {T} _.
Arguments e_cvegeo {T} _.
Arguments e_nombre {T} _.
Arguments e_other {T} _.
Arguments data {T} _.
Arguments hasData {T} _.
Arguments dataSource {T} _.

Record EnhancedMunicipalityFeature (T : Type) : Type := {
  e_geometry : option Geometry;
  e_properties : EnhancedProperties T
}.

Arguments e_geometry {T} _.
Arguments e_properties {T} _.

Record JoinMetadata : Type := {
  totalFeatures : nat;
  featuresWithData : nat;
  dataAlignment : Js.jsnum;
  missingDataCodes : list (option string);
  md_dataSource : string;
  joinedAt : string
}.

Record EnhancedMunicipalitiesGeoJSON (T : Type) : Type := {
  e_features : list (EnhancedMunicipalityFeature T);
  e_metadata : JoinMetadata
}.

Arguments e_features {T} _.
Arguments e_metadata {T} _.

(** The options of the join.  A field name is given as the selector it
    stands for: [geoCodeField] is [f.properties[geoCodeField] as string] and
    [dataCodeField] is [r[dataCodeField] as string], both [None] where the
    field is absent. *)
Record JoinOptions (T : Type) : Type := {
  geoCodeField : option (MunicipalityProperties -> option string);
  dataCodeField : option (T -> option string);
  dataSourceName : option string
}.

Arguments geoCodeField {T} _.
Arguments dataCodeField {T} _.
Arguments dataSourceName {T} _.

Definition no_join_options {T} : JoinOptions T :=
  {| geoCodeField := None; dataCodeField := None; dataSourceName := None |}.

Section Join.
Context {T : Type} `{MunicipalDataRecord T}.

(** [dataLookup.get(municipalityCode)]: the keys are strings, so
    [undefined] is never found. *)
Definition lookup_get (dataLookup : gmap string T) (code : option string)
  : option T :=
  match code with Some c => dataLookup !! c | None => None end.

(** The callback of [geoJson.features.map]. *)
Definition enhance (geoCode : MunicipalityProperties -> option string)
    (dataLookup : gmap string T) (sourceName : string)
    (feature : MunicipalityFeature) : EnhancedMunicipalityFeature T :=
  let props := properties feature in
  let municipalityCode := geoCode props in
  let d := lookup_get dataLookup municipalityCode in
  let cvegeo_ :=
    default "unknown"
      (Js.or_str (Js.or_str (cvegeo props) municipalityCode) (Some "unknown")) in
  let nombre_ :=
    default "Unknown"
      (Js.or_str (Js.or_str (nombre props) (mun_name props)) (Some "Unknown")) in
  {| e_geometry := geometry feature;
     e_properties :=
       {| e_state_code := state_code props;
          e_mun_code := mun_code props;
          e_mun_name := mun_name props;
          e_cvegeo := cvegeo_;
          e_nombre := nombre_;
          e_other := other props;
          data := d;
          hasData := bool_decide (is_Some d);
          dataSource := Some sourceName |} |}.

(** [joinDataWithGeometries]; [now] is [new Date().toISOString()]. *)
Definition joinDataWithGeometries (now : string)
    (geoJson : MunicipalitiesGeoJSON) (dataFile : DataFile T)
    (options : JoinOptions T) : EnhancedMunicipalitiesGeoJSON T :=
  let geoCode := default cvegeo (geoCodeField options) in
  let dataCode :=
    default (fun r => Some (municipio r)) (dataCodeField options) in
  let sourceName := default "Unknown" (dataSourceName options) in
  let dataLookup := createMunicipalityLookup dataFile in
  let geoCodes :=
    Js.set_of (map (fun f => geoCode (properties f)) (features geoJson)) in
  let dataCodes := Js.set_of (map dataCode (records dataFile)) in
  let alignment := validateMunicipalityAlignment geoCodes dataCodes in
  let enhancedFeatures :=
    map (enhance geoCode dataLookup sourceName) (features geoJson) in
  {| e_features := enhancedFeatures;
     e_metadata :=
       {| totalFeatures := length enhancedFeatures;
          featuresWithData :=
            length (List.filter (fun f => hasData (e_properties f))
                                enhancedFeatures);
          dataAlignment := alignmentRatio alignment;
          missingDataCodes := missingInData alignment;
          md_dataSource := sourceName;
          joinedAt := now |} |}.

End Join.

(** *** [createChoroplethMapping] *)

Inductive Method : Type := quintiles | equal_interval | natural_breaks.

Record ChoroplethOptions : Type := {
  method : option Method;
  noDataColor : option string;
  missingDataValue : option Q
}.

Definition no_choropleth_options : ChoroplethOptions :=
  {| method := None; noDataColor := None; missingDataValue := None |}.

(** [values.sort((a, b) => a - b)]: ascending and stable. *)
Fixpoint insert_number (x : Q) (sorted : list Q) : list Q :=
  match sorted with
  | [] => [x]
  | y :: rest =>
      if Qle_bool y x then y :: insert_number x rest else x :: y :: rest
  end.

Definition sort_numbers (values : list Q) : list Q :=
  foldl (fun acc x => insert_number x acc) [] values.

(** [Math.min(...values)] and [Math.max(...values)] on a non-empty array
    [v :: vs]. *)
Definition min_of (v : Q) (vs : list Q) : Q :=
  foldl (fun m x => if Qle_bool m x then m else x) v vs.

Definition max_of (v : Q) (vs : list Q) : Q :=
  foldl (fun m x => if Qle_bool x m then m else x) v vs.

(** The [quintiles] branch on a non-empty array [v :: vs]: six entries of
    the sorted array, [values[0]] standing in for an entry that is
    [undefined] or falsy. *)
Definition quintile_breaks (v : Q) (vs : list Q) : list Js.jsnum :=
  let values := sort_numbers (v :: vs) in
  let quintileSize := (length values / 5)%nat in
  let first := nth 0 values v in
  Js.Fin <$>
    [ first;
      Js.index_or values quintileSize first;
      Js.index_or values (quintileSize * 2) first;
      Js.index_or values (quintileSize * 3) first;
      Js.index_or values (quintileSize * 4) first;
      nth (length values - 1) values v ].

(** The other branch ([equal-interval] and [natural-breaks]). *)
Definition interval_breaks (v : Q) (vs : list Q) (colors : nat)
  : list Js.jsnum :=
  let min := min_of v vs in
  let max := max_of v vs in
  let interval :=
    Js.div (Js.Fin (max - min))
           (Js.Fin (inject_Z (Z.of_nat colors - 1))) in
  map (fun i => Js.add (Js.Fin min) (Js.mul interval (Js.of_nat i)))
      (seq 0 colors).

Definition compute_breaks (m : Method) (v : Q) (vs : list Q)
    (colorScale : list string) : list Js.jsnum :=
  match m with
  | quintiles => quintile_breaks v vs
  | _ => interval_breaks v vs (length colorScale)
  end.

(** [colorScale[i]] for an integer [i]; [None] is [undefined]. *)
Definition color_at (colorScale : list string) (i : Z) : option string :=
  if (i <? 0)%Z then None else colorScale !! Z.to_nat i.

(** The downward loop [for (i = breaks.length - 1; i >= 0; i--)], entered
    with [k = i + 1]: the first index, from the top, whose break the value
    reaches. *)
Fixpoint find_bin (breaks : list Js.jsnum) (value : Q) (k : nat) : option nat :=
  match k with
  | O => None
  | S i =>
      match breaks !! i with
      | Some b =>
          if Js.geb (Js.Fin value) b then Some i else find_bin breaks value i
      | None => find_bin breaks value i
      end
  end.

(** The part of the returned function after the no-data test. *)
Definition color_for (breaks : list Js.jsnum) (colorScale : list string)
    (value : Q) : option string :=
  match find_bin breaks value (length breaks) with
  | Some i =>
      color_at colorScale
        (Z.min (Z.of_nat i) (Z.of_nat (length colorScale) - 1))
  | None => color_at colorScale 0
  end.

Section Choropleth.
Context {T : Type}.

(** The [forEach] that fills [values] and [valueMap]. *)
Definition collect (valueExtractor : T -> Q) (missing : Q)
    (acc : list Q * gmap string Q) (feature : EnhancedMunicipalityFeature T)
  : list Q * gmap string Q :=
  let code := e_cvegeo (e_properties feature) in
  match hasData (e_properties feature), data (e_properties feature) with
  | true, Some d =>
      let value := valueExtractor d in
      (acc.1 ++ [value], <[code := value]> acc.2)
  | _, _ => (acc.1, <[code := missing]> acc.2)
  end.

Definition extract_values (valueExtractor : T -> Q) (missing : Q)
    (enhancedGeoJson : EnhancedMunicipalitiesGeoJSON T)
  : list Q * gmap string Q :=
  foldl (collect valueExtractor missing) ([], ∅) (e_features enhancedGeoJson).

(** The breaks computed by [createChoroplethMapping]; [None] when no value
    was extracted and the function returns before computing any. *)
Definition choropleth_breaks (enhancedGeoJson : EnhancedMunicipalitiesGeoJSON T)
    (valueExtractor : T -> Q) (colorScale : list string)
    (options : ChoroplethOptions) : option (list Js.jsnum) :=
  let m := default quintiles (method options) in
  let missing := default 0%Q (missingDataValue options) in
  match (extract_values valueExtractor missing enhancedGeoJson).1 with
  | [] => None
  | v :: vs => Some (compute_breaks m v vs colorScale)
  end.

(** [createChoroplethMapping]: the returned function, from a municipality
    code to a color ([None] is [undefined], which the function returns only
    for an empty [colorScale]). *)
Definition createChoroplethMapping
    (enhancedGeoJson : EnhancedMunicipalitiesGeoJSON T)
    (valueExtractor : T -> Q) (colorScale : list string)
    (options : ChoroplethOptions) : string -> option string :=
  let m := default quintiles (method options) in
  let noData := default "#cccccc" (noDataColor options) in
  let missing := default 0%Q (missingDataValue options) in
  let '(values, valueMap) :=
    extract_values valueExtractor missing enhancedGeoJson in
  match values with
  | [] => fun _ => Some noData
  | v :: vs =>
      let breaks := compute_breaks m v vs colorScale in
      fun municipalityCode =>
        match valueMap !! municipalityCode with
        | None => Some noData
        | Some value =>
            if Qeq_bool value missing then Some noData
            else color_for breaks colorScale value
        end
  end.

End Choropleth.

(** The index into [colorScale] that [color_for] reads, for a scale of
    [colors] colors. *)
Definition bin_of (breaks : list Js.jsnum) (colors : nat) (value : Q) : Z :=
  match find_bin breaks value (length breaks) with
  | Some i => Z.min (Z.of_nat i) (Z.of_nat colors - 1)
  | None => 0
  end.

(** *** [extractDataSummary] *)


Section Summary.
Context {T : Type}.

(** [Math.sqrt]. *)
Variable sqrt : Q -> Q.

(** [features.filter(f => f.properties.hasData && f.properties.data)
    .map(f => valueExtractor(f.properties.data!))]. *)
Definition summary_values (enhancedGeoJson : EnhancedMunicipalitiesGeoJSON T)
    (valueExtractor : T -> Q) : list Q :=
  omap (fun f =>
          if hasData (e_properties f)
          then valueExtractor <$> data (e_properties f)
          else None)
       (e_features enhancedGeoJson).



End Summary.

End DataJoiner.

(** ** atlasConfig: the static table of layers *)

Module AtlasConfig.

Inductive LayerVisualizationType : Type :=
| choropleth | heatmap | markers | hybrid.

Record LayerMetadata : Type := {
  md_source : string;
  md_lastUpdated : string;
  md_unit : string;
  md_methodology : option string
}.

Record AtlasLayerConfig : Type := {
  id : string;
  name : string;
  description : string;
  dataSource : string;
  visualization : LayerVisualizationType;
  color : string;
  isActive : bool;
  group : string;
  order : Z;
  metadata : LayerMetadata
}.

(** The entries of [ATLAS_LAYERS], key first, in the order of the object
    literal, which is the order of [Object.entries]. *)
Definition ATLAS_LAYERS : list (string * AtlasLayerConfig) :=
  [ ("indice_riesgo",
     {| id := "indice_riesgo";
        name := "Índice de Riesgo";
        description :=
          "Índice compuesto de riesgo para mujeres buscadoras por municipio (0-100)";
        dataSource := "/data/indice_riesgo.json";
        visualization := choropleth;
        color := "#6580A4";
        isActive := true;
        group := "principal";
        order := 1;
        metadata :=
          {| md_source := "Gobierno del Estado de Guanajuato";
             md_lastUpdated := "2024-01";
             md_unit := "índice 0-100";
             md_methodology :=
               Some "Promedio ponderado de 6 variables de riesgo" |} |});
    ("desapariciones",
     {| id := "desapariciones";
        name := "Desapariciones";
        description :=
          "Casos de desaparición por municipio con visualización de densidad";
        dataSource := "/data/desapariciones_mun.json";
        visualization := hybrid;
        color := "#F45197";
        isActive := false;
        group := "factores_riesgo";
        order := 2;
        metadata :=
          {| md_source :=
               "Registro Nacional de Personas Desaparecidas (RNPDNO)";
             md_lastUpdated := "2024-01";
             md_unit := "casos";
             md_methodology := None |} |});
    ("homicidios",
     {| id := "homicidios";
        name := "Homicidios";
        description := "Homicidios dolosos por municipio con mapa de calor";
        dataSource := "/data/homicidio_mun.json";
        visualization := hybrid;
        color := "#FF8200";
        isActive := false;
        group := "factores_riesgo";
        order := 3;
        metadata :=
          {| md_source := "Secretariado Ejecutivo del SNSP";
             md_lastUpdated := "2024-01";
             md_unit := "casos";
             md_methodology := None |} |});
    ("tomas_clandestinas",
     {| id := "tomas_clandestinas";
        name := "Tomas Clandestinas";
        description :=
          "Densidad de tomas clandestinas de combustible por municipio";
        dataSource := "/data/tomas_clandestinas.json";
        visualization := heatmap;
        color := "#FF8200";
        isActive := false;
        group := "factores_riesgo";
        order := 4;
        metadata :=
          {| md_source := "PEMEX / Secretaría de Seguridad Pública";
             md_lastUpdated := "2024-01";
             md_unit := "por km²";
             md_methodology := None |} |});
    ("rezago_social",
     {| id := "rezago_social";
        name := "Rezago Social";
        description := "Índice de rezago social municipal por quintiles";
        dataSource := "/data/rezago_municipal.json";
        visualization := choropleth;
        color := "#32AA00";
        isActive := false;
        group := "socioeconomico";
        order := 5;
        metadata :=
          {| md_source := "CONEVAL";
             md_lastUpdated := "2020";
             md_unit := "quintiles";
             md_methodology := None |} |});
    ("capacidad_instalada",
     {| id := "capacidad_instalada";
        name := "Capacidad Institucional";
        description :=
          "Infraestructura institucional disponible para búsqueda";
        dataSource := "/data/capacidad_instalada.json";
        visualization := markers;
        color := "#00A99D";
        isActive := false;
        group := "institucional";
        order := 6;
        metadata :=
          {| md_source := "Secretaría de Desarrollo Social";
             md_lastUpdated := "2024-01";
             md_unit := "instituciones";
             md_methodology := None |} |}) ].

End AtlasConfig.

(** ** layerManager: the layer state store *)

Module LayerManager.

Inductive LayerVisualizationType : Type :=
| choropleth | heatmap | markers | none.

#[export] Instance LayerVisualizationType_eq_dec :
  EqDecision LayerVisualizationType.
Proof. solve_decision. Defined.

Record LayerState : Type := {
  id : string;
  name : string;
  description : string;
  isVisible : bool;
  isLoading : bool;
  hasData : bool;
  visualizationType : LayerVisualizationType;
  config : AtlasConfig.AtlasLayerConfig;
  dataCount : option Z;
  lastUpdated : option Z
}.

(** Assignments to one field of a layer object. *)
Definition set_isVisible (b : bool) (l : LayerState) : LayerState :=
  {| id := id l; name := name l; description := description l;
     isVisible := b; isLoading := isLoading l; hasData := hasData l;
     visualizationType := visualizationType l; config := config l;
     dataCount := dataCount l; lastUpdated := lastUpdated l |}.

Definition set_isLoading (b : bool) (l : LayerState) : LayerState :=
  {| id := id l; name := name l; description := description l;
     isVisible := isVisible l; isLoading := b; hasData := hasData l;
     visualizationType := visualizationType l; config := config l;
     dataCount := dataCount l; lastUpdated := lastUpdated l |}.

Definition set_data (b : bool) (count : option Z) (now : Z) (l : LayerState)
  : LayerState :=
  {| id := id l; name := name l; description := description l;
     isVisible := isVisible l; isLoading := isLoading l; hasData := b;
     visualizationType := visualizationType l; config := config l;
     dataCount := count; lastUpdated := Some now |}.

Definition reset_layer (l : LayerState) : LayerState :=
  {| id := id l; name := name l; description := description l;
     isVisible := String.eqb (id l) "indice_riesgo";
     isLoading := false; hasData := false;
     visualizationType := visualizationType l; config := config l;
     dataCount := None; lastUpdated := None |}.

(** A reference to a [LayerState] object, and to a listener function. *)
Definition ref : Type := nat.
Definition listener : Type := nat.

(** One call [listener(layers)]: the array it was handed (an array of
    references to layer objects) and what those objects held when the call
    was made. *)
Record Call : Type := {
  callee : listener;
  argument : list ref;
  seen : list LayerState
}.

(** An [AtlasLayerManager] together with the objects it refers to.
    [objects] is the store of [LayerState] objects; [layers] is the private
    [Map], as its entries in insertion order, each value a reference into
    [objects]; [listeners] is the private [Set] in insertion order; [calls]
    records the calls made to listeners so far.  A listener is taken to
    observe only: it does not call back into the manager. *)
Record Manager : Type := {
  objects : gmap ref LayerState;
  layers : list (string * ref);
  listeners : list listener;
  calls : list Call
}.

(** [this.layers.get(id)]. *)
Definition layers_get (m : Manager) (i : string) : option ref :=
  snd <$> List.find (fun e => String.eqb (fst e) i) (layers m).

(** [map.set(key, value)] on the entries of a [Map]. *)
Fixpoint entries_set (es : list (string * ref)) (k : string) (r : ref)
  : list (string * ref) :=
  match es with
  | [] => [(k, r)]
  | (k', r') :: rest =>
      if String.eqb k' k then (k, r) :: rest
      else (k', r') :: entries_set rest k r
  end.

(** What an array of layer references holds, read in state [m]. *)
Definition read (m : Manager) (rs : list ref) : list LayerState :=
  omap (fun r => objects m !! r) rs.

(** An assignment to fields of the object behind [r]. *)
Definition assign (f : LayerState -> LayerState) (r : ref) (m : Manager)
  : Manager :=
  {| objects := alter f r (objects m); layers := layers m;
     listeners := listeners m; calls := calls m |}.

Definition determineVisualizationType (config : AtlasConfig.AtlasLayerConfig)
  : LayerVisualizationType :=
  let i := AtlasConfig.id config in
  if String.eqb i "indice_riesgo" || String.eqb i "rezago_social"
  then choropleth
  else if String.eqb i "desapariciones" || String.eqb i "homicidios"
          || String.eqb i "tomas_clandestinas"
  then heatmap
  else if String.eqb i "capacidad_instalada" then markers
  else choropleth.

(** The body of the [forEach] of [initializeLayers]: a new object, stored
    under [id]. *)
Definition initialize_layer (m : Manager)
    (e : string * AtlasConfig.AtlasLayerConfig) : Manager :=
  let '(i, config) := e in
  let layerState :=
    {| id := i;
       name := AtlasConfig.name config;
       description := AtlasConfig.description config;
       isVisible := String.eqb i "indice_riesgo";
       isLoading := false;
       hasData := false;
       visualizationType := determineVisualizationType config;
       config := config;
       dataCount := None;
       lastUpdated := None |} in
  let r := size (objects m) in
  {| objects := <[r := layerState]> (objects m);
     layers := entries_set (layers m) i r;
     listeners := listeners m; calls := calls m |}.

(** [new AtlasLayerManager()]. *)
Definition new_manager : Manager :=
  foldl initialize_layer
        {| objects := ∅; layers := []; listeners := []; calls := [] |}
        AtlasConfig.ATLAS_LAYERS.

(** [getLayers]: [Array.from(this.layers.values())], a new array of the
    same object references. *)
Definition getLayers (m : Manager) : list ref := snd <$> layers m.

Definition getVisibleLayers (m : Manager) : list ref :=
  List.filter (fun r => match objects m !! r with
                        | Some l => isVisible l | None => false end)
              (getLayers m).

Definition getLayer (m : Manager) (i : string) : option ref := layers_get m i.

Definition getLayersByType (m : Manager) (t : LayerVisualizationType)
  : list ref :=
  List.filter (fun r => match objects m !! r with
                        | Some l => bool_decide (visualizationType l = t)
                        | None => false end)
              (getLayers m).

(** [notifyListeners]: one snapshot, handed to every listener in turn. *)
Definition notifyListeners (m : Manager) : Manager :=
  let snapshot := getLayers m in
  {| objects := objects m; layers := layers m; listeners := listeners m;
     calls :=
       calls m ++
       map (fun l => {| callee := l; argument := snapshot;
                        seen := read m snapshot |})
           (listeners m) |}.

(** The visibility of the object behind [r]. *)
Definition visible_at (m : Manager) (r : ref) : bool :=
  match objects m !! r with Some l => isVisible l | None => false end.

Definition toggleLayer (i : string) (m : Manager) : bool * Manager :=
  match layers_get m i with
  | None => (false, m)
  | Some r =>
      let m1 := assign (fun l => set_isVisible (negb (isVisible l)) l) r m in
      let m2 := notifyListeners m1 in
      (visible_at m2 r, m2)
  end.

Definition setLayerVisibility (i : string) (visible : bool) (m : Manager)
  : bool * Manager :=
  match layers_get m i with
  | None => (false, m)
  | Some r =>
      if negb (Bool.eqb (visible_at m r) visible) then
        (true, notifyListeners (assign (set_isVisible visible) r m))
      else (true, m)
  end.

Definition setLayerLoading (i : string) (loading : bool) (m : Manager)
  : Manager :=
  match layers_get m i with
  | None => m
  | Some r => notifyListeners (assign (set_isLoading loading) r m)
  end.

(** [setLayerData]; [now] is [new Date()]. *)
Definition setLayerData (now : Z) (i : string) (hasData_ : bool)
    (dataCount_ : option Z) (m : Manager) : Manager :=
  match layers_get m i with
  | None => m
  | Some r => notifyListeners (assign (set_data hasData_ dataCount_ now) r m)
  end.

(** [this.layers.forEach((layer, layerId) => ...)] assigning to each
    layer object. *)
Definition forEach_layer (f : string -> LayerState -> LayerState)
    (m : Manager) : Manager :=
  foldl (fun m' e => assign (f (fst e)) (snd e) m') m (layers m).

Definition showOnlyLayer (i : string) (m : Manager) : Manager :=
  notifyListeners
    (forEach_layer (fun layerId l => set_isVisible (String.eqb layerId i) l) m).

Definition hideAllLayers (m : Manager) : Manager :=
  notifyListeners (forEach_layer (fun _ l => set_isVisible false l) m).

Definition reset (m : Manager) : Manager :=
  notifyListeners (forEach_layer (fun _ l => reset_layer l) m).

Record Statistics : Type := {
  total : nat;
  visible : nat;
  withData : nat;
  loading : nat;
  byType : LayerVisualizationType -> nat
}.

Definition getStatistics (m : Manager) : Statistics :=
  let ls := read m (getLayers m) in
  {| total := length ls;
     visible := length (List.filter isVisible ls);
     withData := length (List.filter hasData ls);
     loading := length (List.filter isLoading ls);
     byType := fun t =>
       length (List.filter (fun l => bool_decide (visualizationType l = t))
                           ls) |}.

(** [subscribe(listener)] and the function it returns. *)
Definition subscribe (l : listener) (m : Manager) : Manager :=
  {| objects := objects m; layers := layers m;
     listeners := Js.set_add (listeners m) l; calls := calls m |}.

Definition unsubscribe (l : listener) (m : Manager) : Manager :=
  {| objects := objects m; layers := layers m;
     listeners := List.filter (fun l' => negb (Nat.eqb l' l)) (listeners m);
     calls := calls m |}.

(** The calls received by one listener. *)
Definition calls_to (l : listener) (m : Manager) : list Call :=
  List.filter (fun c => Nat.eqb (callee c) l) (calls m).

(** Whether a snapshot shows layer [i] as visible; [None] when the
    snapshot has no such layer. *)
Definition visible_in (snapshot : list LayerState) (i : string) : option bool :=
  isVisible <$> List.find (fun l => String.eqb (id l) i) snapshot.

(** One broadcast between two states: the record of calls grows by one
    call per listener registered before, in registration order, each handed
    the layers of the later state and seeing what they hold there. *)
Definition broadcast (m m' : Manager) : Prop :=
  calls m'
  = calls m
    ++ map (fun l => {| callee := l; argument := getLayers m';
                        seen := read m' (getLayers m') |})
           (listeners m)
  /\ listeners m' = listeners m.

(** The operations of the public interface that change the manager, as
    data, and a sequence of them run from a state. *)
Inductive Op : Type :=
| OpToggle (i : string)
| OpSetVisibility (i : string) (visible : bool)
| OpSetLoading (i : string) (loading : bool)
| OpSetData (now : Z) (i : string) (hasData_ : bool) (dataCount_ : option Z)
| OpShowOnly (i : string)
| OpHideAll
| OpReset
| OpSubscribe (l : listener)
| OpUnsubscribe (l : listener).

Definition run (m : Manager) (op : Op) : Manager :=
  match op with
  | OpToggle i => (toggleLayer i m).2
  | OpSetVisibility i visible => (setLayerVisibility i visible m).2
  | OpSetLoading i loading => setLayerLoading i loading m
  | OpSetData now i hasData_ dataCount_ =>
      setLayerData now i hasData_ dataCount_ m
  | OpShowOnly i => showOnlyLayer i m
  | OpHideAll => hideAllLayers m
  | OpReset => reset m
  | OpSubscribe l => subscribe l m
  | OpUnsubscribe l => unsubscribe l m
  end.

Definition run_all (ops : list Op) (m : Manager) : Manager := foldl run m ops.

(** The configured layer ids. *)
Definition layer_ids : list string := fst <$> AtlasConfig.ATLAS_LAYERS.

End LayerManager.

(** ** Inputs of the scenarios *)

Module Scenarios.
Import GeoUtils DataLoader DataJoiner.

Definition risk (code : string) (value : Q) : RiskIndexRecord :=
  {| ri_municipio := code; indice := value; top_factores := [];
     calidad := media |}.

(** A joined feature carrying the record [r] under the code [code]. *)
Definition joined (code : string) (r : RiskIndexRecord)
  : EnhancedMunicipalityFeature RiskIndexRecord :=
  {| e_geometry := None;
     e_properties :=
       {| e_state_code := Some 11%Z; e_mun_code := None; e_mun_name := None;
          e_cvegeo := code; e_nombre := code; e_other := ∅;
          data := Some r; hasData := true; dataSource := Some "test" |} |}.

Definition collection (fs : list (EnhancedMunicipalityFeature RiskIndexRecord))
  : EnhancedMunicipalitiesGeoJSON RiskIndexRecord :=
  {| e_features := fs;
     e_metadata :=
       {| totalFeatures := length fs; featuresWithData := length fs;
          dataAlignment := Js.Fin 1; missingDataCodes := [];
          md_dataSource := "test"; joinedAt := "" |} |}.

(** A collection whose extracted values are [values], under the codes
    ["11001"], ["11002"], ... *)
Definition with_values (values : list Q)
  : EnhancedMunicipalitiesGeoJSON RiskIndexRecord :=
  collection
    (imap (fun i v =>
             let code :=
               GeoJsonValidator.cat
                 ["11"; Js.padStart0 3 (Js.toString (Z.of_nat (S i)))] in
             joined code (risk code v))
          values).

Definition five_colors : list string :=
  ["#99ccff"; "#3399ff"; "#0066cc"; "#004d99"; "#003366"].

(** Scenario B: two records share the code ["11007"]. *)
Definition scenario_B : DataFile RiskIndexRecord :=
  {| version := "2024.1"; source := None; updated := None; metadata := None;
     records := [risk "11006" 1; risk "11007" 2; risk "11008" 3;
                 risk "11007" 4] |}.

(** Scenario C: values 10, 20, 30, 40, 50. *)
Definition scenario_C : EnhancedMunicipalitiesGeoJSON RiskIndexRecord :=
  with_values [10; 20; 30; 40; 50]%Q.

(** Scenario D: a single feature named "Leon" with the code of León. *)
Definition scenario_D : GeoJsonValidator.GeoJSONInput :=
  {| GeoJsonValidator.input_features :=
       Some [ {| geometry :=
                   Some {| geometry_type := Polygon;
                           coordinates := Some (Ring []) |};
                 properties :=
                   {| state_code := Some 11%Z; mun_code := Some 20%Z;
                      mun_name := Some "Leon"; cvegeo := None;
                      nombre := None; other := ∅ |} |} ] |}.

(** Values of a social-lag index, which takes both signs. *)
Definition signed_values : EnhancedMunicipalitiesGeoJSON RiskIndexRecord :=
  with_values [-5; -3; 0; 1; 2]%Q.

(** Two features carrying the same code, the first with the value [0]. *)
Definition repeated_code : EnhancedMunicipalitiesGeoJSON RiskIndexRecord :=
  collection [joined "11001" (risk "11001" 0); joined "11001" (risk "11001" 5)].

(** An empty geometry collection and an empty data file. *)
Definition no_features : MunicipalitiesGeoJSON := {| features := [] |}.

Definition no_records : DataFile RiskIndexRecord :=
  {| version := "2024.1"; source := None; updated := None; metadata := None;
     records := [] |}.

(** A geometry feature for Celaya, as [loadMunicipalitiesGeoJSON] leaves
    it, and a collection holding only it. *)
Definition celaya : MunicipalityFeature :=
  {| geometry :=
       Some {| geometry_type := Polygon; coordinates := Some (Ring []) |};
     properties :=
       {| state_code := Some 11%Z; mun_code := Some 7%Z;
          mun_name := Some "Celaya"; cvegeo := Some "11007";
          nombre := Some "Celaya"; other := ∅ |} |}.

Definition only_celaya : MunicipalitiesGeoJSON := {| features := [celaya] |}.

(** Two features with polygons: a triangle and a multi-polygon of one
    segment. *)
Definition point (lng lat : Q) : Coordinates := Ring [Coord lng; Coord lat].

Definition two_shapes : MunicipalitiesGeoJSON :=
  {| features :=
       [ {| geometry :=
              Some {| geometry_type := Polygon;
                      coordinates :=
                        Some (Ring [Ring [point (-101) 20; point (-100) 21;
                                          point (-102) (43 / 2)]]) |};
            properties := properties celaya |};
         {| geometry :=
              Some {| geometry_type := MultiPolygon;
                      coordinates :=
                        Some (Ring [Ring [Ring [point (-99) 19;
                                                point (-100) (39 / 2)]]]) |};
            properties := properties celaya |} ] |}.

(** Celaya under a municipal code that the catalog does not have, and a
    feature whose name the catalog does not know. *)
Definition miscoded : MunicipalitiesGeoJSON :=
  {| features :=
       [ {| geometry := geometry celaya;
            properties :=
              {| state_code := Some 11%Z; mun_code := Some 50%Z;
                 mun_name := Some "Celaya"; cvegeo := None;
                 nombre := None; other := ∅ |} |};
         {| geometry := geometry celaya;
            properties :=
              {| state_code := Some 11%Z; mun_code := Some 99%Z;
                 mun_name := Some "Atlantis"; cvegeo := None;
                 nombre := None; other := ∅ |} |} ] |}.

End Scenarios.

(* ===================================================================== *)
(** * Part II: properties                                                 *)
(* ===================================================================== *)

(** ** The code crosswalk *)

Section Crosswalk.
Import MunicipalityCodes.

(** On the 46 compact codes, the data code maps back to the compact code
    it came from. *)
Lemma dataCode_inverts_geoCode (c : Z) :
  (1 <= c <= 46)%Z ->
  geoCodeToDataCode c ≫= dataCodeToGeoCode = Some c.
Proof.
  intros Hc.
  assert (Hall : Forall (fun c => geoCodeToDataCode c ≫= dataCodeToGeoCode = Some c)
                        (seqZ 1 46)).
  { apply (bool_decide_unpack _). vm_compute. exact I. }
  rewrite Forall_forall in Hall. apply Hall.
  apply elem_of_seqZ. lia.
Qed.

(** C9.  For every compact code [c] in 1..46, going from [c] to its data
    code, back to a compact code, and to a data code again gives the data
    code of [c]; each of the three lookups finds its entry. *)
Theorem crosswalk_round_trip (c : Z) :
  (1 <= c <= 46)%Z ->
  exists d c',
    geoCodeToDataCode c = Some d /\
    dataCodeToGeoCode d = Some c' /\
    geoCodeToDataCode c' = Some d.
Proof.
  intros Hc.
  pose proof (dataCode_inverts_geoCode c Hc) as Hinv.
  destruct (geoCodeToDataCode c) as [d|] eqn:Hd; [|discriminate].
  simpl in Hinv. exists d, c. repeat split; assumption.
Qed.

Lemma crosswalk_round_trip_witness :
  exists d c',
    geoCodeToDataCode 20 = Some d /\
    dataCodeToGeoCode d = Some c' /\
    geoCodeToDataCode c' = Some d.
Proof. apply (crosswalk_round_trip 20). lia. Defined.

End Crosswalk.

(** ** The lookup built from the tabular records *)

Section Lookup.
Import DataLoader.
Context {T : Type} `{MunicipalDataRecord T}.

Lemma lookup_fold_last (rs : list T) (c : string) :
  foldl (fun lookup record => <[municipio record := record]> lookup)
        (∅ : gmap string T) rs !! c
  = last (filter (fun r => municipio r = c) rs).
Proof.
  induction rs as [|r rs IH] using rev_ind.
  - reflexivity.
  - rewrite foldl_snoc, filter_app.
    destruct (decide (municipio r = c)) as [Heq|Hne].
    + rewrite filter_cons_True by exact Heq.
      rewrite filter_nil, last_snoc, Heq. apply lookup_insert_eq.
    + rewrite filter_cons_False by exact Hne.
      rewrite filter_nil, app_nil_r, lookup_insert_ne by exact Hne. exact IH.
Qed.

(** C7.  For every data file and every code, [createMunicipalityLookup]
    resolves the code to the last record of the file that carries it: when
    several records share a code, the later one wins. *)
Theorem lookup_last_write_wins (dataFile : DataFile T) (c : string) :
  createMunicipalityLookup dataFile !! c
  = last (filter (fun r => municipio r = c) (records dataFile)).
Proof. unfold createMunicipalityLookup. apply lookup_fold_last. Qed.

End Lookup.

Section LookupExamples.
Import DataLoader.

(** The same for two records: of two records with the same code, the
    lookup returns the later one, provided no record after it carries that
    code. *)
Lemma lookup_later_of_two {T : Type} `{MunicipalDataRecord T}
    (dataFile : DataFile T) (r1 r2 : T) (before between after : list T) :
  records dataFile = before ++ r1 :: between ++ r2 :: after ->
  municipio r1 = municipio r2 ->
  Forall (fun r => municipio r <> municipio r2) after ->
  createMunicipalityLookup dataFile !! municipio r2 = Some r2.
Proof.
  intros Hrs _ Hafter.
  unfold createMunicipalityLookup. rewrite lookup_fold_last, Hrs.
  assert (filter (fun r => municipio r = municipio r2) after = []) as Hnil.
  { clear Hrs. induction Hafter as [|r rs Hr _ IH]; [reflexivity|].
    rewrite filter_cons_False by exact Hr. exact IH. }
  rewrite filter_app, filter_cons, filter_app.
  rewrite (filter_cons_True _ r2) by reflexivity.
  rewrite Hnil.
  destruct (decide (municipio r1 = municipio r2));
    rewrite ?app_comm_cons, app_assoc; apply last_snoc.
Qed.

(** Scenario B: the lookup resolves ["11007"] to the fourth record, the
    later of the two that carry this code. *)
Example scenario_B_lookup :
  createMunicipalityLookup Scenarios.scenario_B !! "11007"
  = Some (Scenarios.risk "11007" 4).
Proof.
  change "11007" with (municipio (Scenarios.risk "11007" 4)) at 1.
  apply (lookup_later_of_two Scenarios.scenario_B
           (Scenarios.risk "11007" 2) (Scenarios.risk "11007" 4)
           [Scenarios.risk "11006" 1] [Scenarios.risk "11008" 3] []);
    [reflexivity | reflexivity | constructor].
Qed.

End LookupExamples.

(** ** The join *)

Section JoinFacts.
Import GeoUtils DataLoader DataJoiner.
Context {T : Type} `{MunicipalDataRecord T}.

(** C3.  The joined collection has exactly as many features as the input
    geometry, whatever the records are; [totalFeatures] is that number. *)
Theorem join_preserves_feature_count (now : string)
    (geoJson : MunicipalitiesGeoJSON) (dataFile : DataFile T)
    (options : JoinOptions T) :
  length (e_features (joinDataWithGeometries now geoJson dataFile options))
  = length (features geoJson)
  /\ totalFeatures (e_metadata (joinDataWithGeometries now geoJson dataFile options))
     = length (features geoJson).
Proof.
  unfold joinDataWithGeometries; simpl.
  split; apply length_map.
Qed.

(** The features of the result are the features of the input, one for one
    and in order: feature [i] of the result has the geometry of feature
    [i] of the input. *)
Lemma join_keeps_geometry (now : string)
    (geoJson : MunicipalitiesGeoJSON) (dataFile : DataFile T)
    (options : JoinOptions T) :
  map e_geometry
      (e_features (joinDataWithGeometries now geoJson dataFile options))
  = map geometry (features geoJson).
Proof.
  unfold joinDataWithGeometries; simpl.
  rewrite map_map. reflexivity.
Qed.

End JoinFacts.

(** ** Scenario C of the classification *)

Section Classification.
Import Js DataLoader DataJoiner Scenarios.

(** Scenario C as stated fails on both counts: the breaks computed for
    the values 10, 20, 30, 40, 50 are not 10, 10, 20, 30, 40, 50, and with
    the computed breaks the value 25 does not get the third color. *)
Lemma scenario_C_as_stated_fails :
  choropleth_breaks scenario_C indice five_colors no_choropleth_options
    <> Some (Fin <$> [10; 10; 20; 30; 40; 50]%Q)
  /\ ~ (forall breaks,
          choropleth_breaks scenario_C indice five_colors no_choropleth_options
            = Some breaks ->
          color_for breaks five_colors 25 = five_colors !! 2%nat).
Proof.
  split.
  - vm_compute. discriminate.
  - intros Hall. specialize (Hall _ eq_refl). vm_compute in Hall. discriminate.
Qed.

(** C1 (amended).  For the quintiles method on the values 10, 20, 30, 40,
    50 with five colors, the computed breaks are 10, 20, 30, 40, 50, 50
    (the entries at indices 0, 1, 2, 3, 4, 4 of the sorted values), and the
    lookup loop gives the value 25 the second color. *)
Theorem scenario_C_breaks :
  choropleth_breaks scenario_C indice five_colors no_choropleth_options
    = Some (Fin <$> [10; 20; 30; 40; 50; 50]%Q)
  /\ color_for (Fin <$> [10; 20; 30; 40; 50; 50]%Q) five_colors 25
     = five_colors !! 1%nat
  /\ five_colors !! 1%nat = Some "#3399ff".
Proof. repeat split; vm_compute; reflexivity. Qed.

End Classification.

(** ** The integrity validator *)

Section ValidatorFacts.
Import GeoUtils GeoJsonValidator.

(** No issue of a severity is counted exactly when no issue has it. *)
Lemma count_severity_zero (s : Severity) (l : list ValidationIssue) :
  count_severity s l = 0%nat <-> Forall (fun i => severity i <> s) l.
Proof.
  unfold count_severity. induction l as [|i l IH].
  - split; [constructor | reflexivity].
  - rewrite filter_cons, Forall_cons.
    destruct (decide (severity i = s)) as [Heq|Hne]; simpl.
    + split; [discriminate | tauto].
    + rewrite IH. tauto.
Qed.

(** C8.  For every input of the validator, [isValid] is true exactly when
    no issue of the report has severity [error]; in particular a report
    whose issues are all warnings is valid. *)
Theorem isValid_iff_no_error_issue (toLowerCase : string -> string)
    (geoJsonData : GeoJSONInput) :
  let report := validateGeoJSONIntegrity toLowerCase geoJsonData in
  (isValid report = true
   <-> Forall (fun i => severity i <> error) (issues report))
  /\ (Forall (fun i => severity i = warning) (issues report)
      -> isValid report = true).
Proof.
  intros report.
  assert (Hiff : isValid report = true
                 <-> Forall (fun i => severity i <> error) (issues report)).
  { subst report. unfold validateGeoJSONIntegrity.
    destruct (input_features geoJsonData) as [feats|]; simpl.
    - rewrite Nat.eqb_eq. apply count_severity_zero.
    - split; [discriminate|].
      intros Hall. apply Forall_cons in Hall as [Hne _]. simpl in Hne.
      congruence. }
  split; [exact Hiff|].
  intros Hwarn. apply Hiff.
  eapply Forall_impl; [exact Hwarn|]. simpl. intros i Hi. rewrite Hi. discriminate.
Qed.

Lemma isValid_iff_no_error_issue_witness :
  Forall (fun i => severity i = warning)
         (issues (validateGeoJSONIntegrity toLowerCase_latin Scenarios.scenario_D))
  /\ isValid (validateGeoJSONIntegrity toLowerCase_latin Scenarios.scenario_D)
     = true.
Proof.
  assert (Hwarn : Forall (fun i => severity i = warning)
            (issues (validateGeoJSONIntegrity toLowerCase_latin
                       Scenarios.scenario_D))).
  { apply (bool_decide_unpack _). vm_compute. exact I. }
  split; [exact Hwarn|].
  exact (proj2 (isValid_iff_no_error_issue toLowerCase_latin Scenarios.scenario_D)
               Hwarn).
Defined.

(** Scenario D: a feature named "Leon" with the code of León gets a
    name-mismatch warning suggesting the official name; with the 45 units
    that are then missing the report has 46 warnings, no error, and is
    valid. *)
Example scenario_D_report :
  let report := validateGeoJSONIntegrity toLowerCase_latin Scenarios.scenario_D in
  head (issues report)
    = Some (wrong_name_issue "Leon" (inegi "11020" "León"))
  /\ length (issues report) = 46%nat
  /\ summary report = {| errors := 0; warnings := 46; infos := 0 |}
  /\ isValid report = true.
Proof. vm_compute. repeat split. Qed.

End ValidatorFacts.

(** ** The layer state store *)

Section StoreFacts.
Import LayerManager.

(** Assigning to a layer object and broadcasting leave the layer map and
    the listener set as they are. *)
Lemma getLayers_toggleLayer (i : string) (m : Manager) :
  getLayers (toggleLayer i m).2 = getLayers m.
Proof. unfold toggleLayer. destruct (layers_get m i); reflexivity. Qed.

Lemma visible_at_assign (b : bool) (r : ref) (m : Manager) :
  is_Some (objects m !! r) ->
  visible_at (notifyListeners (assign (set_isVisible b) r m)) r = b.
Proof.
  intros [l Hl]. unfold visible_at, notifyListeners, assign; simpl.
  rewrite lookup_alter_eq, Hl. reflexivity.
Qed.

(** A broadcast calls each registered listener once, after the calls
    already made, with the current layers. *)
Lemma calls_to_notifyListeners (L : listener) (m : Manager) :
  calls_to L (notifyListeners m)
  = calls_to L m
    ++ map (fun l => {| callee := l; argument := getLayers m;
                        seen := read m (getLayers m) |})
           (List.filter (fun l => Nat.eqb l L) (listeners m)).
Proof.
  unfold calls_to, notifyListeners; simpl.
  rewrite List.filter_app. f_equal.
  induction (listeners m) as [|l ls IH]; [reflexivity|].
  simpl. destruct (Nat.eqb l L); simpl; rewrite IH; reflexivity.
Qed.

(** The snapshot returned before a toggle does not keep its contents: read
    afterwards, it shows the toggled layer with the new visibility. *)
Lemma snapshot_changes_under_toggle :
  read (toggleLayer "indice_riesgo" new_manager).2 (getLayers new_manager)
  <> read new_manager (getLayers new_manager).
Proof.
  intros Heq.
  assert (Hv : visible_in (read (toggleLayer "indice_riesgo" new_manager).2
                                (getLayers new_manager)) "indice_riesgo"
               = visible_in (read new_manager (getLayers new_manager))
                            "indice_riesgo")
    by (rewrite Heq; reflexivity).
  vm_compute in Hv. discriminate.
Qed.

(** C5 (amended).  [getLayers] returns an array of references to the
    store's own layer objects.  A later [toggleLayer] on a known id leaves
    the array itself as it was (the same layers in the same order, which is
    also what a new call returns), but is visible through it: read after
    the toggle, the earlier snapshot holds what a fresh one holds, and the
    toggled layer's [isVisible] is the negation of what it was. *)
Theorem snapshot_shares_layer_objects (m : Manager) (i : string) (r : ref) :
  layers_get m i = Some r ->
  is_Some (objects m !! r) ->
  let snapshot := getLayers m in
  let m' := (toggleLayer i m).2 in
  getLayers m' = snapshot
  /\ read m' snapshot = read m' (getLayers m')
  /\ visible_at m' r = negb (visible_at m r).
Proof.
  intros Hr Hl snapshot m'.
  assert (Hsame : getLayers m' = snapshot) by apply getLayers_toggleLayer.
  split; [exact Hsame|]. split; [rewrite Hsame; reflexivity|].
  subst m'. unfold toggleLayer. rewrite Hr. simpl.
  destruct Hl as [l Hl].
  unfold visible_at, notifyListeners, assign; simpl.
  rewrite lookup_alter_eq, Hl. reflexivity.
Qed.

Lemma snapshot_shares_layer_objects_witness :
  let snapshot := getLayers new_manager in
  let m' := (toggleLayer "indice_riesgo" new_manager).2 in
  getLayers m' = snapshot
  /\ read m' snapshot = read m' (getLayers m')
  /\ visible_at m' 0 = negb (visible_at new_manager 0).
Proof.
  apply (snapshot_shares_layer_objects new_manager "indice_riesgo" 0).
  - vm_compute. reflexivity.
  - vm_compute. eexists. reflexivity.
Defined.

(** With [indice_riesgo], which is visible from the start,
    [setLayerVisibility(id, true)] calls no listener: there is no single
    call of the subscribed listener. *)
Lemma setVisibility_true_on_visible_layer :
  "indice_riesgo" ∈ layer_ids
  /\ calls_to 0 (setLayerVisibility "indice_riesgo" true
                   (subscribe 0 new_manager)).2 = []
  /\ ~ (exists c,
          calls_to 0 (setLayerVisibility "indice_riesgo" true
                        (subscribe 0 new_manager)).2 = [c]
          /\ visible_in (seen c) "indice_riesgo" = Some true).
Proof.
  split; [left|]. split; [vm_compute; reflexivity|].
  intros [c [Hc _]]. vm_compute in Hc. discriminate.
Qed.

(** The single call of a listener [L] in a log computed with [L] left
    open. *)
Ltac one_call :=
  eexists; unfold calls_to; split;
  [ vm_compute; rewrite Nat.eqb_refl; reflexivity
  | vm_compute; reflexivity ].

(** C6 (amended).  From the initial state, subscribing a listener and
    calling [setLayerVisibility(id, true)] once calls that listener exactly
    once, with a snapshot showing layer [id] visible, for every configured
    id except [indice_riesgo]; that layer is visible initially, the call
    changes nothing and the listener is not called. *)
Theorem setVisibility_notifies_once (L : listener) (i : string) :
  i ∈ layer_ids ->
  let m := (setLayerVisibility i true (subscribe L new_manager)).2 in
  if String.eqb i "indice_riesgo" then calls_to L m = []
  else exists c, calls_to L m = [c] /\ visible_in (seen c) i = Some true.
Proof.
  intros Hi m. subst m.
  assert (Hsub : subscribe L new_manager
                 = {| objects := objects new_manager;
                      layers := layers new_manager;
                      listeners := [L]; calls := [] |}) by reflexivity.
  rewrite Hsub. clear Hsub.
  unfold layer_ids in Hi. simpl in Hi.
  repeat (apply elem_of_cons in Hi as [->|Hi]);
    [ vm_compute; reflexivity | one_call .. | ].
  apply elem_of_nil in Hi. contradiction.
Qed.

Lemma setVisibility_notifies_once_witness :
  exists c,
    calls_to 7 (setLayerVisibility "homicidios" true
                  (subscribe 7 new_manager)).2 = [c]
    /\ visible_in (seen c) "homicidios" = Some true.
Proof.
  apply (setVisibility_notifies_once 7 "homicidios").
  apply (bool_decide_unpack _). vm_compute. exact I.
Defined.

(** In any state, [setLayerVisibility] broadcasts exactly when it changes
    the flag, and its broadcast reaches a listener registered once exactly
    once. *)
Lemma setLayerVisibility_calls (L : listener) (i : string) (visible : bool)
    (m : Manager) (r : ref) :
  layers_get m i = Some r ->
  List.filter (fun l => Nat.eqb l L) (listeners m) = [L] ->
  let m' := (setLayerVisibility i visible m).2 in
  if Bool.eqb (visible_at m r) visible
  then calls_to L m' = calls_to L m
  else exists c, calls_to L m' = calls_to L m ++ [c] /\ callee c = L.
Proof.
  intros Hr HL m'. subst m'. unfold setLayerVisibility. rewrite Hr.
  destruct (Bool.eqb (visible_at m r) visible); simpl; [reflexivity|].
  rewrite calls_to_notifyListeners. simpl. rewrite HL. simpl.
  eexists. split; reflexivity.
Qed.

End StoreFacts.

(** ** The choropleth mapping: the no-data sentinel *)

Section ChoroplethFacts.
Import Js DataLoader DataJoiner.
Context {T : Type}.

(** A feature that carries another code leaves the entry of [c] in
    [valueMap] alone. *)
Lemma collect_other_code (valueExtractor : T -> Q) (missing : Q)
    (fs : list (EnhancedMunicipalityFeature T)) (c : string)
    (acc : list Q * gmap string Q) :
  Forall (fun f => e_cvegeo (e_properties f) <> c) fs ->
  (foldl (collect valueExtractor missing) acc fs).2 !! c = acc.2 !! c.
Proof.
  intros Hfs. revert acc.
  induction Hfs as [|f fs Hf _ IH]; intros acc; [reflexivity|].
  simpl. rewrite IH. unfold collect.
  destruct (hasData (e_properties f)), (data (e_properties f)); simpl;
    apply lookup_insert_ne; exact Hf.
Qed.

(** The entry of a feature with data, when no later feature carries its
    code, is its extracted value. *)
Lemma valueMap_of_last (valueExtractor : T -> Q) (missing : Q)
    (g : EnhancedMunicipalitiesGeoJSON T)
    (before after : list (EnhancedMunicipalityFeature T))
    (f : EnhancedMunicipalityFeature T) (d : T) :
  e_features g = before ++ f :: after ->
  hasData (e_properties f) = true ->
  data (e_properties f) = Some d ->
  Forall (fun f' => e_cvegeo (e_properties f') <> e_cvegeo (e_properties f))
         after ->
  (extract_values valueExtractor missing g).2 !! e_cvegeo (e_properties f)
  = Some (valueExtractor d).
Proof.
  intros Hg Hhas Hdata Hafter. unfold extract_values.
  rewrite Hg, foldl_app. simpl.
  rewrite collect_other_code by exact Hafter.
  unfold collect at 1. rewrite Hhas, Hdata. simpl.
  apply lookup_insert_eq.
Qed.

(** C10 (amended).  A feature with data whose extracted value equals the
    configured [missingDataValue] (0 by default) gets [noDataColor] from
    the returned function, provided no later feature of the collection
    carries the same code: the function is keyed by code, and the last
    feature with a code decides its value. *)
Theorem sentinel_value_reads_as_no_data
    (g : EnhancedMunicipalitiesGeoJSON T) (valueExtractor : T -> Q)
    (colorScale : list string) (options : ChoroplethOptions)
    (before after : list (EnhancedMunicipalityFeature T))
    (f : EnhancedMunicipalityFeature T) (d : T) :
  e_features g = before ++ f :: after ->
  hasData (e_properties f) = true ->
  data (e_properties f) = Some d ->
  (valueExtractor d == default 0 (missingDataValue options))%Q ->
  Forall (fun f' => e_cvegeo (e_properties f') <> e_cvegeo (e_properties f))
         after ->
  createChoroplethMapping g valueExtractor colorScale options
    (e_cvegeo (e_properties f))
  = Some (default "#cccccc" (noDataColor options)).
Proof.
  intros Hg Hhas Hdata Hval Hafter.
  pose proof (valueMap_of_last valueExtractor
                (default 0%Q (missingDataValue options))
                g before after f d Hg Hhas Hdata Hafter) as Hmap.
  unfold createChoroplethMapping.
  destruct (extract_values valueExtractor
              (default 0%Q (missingDataValue options)) g)
    as [values valueMap].
  simpl in Hmap. destruct values as [|v vs]; [reflexivity|].
  rewrite Hmap.
  apply Qeq_bool_iff in Hval. rewrite Hval. reflexivity.
Qed.

End ChoroplethFacts.

Section ChoroplethExamples.
Import Js DataLoader DataJoiner Scenarios.

(** Two features carry the code ["11001"]; the first has data with the
    value 0, the default [missingDataValue], yet the returned function
    gives its code the color of the top bin, not [noDataColor]. *)
Lemma sentinel_value_with_repeated_code :
  let f := joined "11001" (risk "11001" 0) in
  f ∈ e_features repeated_code
  /\ hasData (e_properties f) = true
  /\ (indice <$> data (e_properties f)) = Some 0%Q
  /\ createChoroplethMapping repeated_code indice five_colors
       no_choropleth_options (e_cvegeo (e_properties f))
     = Some "#003366"
  /\ createChoroplethMapping repeated_code indice five_colors
       no_choropleth_options (e_cvegeo (e_properties f))
     <> Some "#cccccc".
Proof.
  intros f. subst f.
  split; [left|]. split; [reflexivity|]. split; [reflexivity|].
  split; [vm_compute; reflexivity|].
  intros Heq. vm_compute in Heq. discriminate.
Qed.

Lemma sentinel_value_reads_as_no_data_witness :
  createChoroplethMapping (with_values [7; 0; 9]%Q) indice five_colors
    no_choropleth_options "11002"
  = Some "#cccccc".
Proof.
  apply (sentinel_value_reads_as_no_data (with_values [7; 0; 9]%Q) indice
           five_colors no_choropleth_options
           [joined "11001" (risk "11001" 7)]
           [joined "11003" (risk "11003" 9)]
           (joined "11002" (risk "11002" 0)) (risk "11002" 0)).
  - reflexivity.
  - reflexivity.
  - reflexivity.
  - reflexivity.
  - repeat constructor. vm_compute. discriminate.
Defined.

End ChoroplethExamples.

(** ** The choropleth mapping: the breaks *)

Section SortFacts.
Import Js DataJoiner.

Lemma Qle_bool_false_le (x y : Q) : Qle_bool x y = false -> (y <= x)%Q.
Proof.
  intros Hxy. apply Qlt_le_weak, Qnot_le_lt. intros Hle.
  apply Qle_bool_iff in Hle. congruence.
Qed.

(** [sort_numbers] is an insertion sort: it keeps every element, and its
    result ascends. *)
Lemma insert_number_Forall (P : Q -> Prop) (x : Q) (l : list Q) :
  P x -> Forall P l -> Forall P (insert_number x l).
Proof.
  intros Hx Hl. induction Hl as [|y l Hy Hl IH]; simpl.
  - repeat constructor. exact Hx.
  - destruct (Qle_bool y x); repeat constructor; assumption.
Qed.

Lemma insert_number_length (x : Q) (l : list Q) :
  length (insert_number x l) = S (length l).
Proof.
  induction l as [|y l IH]; simpl; [reflexivity|].
  destruct (Qle_bool y x); simpl; [rewrite IH|]; reflexivity.
Qed.

Lemma insert_number_sorted (x : Q) (l : list Q) :
  StronglySorted Qle l -> StronglySorted Qle (insert_number x l).
Proof.
  intros Hl. induction Hl as [|y l Hl IH Hy]; simpl.
  - repeat constructor.
  - destruct (Qle_bool y x) eqn:Hyx.
    + constructor; [exact IH|].
      apply insert_number_Forall; [|exact Hy].
      apply Qle_bool_iff. exact Hyx.
    + assert (Hxy : (x <= y)%Q) by apply Qle_bool_false_le, Hyx.
      constructor; [constructor; assumption|].
      constructor; [exact Hxy|].
      eapply Forall_impl; [exact Hy|].
      intros z Hz. simpl in Hz. eapply Qle_trans; eassumption.
Qed.

Lemma sort_fold_invariant (P : list Q -> Prop) (values acc : list Q) :
  P acc -> (forall x l, P l -> P (insert_number x l)) ->
  P (foldl (fun acc x => insert_number x acc) acc values).
Proof.
  intros Hacc Hstep. revert acc Hacc.
  induction values as [|x values IH]; intros acc Hacc; simpl; [exact Hacc|].
  apply IH, Hstep, Hacc.
Qed.

Lemma sort_numbers_sorted (values : list Q) :
  StronglySorted Qle (sort_numbers values).
Proof.
  unfold sort_numbers.
  apply (sort_fold_invariant (StronglySorted Qle)); [constructor|].
  intros x l. apply insert_number_sorted.
Qed.

Lemma sort_numbers_length (values : list Q) :
  length (sort_numbers values) = length values.
Proof.
  unfold sort_numbers.
  assert (Hgen : forall acc,
             length (foldl (fun acc x => insert_number x acc) acc values)
             = (length acc + length values)%nat).
  { induction values as [|x values IH]; intros acc; simpl; [lia|].
    rewrite IH, insert_number_length. lia. }
  apply Hgen.
Qed.

Lemma sort_numbers_Forall (P : Q -> Prop) (values : list Q) :
  Forall P values -> Forall P (sort_numbers values).
Proof.
  intros Hall. unfold sort_numbers.
  assert (Hgen : forall acc, Forall P acc ->
             Forall P (foldl (fun acc x => insert_number x acc) acc values)).
  { induction Hall as [|x values Hx _ IH]; intros acc Hacc; simpl;
      [exact Hacc|].
    apply IH, insert_number_Forall; assumption. }
  apply Hgen. constructor.
Qed.

(** In an ascending array, a later entry is not smaller. *)
Lemma sorted_nth_error (l : list Q) (i j : nat) (a b : Q) :
  StronglySorted Qle l -> (i <= j)%nat ->
  nth_error l i = Some a -> nth_error l j = Some b -> (a <= b)%Q.
Proof.
  intros Hl. revert i j.
  induction Hl as [|y l Hl IH Hy]; intros i j Hij Hi Hj.
  - destruct i; discriminate.
  - destruct i as [|i], j as [|j]; simpl in *.
    + injection Hi as <-. injection Hj as <-. apply Qle_refl.
    + injection Hi as <-.
      rewrite List.Forall_forall in Hy. apply Hy.
      eapply nth_error_In. exact Hj.
    + lia.
    + apply (IH i j); [lia|assumption..].
Qed.

End SortFacts.

Section QuintileFacts.
Import Js DataJoiner.

(** Where no value is at once zero and above the minimum, [values[i] ||
    values[0]] is [values[i]] up to equality of numbers. *)
Lemma index_or_in_range (values : list Q) (i : nat) (s0 si : Q) :
  StronglySorted Qle values ->
  Forall (fun x => 0 <= x)%Q values \/ Forall (fun x => ~ x == 0)%Q values ->
  nth_error values 0 = Some s0 ->
  nth_error values i = Some si ->
  (index_or values i s0 == si)%Q.
Proof.
  intros Hsorted Hvalues H0 Hi. unfold index_or. rewrite Hi.
  destruct (Qeq_bool si 0) eqn:Hzero; [|reflexivity].
  apply Qeq_bool_iff in Hzero.
  destruct Hvalues as [Hnonneg|Hnonzero].
  - rewrite List.Forall_forall in Hnonneg.
    assert (0 <= s0)%Q by (eapply Hnonneg, nth_error_In; exact H0).
    assert (s0 <= si)%Q
      by (eapply (sorted_nth_error values 0 i); eauto; lia).
    apply Qle_antisym; [assumption|]. rewrite Hzero. assumption.
  - rewrite List.Forall_forall in Hnonzero.
    exfalso. eapply Hnonzero; [eapply nth_error_In; exact Hi|exact Hzero].
Qed.

(** The breaks of the quintiles branch never decrease when no value is
    negative, and when no value is zero. *)
Lemma quintile_breaks_nondecreasing (v : Q) (vs : list Q) :
  Forall (fun x => 0 <= x)%Q (v :: vs)
  \/ Forall (fun x => ~ x == 0)%Q (v :: vs) ->
  nondecreasing (quintile_breaks v vs) = true.
Proof.
  intros Hvalues. unfold quintile_breaks.
  set (values := sort_numbers (v :: vs)).
  assert (Hsorted : StronglySorted Qle values) by apply sort_numbers_sorted.
  assert (Hlen : length values = S (length vs))
    by (unfold values; rewrite sort_numbers_length; reflexivity).
  assert (Hvalues' : Forall (fun x => 0 <= x)%Q values
                     \/ Forall (fun x => ~ x == 0)%Q values).
  { destruct Hvalues; [left|right]; apply sort_numbers_Forall; assumption. }
  set (q := (length values / 5)%nat).
  assert (Hq : (q * 4 < length values)%nat).
  { pose proof (Nat.div_mod_eq (length values) 5).
    pose proof (Nat.mod_upper_bound (length values) 5). subst q. lia. }
  assert (Hget : forall i, (i < length values)%nat ->
                   exists s, nth_error values i = Some s).
  { intros i Hi. destruct (nth_error values i) eqn:E; [eauto|].
    apply nth_error_None in E. lia. }
  destruct (Hget 0%nat) as [s0 H0]; [lia|].
  destruct (Hget q) as [s1 H1]; [lia|].
  destruct (Hget (q * 2)%nat) as [s2 H2]; [lia|].
  destruct (Hget (q * 3)%nat) as [s3 H3]; [lia|].
  destruct (Hget (q * 4)%nat) as [s4 H4]; [lia|].
  destruct (Hget (length values - 1)%nat) as [s5 H5]; [lia|].
  rewrite (nth_error_nth values 0 v H0).
  rewrite (nth_error_nth values _ v H5).
  pose proof (index_or_in_range values q s0 s1 Hsorted Hvalues' H0 H1) as E1.
  pose proof (index_or_in_range values _ s0 s2 Hsorted Hvalues' H0 H2) as E2.
  pose proof (index_or_in_range values _ s0 s3 Hsorted Hvalues' H0 H3) as E3.
  pose proof (index_or_in_range values _ s0 s4 Hsorted Hvalues' H0 H4) as E4.
  assert (L01 : (s0 <= s1)%Q) by (eapply (sorted_nth_error values 0 q); eauto; lia).
  assert (L12 : (s1 <= s2)%Q) by (eapply (sorted_nth_error values q (q * 2)); eauto; lia).
  assert (L23 : (s2 <= s3)%Q) by (eapply (sorted_nth_error values (q * 2) (q * 3)); eauto; lia).
  assert (L34 : (s3 <= s4)%Q) by (eapply (sorted_nth_error values (q * 3) (q * 4)); eauto; lia).
  assert (L45 : (s4 <= s5)%Q) by (eapply (sorted_nth_error values (q * 4) (length values - 1)); eauto; lia).
  simpl. unfold leb, geb.
  repeat (apply andb_true_intro; split); try reflexivity;
    apply Qle_bool_iff; rewrite ?E1, ?E2, ?E3, ?E4; assumption.
Qed.

End QuintileFacts.

Section IntervalFacts.
Import Js DataJoiner.

Lemma min_of_le (v : Q) (vs : list Q) : (min_of v vs <= v)%Q.
Proof.
  unfold min_of. revert v.
  induction vs as [|x vs IH]; intros v; simpl; [apply Qle_refl|].
  destruct (Qle_bool v x) eqn:Hvx; [apply IH|].
  eapply Qle_trans; [apply IH|]. apply Qle_bool_false_le, Hvx.
Qed.

Lemma max_of_ge (v : Q) (vs : list Q) : (v <= max_of v vs)%Q.
Proof.
  unfold max_of. revert v.
  induction vs as [|x vs IH]; intros v; simpl; [apply Qle_refl|].
  destruct (Qle_bool x v) eqn:Hxv; [apply IH|].
  eapply Qle_trans; [|apply IH]. apply Qle_bool_false_le, Hxv.
Qed.

Lemma nondecreasing_cons (a b : jsnum) (l : list jsnum) :
  nondecreasing (a :: b :: l) = leb a b && nondecreasing (b :: l).
Proof. reflexivity. Qed.

(** Equally spaced numbers with a step that is not negative. *)
Lemma steps_nondecreasing (lo w : Q) (start len : nat) :
  (0 <= w)%Q ->
  nondecreasing
    (map (fun i => add (Fin lo) (mul (Fin w) (of_nat i))) (seq start len))
  = true.
Proof.
  intros Hw. revert start.
  induction len as [|len IH]; intros start; [reflexivity|].
  destruct len as [|len]; [reflexivity|].
  specialize (IH (S start)). cbn [seq map] in *.
  rewrite nondecreasing_cons, IH, andb_true_r.
  unfold leb, geb, add, mul, of_nat. apply Qle_bool_iff.
  apply Qplus_le_r. rewrite !(Qmult_comm w).
  apply Qmult_le_compat_r; [|exact Hw].
  rewrite <- Zle_Qle. lia.
Qed.

(** The breaks of the equal-interval branch never decrease, for any values
    and any number of colors. *)
Lemma interval_breaks_nondecreasing (v : Q) (vs : list Q) (colors : nat) :
  nondecreasing (interval_breaks v vs colors) = true.
Proof.
  unfold interval_breaks.
  destruct colors as [|[|colors]]; [reflexivity..|].
  set (d := inject_Z (Z.of_nat (S (S colors)) - 1)).
  assert (Hd : (0 < d)%Q).
  { unfold d. change 0%Q with (inject_Z 0). rewrite <- Zlt_Qlt. lia. }
  assert (Hrange : (0 <= max_of v vs - min_of v vs)%Q).
  { pose proof (min_of_le v vs). pose proof (max_of_ge v vs).
    apply (Qplus_le_l _ _ (min_of v vs)). ring_simplify.
    eapply Qle_trans; eassumption. }
  unfold div.
  destruct (Qeq_bool d 0) eqn:Hzero.
  - apply Qeq_bool_iff in Hzero. rewrite Hzero in Hd.
    exfalso. exact (Qlt_irrefl 0 Hd).
  - apply steps_nondecreasing.
    apply Qmult_le_0_compat; [exact Hrange|].
    apply Qinv_le_0_compat, Qlt_le_weak, Hd.
Qed.

End IntervalFacts.

Section BreaksFacts.
Import Js DataJoiner.
Context {T : Type}.

(** The breaks of [createChoroplethMapping] never decrease with a method
    other than quintiles, and with quintiles when no extracted value is
    negative or no extracted value is zero. *)
Lemma choropleth_breaks_nondecreasing
    (g : EnhancedMunicipalitiesGeoJSON T) (valueExtractor : T -> Q)
    (colorScale : list string) (options : ChoroplethOptions)
    (breaks : list jsnum) :
  let values :=
    (extract_values valueExtractor (default 0%Q (missingDataValue options))
                    g).1 in
  choropleth_breaks g valueExtractor colorScale options = Some breaks ->
  default quintiles (method options) <> quintiles
  \/ Forall (fun x => 0 <= x)%Q values
  \/ Forall (fun x => ~ x == 0)%Q values ->
  nondecreasing breaks = true.
Proof.
  intros values. subst values. unfold choropleth_breaks.
  destruct (extract_values _ _ g).1 as [|v vs]; [discriminate|].
  intros [= <-] Hcase. unfold compute_breaks.
  destruct (default quintiles (method options)).
  - apply quintile_breaks_nondecreasing.
    destruct Hcase as [Hne|Hcase]; [contradiction|exact Hcase].
  - apply interval_breaks_nondecreasing.
  - apply interval_breaks_nondecreasing.
Qed.

End BreaksFacts.

Section BreaksExamples.
Import Js DataLoader DataJoiner Scenarios.

(** C2, on the values -5, -3, 0, 1, 2 with the quintiles method.  The
    sorted array holds 0 at index 2; [values[2] || values[0]] takes it for
    a missing entry and puts the minimum -5 in its place, after the break
    -3: the computed breaks are -5, -3, -5, 1, 2, 2, which decrease from
    the second to the third. *)
Theorem quintile_breaks_decrease_at_zero :
  choropleth_breaks signed_values indice five_colors no_choropleth_options
    = Some (Fin <$> [-5; -3; -5; 1; 2; 2]%Q)
  /\ nondecreasing (Fin <$> [-5; -3; -5; 1; 2; 2]%Q) = false.
Proof. split; vm_compute; reflexivity. Qed.

End BreaksExamples.

(** ** The alignment ratio *)

Section AlignmentFacts.
Import Js DataLoader.
Context {A : Type} `{EqDecision A}.

(** Adding an element that a set does not hold appends it. *)
Lemma set_add_fresh (s : list A) (x : A) : x ∉ s -> set_add s x = s ++ [x].
Proof.
  intros Hx. unfold set_add, set_has.
  rewrite bool_decide_eq_false_2 by exact Hx. reflexivity.
Qed.

(** On a set, the first loop of [validateMunicipalityAlignment] collects in
    [matching] the data codes that the geometry has, in order. *)
Lemma matching_fold (geo data : list A) (acc : list A * list A) :
  NoDup data ->
  (forall x, x ∈ data -> x ∉ acc.1) ->
  (foldl (fun acc code =>
            if set_has geo code
            then (set_add acc.1 code, acc.2)
            else (acc.1, set_add acc.2 code)) acc data).1
  = acc.1 ++ List.filter (set_has geo) data.
Proof.
  intros Hdata. revert acc.
  induction Hdata as [|x data Hx Hdata IH]; intros acc Hacc; simpl.
  - rewrite app_nil_r. reflexivity.
  - destruct (set_has geo x) eqn:Hgeo.
    + rewrite IH; simpl.
      * rewrite set_add_fresh by (apply Hacc; left).
        rewrite <- app_assoc. reflexivity.
      * intros y Hy. rewrite set_add_fresh by (apply Hacc; left).
        rewrite elem_of_app, list_elem_of_singleton.
        intros [Hin| ->]; [|contradiction].
        revert Hin. apply Hacc. right. exact Hy.
    + rewrite IH; simpl; [reflexivity|].
      intros y Hy. apply Hacc. right. exact Hy.
Qed.

Lemma matching_is_filter (geo data : list A) :
  NoDup data ->
  matching (validateMunicipalityAlignment geo data)
  = List.filter (set_has geo) data.
Proof.
  intros Hdata. unfold validateMunicipalityAlignment.
  pose proof (matching_fold geo data ([], []) Hdata) as Hfold.
  destruct (foldl _ _ data) as [m g] eqn:E. simpl in *.
  apply Hfold. intros x _. apply not_elem_of_nil.
Qed.

Lemma alignmentRatio_eq (geo data : list A) :
  alignmentRatio (validateMunicipalityAlignment geo data)
  = div (of_nat (length (matching (validateMunicipalityAlignment geo data))))
        (of_nat (max_nat (length geo) (length data))).
Proof.
  unfold validateMunicipalityAlignment.
  destruct (foldl _ _ data) as [m g]. reflexivity.
Qed.

(** A count over a positive total that bounds it, as a ratio. *)
Lemma ratio_of_counts (m total : nat) :
  (0 < total)%nat -> (m <= total)%nat ->
  exists q, div (of_nat m) (of_nat total) = Fin q
            /\ (0 <= q)%Q /\ (q <= 1)%Q /\ ((q == 1)%Q <-> m = total).
Proof.
  intros Htotal Hm. unfold div, of_nat.
  set (x := inject_Z (Z.of_nat m)). set (y := inject_Z (Z.of_nat total)).
  assert (Hy : (0 < y)%Q).
  { unfold y. change 0%Q with (inject_Z 0). rewrite <- Zlt_Qlt. lia. }
  assert (Hx : (0 <= x)%Q).
  { unfold x. change 0%Q with (inject_Z 0). rewrite <- Zle_Qle. lia. }
  assert (Hxy : (x <= y)%Q) by (unfold x, y; rewrite <- Zle_Qle; lia).
  assert (Hy0 : ~ (y == 0)%Q).
  { intros E. rewrite E in Hy. exact (Qlt_irrefl 0 Hy). }
  destruct (Qeq_bool y 0) eqn:Hzero;
    [apply Qeq_bool_iff in Hzero; contradiction|].
  exists (x / y)%Q. split; [reflexivity|]. split; [|split].
  - apply Qmult_le_0_compat; [exact Hx|].
    apply Qinv_le_0_compat, Qlt_le_weak, Hy.
  - apply Qle_shift_div_r; [exact Hy|]. rewrite Qmult_1_l. exact Hxy.
  - split.
    + intros E.
      assert (Exy : (x == y)%Q).
      { rewrite <- (Qmult_div_r x y Hy0), E, Qmult_1_r. reflexivity. }
      unfold x, y in Exy. apply (proj1 (inject_Z_injective _ _)) in Exy. lia.
    + intros ->. apply Qmult_inv_r. exact Hy0.
Qed.

(** A filter keeps the whole array exactly when every element passes. *)
Lemma filter_all (f : A -> bool) (l : list A) :
  length (List.filter f l) = length l <-> (forall x, x ∈ l -> f x = true).
Proof.
  split.
  - intros Hlen x Hx. apply filter_length_forallb in Hlen.
    rewrite forallb_forall in Hlen. apply Hlen, list_elem_of_In, Hx.
  - intros Hall. rewrite forallb_filter_id; [reflexivity|].
    apply forallb_forall. intros x Hx. apply Hall, list_elem_of_In, Hx.
Qed.

(** For two sets that are not both empty, [alignmentRatio] is a number
    between 0 and 1, and it is 1 exactly when the sets have the same
    elements. *)
Lemma alignmentRatio_of_sets (geo data : list A) :
  NoDup geo -> NoDup data -> geo <> [] \/ data <> [] ->
  exists q,
    alignmentRatio (validateMunicipalityAlignment geo data) = Fin q
    /\ (0 <= q)%Q /\ (q <= 1)%Q
    /\ ((q == 1)%Q <-> forall x, x ∈ geo <-> x ∈ data).
Proof.
  intros Hgeo Hdata Hne.
  rewrite alignmentRatio_eq, matching_is_filter by exact Hdata.
  set (m := length (List.filter (set_has geo) data)).
  set (total := max_nat (length geo) (length data)).
  assert (Hm : (m <= length data)%nat) by apply filter_length_le.
  assert (Htotal : (0 < total)%nat).
  { unfold total, max_nat.
    destruct Hne as [Hne|Hne]; [destruct geo|destruct data];
      try contradiction; simpl; lia. }
  destruct (ratio_of_counts m total Htotal) as (q & Hq & Hlo & Hhi & Hone).
  { unfold total, max_nat. lia. }
  exists q. split; [exact Hq|]. split; [exact Hlo|]. split; [exact Hhi|].
  rewrite Hone. unfold total, max_nat. split.
  - intros E.
    assert (Hall : forall x, x ∈ data -> x ∈ geo).
    { intros x Hx.
      assert (Hlen : length (List.filter (set_has geo) data) = length data)
        by (fold m; lia).
      apply (proj1 (filter_all _ _) Hlen) in Hx.
      apply bool_decide_eq_true in Hx. exact Hx. }
    assert (Hback : incl geo data).
    { apply (NoDup_length_incl (proj1 (NoDup_ListNoDup _) Hdata)); [lia|].
      intros x Hx. apply list_elem_of_In, Hall, list_elem_of_In, Hx. }
    intros x. split; [|apply Hall].
    intros Hx. apply list_elem_of_In, Hback, list_elem_of_In, Hx.
  - intros Hsame.
    assert (Hlen : m = length data).
    { apply filter_all. intros x Hx. apply bool_decide_eq_true, Hsame, Hx. }
    assert (length geo <= length data)%nat.
    { apply NoDup_incl_length; [apply NoDup_ListNoDup, Hgeo|].
      intros x Hx. apply list_elem_of_In, Hsame, list_elem_of_In, Hx. }
    lia.
Qed.

End AlignmentFacts.

Section CodeAlignmentFacts.
Import Js MunicipalityCodes.

(** The crosswalk is injective: whatever code has a data code is the code
    that data code maps back to. *)
Lemma geoCode_of_dataCode (c : Z) (d : string) :
  geoCodeToDataCode c = Some d -> dataCodeToGeoCode d = Some c.
Proof.
  unfold geoCodeToDataCode, GUANAJUATO_MUNICIPALITIES. intros Hd.
  destruct (list_to_map GUANAJUATO_ENTRIES !! c) as [info|] eqn:Hinfo;
    [|discriminate].
  injection Hd as <-.
  apply elem_of_list_to_map_2 in Hinfo.
  assert (Hall : Forall (fun e => dataCodeToGeoCode (dataCode e.2) = Some e.1)
                        GUANAJUATO_ENTRIES).
  { apply (bool_decide_unpack _). vm_compute. exact I. }
  rewrite Forall_forall in Hall. apply (Hall (c, info) Hinfo).
Qed.

(** No data code of the table is the empty string. *)
Lemma dataCode_not_empty (c : Z) (d : string) :
  geoCodeToDataCode c = Some d -> truthy_str (Some d) = true.
Proof.
  intros Hd. apply geoCode_of_dataCode in Hd.
  unfold truthy_str. destruct (String.eqb d "") eqn:E; [|reflexivity].
  apply String.eqb_eq in E. subst d. vm_compute in Hd. discriminate.
Qed.

(** [new Set(array)] has the elements of the array. *)
Lemma set_of_elem {A} `{EqDecision A} (xs : list A) (x : A) :
  x ∈ set_of xs <-> x ∈ xs.
Proof.
  unfold set_of.
  assert (Hgen : forall acc, x ∈ foldl set_add acc xs <-> x ∈ acc \/ x ∈ xs).
  { induction xs as [|y xs IH]; intros acc; simpl.
    - rewrite elem_of_nil. tauto.
    - rewrite IH, elem_of_cons. unfold set_add, set_has.
      destruct (bool_decide (y ∈ acc)) eqn:E.
      + apply bool_decide_eq_true in E.
        split; [tauto|]. intros [H|[->|H]]; tauto.
      + rewrite elem_of_app, list_elem_of_singleton. tauto. }
  rewrite Hgen, elem_of_nil. tauto.
Qed.

Local Opaque geoCodeToDataCode getMunicipalityByGeoCode dataCodeToGeoCode.

(** The first loop of [validateCodeAlignment] adds to [matched] one entry
    per geometry code whose data code the data has. *)
Lemma matched_fold (dataSet : list string) (geo : list Z)
    (acc : list Matched * list MissingInData) :
  length (foldl (check_geo_code dataSet) acc geo).1
  = (length acc.1 + length (List.filter (has_data dataSet) geo))%nat.
Proof.
  revert acc. induction geo as [|c geo IH]; intros acc; [simpl; lia|].
  cbn [foldl List.filter]. rewrite IH. unfold check_geo_code, has_data.
  destruct (geoCodeToDataCode c) as [d|] eqn:Hd; [|cbn [fst]; lia].
  rewrite (dataCode_not_empty c d Hd). cbn [andb].
  destruct (set_has dataSet d); cbn [fst length];
    rewrite ?length_app; cbn [length]; lia.
Qed.

Lemma codeAlignmentRatio_eq (geo : list Z) (data : list string) :
  alignmentRatio (validateCodeAlignment geo data)
  = div (of_nat (length (List.filter (has_data (set_of data)) geo)))
        (of_nat (max_nat (length geo) (length data))).
Proof.
  unfold validateCodeAlignment.
  pose proof (matched_fold (set_of data) geo ([], [])) as Hlen.
  destruct (foldl (check_geo_code (set_of data)) ([], []) geo) as [m g].
  cbn [alignmentRatio fst length Nat.add] in *. rewrite Hlen. reflexivity.
Qed.

(** The data codes of an array of distinct geometry codes are distinct. *)
Lemma dataCodes_NoDup (geo : list Z) :
  NoDup geo -> NoDup (omap geoCodeToDataCode geo).
Proof.
  induction 1 as [|c geo Hc Hgeo IH]; simpl; [constructor|].
  destruct (geoCodeToDataCode c) as [d|] eqn:Hd; [|exact IH].
  constructor; [|exact IH].
  rewrite list_elem_of_omap. intros (c' & Hc' & Hd').
  apply geoCode_of_dataCode in Hd, Hd'. congruence.
Qed.

(** For two arrays without repetitions that are not both empty, the ratio
    of [validateCodeAlignment] is a number between 0 and 1, and it is 1
    exactly when the data codes are the data codes of the geometry codes. *)
Lemma codeAlignmentRatio_of_sets (geo : list Z) (data : list string) :
  NoDup geo -> NoDup data -> geo <> [] \/ data <> [] ->
  exists q,
    alignmentRatio (validateCodeAlignment geo data) = Fin q
    /\ (0 <= q)%Q /\ (q <= 1)%Q
    /\ ((q == 1)%Q <->
        (forall c, c ∈ geo -> exists d, geoCodeToDataCode c = Some d /\ d ∈ data)
        /\ (forall d, d ∈ data ->
              exists c, c ∈ geo /\ geoCodeToDataCode c = Some d)).
Proof.
  intros Hgeo Hdata Hne. rewrite codeAlignmentRatio_eq.
  set (m := length (List.filter (has_data (set_of data)) geo)).
  set (total := max_nat (length geo) (length data)).
  assert (Hm : (m <= length geo)%nat) by apply filter_length_le.
  assert (Htotal : (0 < total)%nat).
  { unfold total, max_nat.
    destruct Hne as [Hne|Hne]; [destruct geo|destruct data];
      try contradiction; simpl; lia. }
  destruct (ratio_of_counts m total Htotal) as (q & Hq & Hlo & Hhi & Hone).
  { unfold total, max_nat. lia. }
  exists q. split; [exact Hq|]. split; [exact Hlo|]. split; [exact Hhi|].
  rewrite Hone. unfold total, max_nat.
  assert (Hpass : forall c, has_data (set_of data) c = true <->
                    exists d, geoCodeToDataCode c = Some d /\ d ∈ data).
  { intros c. unfold has_data, set_has.
    destruct (geoCodeToDataCode c) as [d|].
    - rewrite bool_decide_eq_true, set_of_elem. split; [eauto|].
      intros (d' & [= <-] & Hd). exact Hd.
    - split; [discriminate|]. intros (d' & [=] & _). }
  assert (Hall : m = length geo <->
            forall c, c ∈ geo ->
              exists d, geoCodeToDataCode c = Some d /\ d ∈ data).
  { unfold m. rewrite filter_all. split; intros H c Hc; apply Hpass, H, Hc. }
  assert (Himage : (forall c, c ∈ geo ->
              exists d, geoCodeToDataCode c = Some d /\ d ∈ data) ->
            length (omap geoCodeToDataCode geo) = length geo
            /\ incl (omap geoCodeToDataCode geo) data).
  { intros H. split.
    - clear -H. induction geo as [|c geo IH]; [reflexivity|]. simpl.
      destruct (H c) as (d & -> & _); [left|]. simpl. f_equal.
      apply IH. intros c' Hc'. apply H. right. exact Hc'.
    - intros d Hd. apply list_elem_of_In in Hd.
      apply list_elem_of_omap in Hd as (c & Hc & Hcd).
      destruct (H c Hc) as (d' & Hd' & Hin).
      apply list_elem_of_In. congruence. }
  pose proof (dataCodes_NoDup geo Hgeo) as Hnodup.
  apply NoDup_ListNoDup in Hnodup.
  split.
  - intros E. assert (Hm_all : m = length geo) by lia.
    pose proof (proj1 Hall Hm_all) as Hgeo_all. split; [exact Hgeo_all|].
    destruct (Himage Hgeo_all) as [Hlen Hincl].
    assert (Hback : incl data (omap geoCodeToDataCode geo)).
    { apply (NoDup_length_incl Hnodup); [lia|exact Hincl]. }
    intros d Hd. apply list_elem_of_In, Hback, list_elem_of_In in Hd.
    apply list_elem_of_omap in Hd. exact Hd.
  - intros [Hgeo_all Hdata_all].
    destruct (Himage Hgeo_all) as [Hlen Hincl].
    pose proof (proj2 Hall Hgeo_all) as Hm_all.
    assert (length data <= length (omap geoCodeToDataCode geo))%nat.
    { apply NoDup_incl_length; [apply NoDup_ListNoDup, Hdata|].
      intros d Hd. apply list_elem_of_In in Hd.
      apply list_elem_of_In, list_elem_of_omap, Hdata_all, Hd. }
    lia.
Qed.

End CodeAlignmentFacts.

Section AlignmentExamples.
Import Js GeoUtils DataLoader DataJoiner Scenarios.

(** C4, on empty inputs.  With no geometry code and no data code both
    validators divide 0 by [Math.max(0, 0)]: the ratio is NaN, which is
    neither at least 0 nor at most 1 (nor equal to 1, although the two
    sets are identical).  The join of an empty geometry collection with an
    empty data file reports this ratio as its [dataAlignment]. *)
Theorem alignmentRatio_of_empty_sets_is_NaN :
  alignmentRatio (validateMunicipalityAlignment ([] : list (option string)) [])
    = NaN
  /\ MunicipalityCodes.alignmentRatio
       (MunicipalityCodes.validateCodeAlignment [] []) = NaN
  /\ dataAlignment
       (e_metadata (joinDataWithGeometries "" no_features no_records
                                           no_join_options)) = NaN
  /\ leb (Fin 0) NaN = false
  /\ leb NaN (Fin 1) = false.
Proof. repeat split. Qed.

(** Scenario A: 46 geometry codes, of which the data has 40. *)
Example scenario_A_alignment :
  let geo := (fun c => MunicipalityCodes.dataCode c.2)
               <$> MunicipalityCodes.GUANAJUATO_ENTRIES in
  let report := validateMunicipalityAlignment geo (take 40 geo) in
  length (missingInData report) = 6%nat
  /\ length (matching report) = 40%nat
  /\ alignmentRatio report = Fin (40 / 46).
Proof. vm_compute. repeat split. Qed.

End AlignmentExamples.

(** ** The code crosswalk as a bijection *)

Section CrosswalkBijection.
Import MunicipalityCodes.

Lemma geoCode_defined_range (c : Z) (d : string) :
  geoCodeToDataCode c = Some d -> (1 <= c <= 46)%Z.
Proof.
  unfold geoCodeToDataCode, GUANAJUATO_MUNICIPALITIES. intros Hd.
  destruct (list_to_map GUANAJUATO_ENTRIES !! c) as [info|] eqn:Hinfo;
    [|discriminate].
  apply elem_of_list_to_map_2 in Hinfo.
  assert (Hkeys : Forall (fun e => (1 <= e.1 <= 46)%Z) GUANAJUATO_ENTRIES).
  { apply (bool_decide_unpack _). vm_compute. exact I. }
  rewrite Forall_forall in Hkeys. exact (Hkeys (c, info) Hinfo).
Qed.

Lemma dataCode_of_geoCode (c : Z) (d : string) :
  dataCodeToGeoCode d = Some c -> geoCodeToDataCode c = Some d.
Proof.
  unfold dataCodeToGeoCode, find_info. intros Hc.
  destruct (List.find _ municipality_values) as [info|] eqn:Hfind;
    [|discriminate].
  injection Hc as <-.
  apply find_some in Hfind as [Hin Heq].
  apply String.eqb_eq in Heq. subst d.
  assert (Hall : Forall (fun info => geoCodeToDataCode (geoJsonCode info)
                                     = Some (dataCode info))
                        municipality_values).
  { apply (bool_decide_unpack _). vm_compute. exact I. }
  rewrite Forall_forall in Hall. apply Hall, list_elem_of_In, Hin.
Qed.

(** X1.  The two conversions of the crosswalk are inverse to each other: a
    compact code converts to a data code exactly when that data code
    converts back to it.  The compact codes that convert are exactly 1 to
    46, which are also the codes [getMunicipalityByGeoCode] knows, and a
    data code converts exactly when [getMunicipalityByDataCode] finds
    it. *)
Theorem crosswalk_is_a_bijection (c : Z) (d : string) :
  (geoCodeToDataCode c = Some d <-> dataCodeToGeoCode d = Some c)
  /\ (is_Some (geoCodeToDataCode c) <-> (1 <= c <= 46)%Z)
  /\ (is_Some (getMunicipalityByGeoCode c) <-> (1 <= c <= 46)%Z)
  /\ (is_Some (dataCodeToGeoCode d)
      <-> is_Some (getMunicipalityByDataCode d)).
Proof.
  assert (Hdom : is_Some (geoCodeToDataCode c) <-> (1 <= c <= 46)%Z).
  { split.
    - intros [d' Hd']. exact (geoCode_defined_range c d' Hd').
    - intros Hc. pose proof (dataCode_inverts_geoCode c Hc) as Hinv.
      destruct (geoCodeToDataCode c); [eauto|discriminate]. }
  split; [split; [apply geoCode_of_dataCode|apply dataCode_of_geoCode]|].
  split; [exact Hdom|]. split.
  - rewrite <- Hdom. unfold geoCodeToDataCode, getMunicipalityByGeoCode.
    rewrite fmap_is_Some. reflexivity.
  - unfold dataCodeToGeoCode, getMunicipalityByDataCode.
    rewrite fmap_is_Some. reflexivity.
Qed.

Lemma geoToData_map_eq :
  createGeoToDataCodeMap = dataCode <$> GUANAJUATO_MUNICIPALITIES.
Proof. vm_compute. reflexivity. Qed.

Lemma dataToGeo_map_eq :
  createDataToGeoCodeMap
  = list_to_map ((fun info => (dataCode info, geoJsonCode info))
                   <$> municipality_values).
Proof. vm_compute. reflexivity. Qed.

(** X2.  The maps built by [createGeoToDataCodeMap] and
    [createDataToGeoCodeMap] answer every key, present or not, as
    [geoCodeToDataCode] and [dataCodeToGeoCode] do. *)
Theorem code_maps_agree_with_lookups (c : Z) (d : string) :
  createGeoToDataCodeMap !! c = geoCodeToDataCode c
  /\ createDataToGeoCodeMap !! d = dataCodeToGeoCode d.
Proof.
  split.
  - rewrite geoToData_map_eq, lookup_fmap. reflexivity.
  - destruct (dataCodeToGeoCode d) as [c'|] eqn:Hd.
    + apply dataCode_of_geoCode in Hd.
      pose proof (geoCode_defined_range c' d Hd) as Hrange.
      assert (Hall : Forall (fun c => forall d, geoCodeToDataCode c = Some d ->
                                 createDataToGeoCodeMap !! d = Some c)
                            (seqZ 1 46)).
      { rewrite Forall_forall. intros k Hk.
        assert (Hk' : Forall (fun k => createDataToGeoCodeMap
                                !! default "" (geoCodeToDataCode k) = Some k)
                        (seqZ 1 46)).
        { apply (bool_decide_unpack _). vm_compute. exact I. }
        rewrite Forall_forall in Hk'. intros d' Hd'.
        specialize (Hk' k Hk). rewrite Hd' in Hk'. exact Hk'. }
      rewrite Forall_forall in Hall. apply (Hall c'); [|exact Hd].
      apply elem_of_seqZ. lia.
    + rewrite dataToGeo_map_eq.
      apply not_elem_of_list_to_map_1. intros Hin.
      rewrite <- list_fmap_compose in Hin.
      apply list_elem_of_fmap in Hin as (info & -> & Hinfo).
      unfold dataCodeToGeoCode, find_info in Hd.
      destruct (List.find _ municipality_values) as [x|] eqn:Hfind;
        [discriminate|].
      apply list_elem_of_In in Hinfo.
      pose proof (find_none _ _ Hfind info Hinfo) as Hno.
      simpl in Hno. rewrite String.eqb_refl in Hno. discriminate.
Qed.

End CrosswalkBijection.

(** ** Loading the geometry: the codes written by the loader *)

Section LoadedFeatures.
Import MunicipalityCodes GeoUtils.

Lemma dataCode_format (c : Z) :
  (1 <= c <= 46)%Z ->
  geoCodeToDataCode c
  = Some (String.append "11" (Js.padStart0 3 (Js.toString c))).
Proof.
  intros Hc.
  assert (Hall : Forall (fun c => geoCodeToDataCode c
                   = Some (String.append "11" (Js.padStart0 3 (Js.toString c))))
                        (seqZ 1 46)).
  { apply (bool_decide_unpack _). vm_compute. exact I. }
  rewrite Forall_forall in Hall. apply Hall, elem_of_seqZ. lia.
Qed.

Lemma mapM_add_cvegeo_None (raw : list MunicipalityFeature) :
  mapM add_cvegeo raw = None
  <-> exists f, f ∈ raw /\ mun_code (properties f) = None.
Proof.
  rewrite mapM_None. unfold add_cvegeo. split.
  - intros Hex. apply Exists_exists in Hex as (f & Hf & Hnone).
    exists f. split; [exact Hf|].
    destruct (mun_code (properties f)); [discriminate|reflexivity].
  - intros (f & Hf & Hnone). apply Exists_exists. exists f.
    split; [exact Hf|]. rewrite Hnone. reflexivity.
Qed.

(** X3.  The enhancement step of [loadMunicipalitiesGeoJSON] throws exactly
    when some feature has no [mun_code].  Otherwise it keeps the number,
    the order and the geometry of the features, copies [mun_name] into
    [nombre], and for a municipal code from 1 to 46 the [cvegeo] it writes
    is the data code of the crosswalk. *)
Theorem loaded_features_carry_crosswalk_codes
    (raw : list MunicipalityFeature) :
  (enhanceFeatures raw = None
   <-> exists f, f ∈ raw /\ mun_code (properties f) = None)
  /\ (forall g, enhanceFeatures raw = Some g ->
        length (features g) = length raw
        /\ forall i f, features g !! i = Some f ->
             exists f0 c,
               raw !! i = Some f0
               /\ mun_code (properties f0) = Some c
               /\ geometry f = geometry f0
               /\ nombre (properties f) = mun_name (properties f0)
               /\ ((1 <= c <= 46)%Z ->
                   cvegeo (properties f) = geoCodeToDataCode c)).
Proof.
  unfold enhanceFeatures. split.
  - rewrite fmap_None. apply mapM_add_cvegeo_None.
  - intros g Hg. apply fmap_Some in Hg as (fs & Hfs & ->). simpl.
    split; [symmetry; eapply length_mapM; exact Hfs|].
    intros i f Hf.
    apply mapM_Some in Hfs.
    destruct (Forall2_lookup_r _ _ _ _ _ Hfs Hf) as (f0 & Hf0 & Hadd).
    unfold add_cvegeo in Hadd.
    destruct (mun_code (properties f0)) as [c|] eqn:Hc; [|discriminate].
    injection Hadd as <-. simpl.
    exists f0, c. repeat split; try assumption.
    intros Hrange. rewrite dataCode_format by exact Hrange. reflexivity.
Qed.

End LoadedFeatures.

(** ** The alignment report as a partition *)

Section AlignmentPartition.
Import Js DataLoader.
Context {A : Type} `{EqDecision A}.

(** On a set, a loop that adds to one of two sets by a test splits the set
    in two, in order. *)
Lemma split_fold (keep : A -> bool) (data : list A) (acc : list A * list A) :
  NoDup data ->
  (forall x, x ∈ data -> (x ∉ acc.1) /\ (x ∉ acc.2)) ->
  foldl (fun acc code =>
           if keep code
           then (set_add acc.1 code, acc.2)
           else (acc.1, set_add acc.2 code)) acc data
  = (acc.1 ++ List.filter keep data,
     acc.2 ++ List.filter (fun x => negb (keep x)) data).
Proof.
  intros Hdata. revert acc.
  induction Hdata as [|x data Hx Hdata IH]; intros [a b] Hacc; simpl.
  - rewrite !app_nil_r. reflexivity.
  - destruct (Hacc x) as [Ha Hb]; [left|]. simpl in Ha, Hb.
    destruct (keep x) eqn:Hkeep; simpl.
    + rewrite (set_add_fresh a x Ha), IH; simpl.
      * rewrite <- app_assoc. reflexivity.
      * intros y Hy. destruct (Hacc y) as [Hya Hyb]; [right; exact Hy|].
        split; [|exact Hyb]. simpl in Hya.
        rewrite elem_of_app, list_elem_of_singleton.
        intros [Hin| ->]; [contradiction|contradiction].
    + rewrite (set_add_fresh b x Hb), IH; simpl.
      * rewrite <- app_assoc. reflexivity.
      * intros y Hy. destruct (Hacc y) as [Hya Hyb]; [right; exact Hy|].
        split; [exact Hya|]. simpl in Hyb.
        rewrite elem_of_app, list_elem_of_singleton.
        intros [Hin| ->]; [contradiction|contradiction].
Qed.

Lemma collect_fold (keep : A -> bool) (geo acc : list A) :
  NoDup geo ->
  (forall x, x ∈ geo -> x ∉ acc) ->
  foldl (fun acc code => if keep code then set_add acc code else acc) acc geo
  = acc ++ List.filter keep geo.
Proof.
  intros Hgeo. revert acc.
  induction Hgeo as [|x geo Hx Hgeo IH]; intros acc Hacc; simpl.
  - rewrite app_nil_r. reflexivity.
  - destruct (keep x) eqn:Hkeep.
    + rewrite set_add_fresh by (apply Hacc; left). rewrite IH.
      * rewrite <- app_assoc. reflexivity.
      * intros y Hy. rewrite elem_of_app, list_elem_of_singleton.
        intros [Hin| ->]; [|contradiction].
        revert Hin. apply Hacc. right. exact Hy.
    + apply IH. intros y Hy. apply Hacc. right. exact Hy.
Qed.

(** Two sets see the same number of common elements. *)
Lemma common_count (geo data : list A) :
  NoDup geo -> NoDup data ->
  length (List.filter (set_has geo) data)
  = length (List.filter (set_has data) geo).
Proof.
  intros Hgeo Hdata.
  assert (Hmem : forall (l k : list A) x,
             x ∈ List.filter (set_has l) k <-> x ∈ k /\ x ∈ l).
  { intros l k x. rewrite list_elem_of_In, filter_In, <- list_elem_of_In.
    unfold set_has. rewrite bool_decide_eq_true. reflexivity. }
  assert (Hnd : forall (l k : list A), NoDup k ->
             NoDup (List.filter (set_has l) k)).
  { intros l k Hk. apply NoDup_ListNoDup, List.NoDup_filter,
      NoDup_ListNoDup, Hk. }
  apply Nat.le_antisymm.
  - apply NoDup_incl_length; [apply NoDup_ListNoDup, Hnd, Hdata|].
    intros x Hx. apply list_elem_of_In, Hmem.
    apply list_elem_of_In, Hmem in Hx. tauto.
  - apply NoDup_incl_length; [apply NoDup_ListNoDup, Hnd, Hgeo|].
    intros x Hx. apply list_elem_of_In, Hmem.
    apply list_elem_of_In, Hmem in Hx. tauto.
Qed.

(** X4.  On two sets, [validateMunicipalityAlignment] splits the data codes
    into [matching] and [missingInGeo] by membership in the geometry codes,
    keeping their order, and [missingInData] is the geometry codes that the
    data lacks; so the matching and the missing codes add up to the size of
    each set. *)
Theorem alignment_partitions_the_codes (geo data : list A) :
  NoDup geo -> NoDup data ->
  let report := validateMunicipalityAlignment geo data in
  matching report = List.filter (set_has geo) data
  /\ missingInGeo report = List.filter (fun x => negb (set_has geo x)) data
  /\ missingInData report = List.filter (fun x => negb (set_has data x)) geo
  /\ (length (matching report) + length (missingInGeo report)
      = length data)%nat
  /\ (length (matching report) + length (missingInData report)
      = length geo)%nat.
Proof.
  intros Hgeo Hdata report. subst report.
  unfold validateMunicipalityAlignment.
  rewrite (split_fold (set_has geo) data ([], []) Hdata)
    by (intros x _; split; apply not_elem_of_nil).
  rewrite (collect_fold (fun x => negb (set_has data x)) geo [] Hgeo)
    by (intros x _; apply not_elem_of_nil).
  simpl. repeat split.
  - apply filter_length.
  - rewrite (common_count geo data Hgeo Hdata). apply filter_length.
Qed.

End AlignmentPartition.

Section AlignmentPartitionExamples.
Import Js DataLoader.

Lemma alignment_partitions_the_codes_witness :
  let report := validateMunicipalityAlignment ["a"; "b"; "c"] ["b"; "d"] in
  matching report = ["b"]
  /\ missingInGeo report = ["d"]
  /\ missingInData report = ["a"; "c"]
  /\ (length (matching report) + length (missingInGeo report) = 2)%nat
  /\ (length (matching report) + length (missingInData report) = 3)%nat.
Proof.
  assert (Hgeo : NoDup ["a"; "b"; "c"])
    by (apply (bool_decide_unpack _); vm_compute; exact I).
  assert (Hdata : NoDup ["b"; "d"])
    by (apply (bool_decide_unpack _); vm_compute; exact I).
  exact (alignment_partitions_the_codes ["a"; "b"; "c"] ["b"; "d"] Hgeo Hdata).
Defined.

End AlignmentPartitionExamples.

(** ** Reading one record: [find] and the lookup *)

Section RecordLookup.
Import DataLoader.
Context {T : Type} `{MunicipalDataRecord T}.

(** [records.find] returns the first record with the code. *)
Lemma find_first (rs : list T) (c : string) :
  List.find (fun record => String.eqb (municipio record) c) rs
  = head (filter (fun r => municipio r = c) rs).
Proof.
  induction rs as [|r rs IH]; [reflexivity|]. simpl.
  rewrite filter_cons.
  destruct (decide (municipio r = c)) as [Heq|Hne].
  - rewrite (proj2 (String.eqb_eq _ _) Heq). reflexivity.
  - rewrite (proj2 (String.eqb_neq _ _) Hne). exact IH.
Qed.

(** Among records with distinct codes at most one carries a given code. *)
Lemma filter_code_unique (rs : list T) (c : string) :
  NoDup (municipio <$> rs) ->
  (length (filter (fun r => municipio r = c) rs) <= 1)%nat.
Proof.
  induction rs as [|r rs IH]; simpl; [lia|].
  rewrite NoDup_cons. intros [Hr Hrs]. rewrite filter_cons.
  destruct (decide (municipio r = c)) as [Heq|Hne]; [|apply IH, Hrs].
  destruct (filter (fun r => municipio r = c) rs) as [|r' rest] eqn:E;
    [simpl; lia|].
  exfalso. apply Hr.
  assert (Hr' : r' ∈ filter (fun r => municipio r = c) rs)
    by (rewrite E; left).
  apply list_elem_of_filter in Hr' as [Hc Hr'].
  rewrite Heq, <- Hc. apply list_elem_of_fmap_2. exact Hr'.
Qed.

(** X5.  When no two records carry the same municipality code,
    [getMunicipalityData] (which searches with [find]) and the map of
    [createMunicipalityLookup] return the same record for every code. *)
Theorem first_and_last_record_agree (dataFile : DataFile T) (c : string) :
  NoDup (municipio <$> records dataFile) ->
  getMunicipalityData (Some dataFile) c
  = createMunicipalityLookup dataFile !! c.
Proof.
  intros Hnodup. unfold getMunicipalityData, createMunicipalityLookup.
  rewrite find_first, lookup_fold_last.
  pose proof (filter_code_unique (records dataFile) c Hnodup) as Hlen.
  destruct (filter (fun r => municipio r = c) (records dataFile))
    as [|r [|r' rest]]; simpl in *; [reflexivity..|lia].
Qed.

(** X6.  [getMunicipalityData] returns [undefined] when the layer fails to
    load, and otherwise the first record with the code.  It finds a record
    exactly when the lookup map holds one, which is exactly when some
    record carries the code. *)
Theorem record_found_first_or_last (dataFile : DataFile T) (c : string) :
  getMunicipalityData None c = None
  /\ getMunicipalityData (Some dataFile) c
     = head (filter (fun r => municipio r = c) (records dataFile))
  /\ (is_Some (getMunicipalityData (Some dataFile) c)
      <-> is_Some (createMunicipalityLookup dataFile !! c))
  /\ (is_Some (getMunicipalityData (Some dataFile) c)
      <-> c ∈ municipio <$> records dataFile).
Proof.
  split; [reflexivity|]. unfold getMunicipalityData, createMunicipalityLookup.
  rewrite find_first, lookup_fold_last.
  split; [reflexivity|].
  assert (Hmem : filter (fun r => municipio r = c) (records dataFile) <> []
                 <-> c ∈ municipio <$> records dataFile).
  { rewrite list_elem_of_fmap. split.
    - intros Hne.
      destruct (filter _ (records dataFile)) as [|r rest] eqn:E;
        [contradiction|].
      assert (Hr : r ∈ filter (fun r => municipio r = c) (records dataFile))
        by (rewrite E; left).
      apply list_elem_of_filter in Hr as [Hc Hr]. eauto.
    - intros (r & Hc & Hr) E.
      assert (Hin : r ∈ filter (fun r => municipio r = c) (records dataFile))
        by (apply list_elem_of_filter; split; [symmetry|]; assumption).
      rewrite E in Hin. apply elem_of_nil in Hin. exact Hin. }
  rewrite <- Hmem, head_is_Some, last_is_Some. tauto.
Qed.

End RecordLookup.

Section RecordLookupExamples.
Import DataLoader.

Lemma first_and_last_record_agree_witness :
  getMunicipalityData
    (Some {| version := "1"; source := None; updated := None;
             metadata := None;
             records := [Scenarios.risk "11001" 3; Scenarios.risk "11002" 4] |})
    "11002"
  = createMunicipalityLookup
      {| version := "1"; source := None; updated := None; metadata := None;
         records := [Scenarios.risk "11001" 3; Scenarios.risk "11002" 4] |}
    !! "11002".
Proof.
  apply first_and_last_record_agree.
  apply (bool_decide_unpack _). vm_compute. exact I.
Defined.

(** With a repeated code the two differ: [find] stops at the first record,
    the lookup holds the last. *)
Example first_and_last_record_differ :
  getMunicipalityData (Some Scenarios.scenario_B) "11007"
    = Some (Scenarios.risk "11007" 2)
  /\ createMunicipalityLookup Scenarios.scenario_B !! "11007"
     = Some (Scenarios.risk "11007" 4).
Proof. split; vm_compute; reflexivity. Qed.

End RecordLookupExamples.

(** ** The join: the data of a joined feature *)

Section JoinedData.
Import GeoUtils DataLoader DataJoiner.
Context {T : Type} `{MunicipalDataRecord T}.

Lemma or_str_truthy (a b : option string) :
  Js.truthy_str b = true -> Js.truthy_str (Js.or_str a b) = true.
Proof.
  intros Hb. unfold Js.or_str.
  destruct (Js.truthy_str a) eqn:Ha; assumption.
Qed.

Lemma truthy_default (o : option string) (d : string) :
  Js.truthy_str o = true -> default d o <> "".
Proof.
  destruct o as [s|]; simpl; [|discriminate].
  intros Hs ->. discriminate.
Qed.

(** X7.  The feature at position [i] of the join has the geometry of the
    feature at position [i] of the input, and its [data] is the last
    record whose code is the feature's code (none when the feature has no
    code); [hasData] is true exactly when some record carries that code,
    which is exactly when [data] is present. *)
Theorem joined_data_is_the_matching_record (now : string)
    (geoJson : MunicipalitiesGeoJSON) (dataFile : DataFile T)
    (options : JoinOptions T) (i : nat) (f : MunicipalityFeature) :
  features geoJson !! i = Some f ->
  let code := default cvegeo (geoCodeField options) (properties f) in
  exists e,
    e_features (joinDataWithGeometries now geoJson dataFile options) !! i
      = Some e
    /\ e_geometry e = geometry f
    /\ data (e_properties e)
       = code ≫= (fun c => last (filter (fun r => municipio r = c)
                                        (records dataFile)))
    /\ (hasData (e_properties e) = true
        <-> exists r, r ∈ records dataFile /\ code = Some (municipio r))
    /\ (hasData (e_properties e) = true <-> is_Some (data (e_properties e))).
Proof.
  intros Hf code. unfold joinDataWithGeometries; simpl.
  eexists. split.
  { rewrite list_lookup_fmap, Hf. reflexivity. }
  simpl. fold code.
  assert (Hdata : lookup_get (createMunicipalityLookup dataFile) code
                  = code ≫= (fun c => last (filter (fun r => municipio r = c)
                                                   (records dataFile)))).
  { unfold lookup_get, createMunicipalityLookup.
    destruct code as [c|]; [apply lookup_fold_last|reflexivity]. }
  split; [reflexivity|]. split; [exact Hdata|].
  rewrite bool_decide_eq_true. split; [|reflexivity].
  rewrite Hdata. destruct code as [c|]; simpl.
  - rewrite last_is_Some. split.
    + intros Hne.
      destruct (filter _ (records dataFile)) as [|r rest] eqn:E;
        [contradiction|].
      assert (Hr : r ∈ filter (fun r => municipio r = c) (records dataFile))
        by (rewrite E; left).
      apply list_elem_of_filter in Hr as [Hc Hr].
      exists r. split; [exact Hr|]. congruence.
    + intros (r & Hr & [= ->]) E.
      assert (Hin : r ∈ filter (fun r' => municipio r' = municipio r)
                               (records dataFile))
        by (apply list_elem_of_filter; split; [reflexivity|exact Hr]).
      rewrite E in Hin. apply elem_of_nil in Hin. exact Hin.
  - split; [intros [x Hx]; discriminate|intros (r & _ & Hr); discriminate].
Qed.

(** X8.  Every feature of the join has a non-empty [cvegeo] and a non-empty
    [nombre], whatever the input feature held. *)
Theorem joined_codes_are_never_empty (now : string)
    (geoJson : MunicipalitiesGeoJSON) (dataFile : DataFile T)
    (options : JoinOptions T) (e : EnhancedMunicipalityFeature T) :
  e ∈ e_features (joinDataWithGeometries now geoJson dataFile options) ->
  e_cvegeo (e_properties e) <> "" /\ e_nombre (e_properties e) <> "".
Proof.
  unfold joinDataWithGeometries; simpl. intros He.
  apply list_elem_of_fmap in He as (f & -> & _). simpl.
  split; apply truthy_default, or_str_truthy; reflexivity.
Qed.

End JoinedData.

Section JoinedDataExamples.
Import GeoUtils DataLoader DataJoiner Scenarios.

Lemma joined_data_is_the_matching_record_witness :
  exists e,
    e_features (joinDataWithGeometries "" only_celaya scenario_B
                                       no_join_options) !! 0%nat = Some e
    /\ data (e_properties e) = Some (risk "11007" 4)
    /\ hasData (e_properties e) = true.
Proof.
  destruct (joined_data_is_the_matching_record "" only_celaya scenario_B
              no_join_options 0 celaya eq_refl)
    as (e & He & _ & Hdata & _ & Hhas).
  exists e. split; [exact He|]. split; [exact Hdata|].
  apply Hhas. rewrite Hdata. eexists. reflexivity.
Defined.

Lemma joined_codes_are_never_empty_witness :
  exists e : EnhancedMunicipalityFeature RiskIndexRecord,
    e_cvegeo (e_properties e) = "11007"
    /\ e_cvegeo (e_properties e) <> "" /\ e_nombre (e_properties e) <> "".
Proof.
  eexists. split; [|apply (joined_codes_are_never_empty "" only_celaya
                            scenario_B no_join_options); left].
  reflexivity.
Defined.

End JoinedDataExamples.

(** ** The choropleth mapping: the color of a value *)

Section ColorBins.
Import Js DataJoiner.

(** The loop returns the highest index below [k] whose break the value
    reaches. *)
Lemma find_bin_Some (breaks : list jsnum) (value : Q) (k i : nat) :
  find_bin breaks value k = Some i
  <-> (i < k)%nat
      /\ (exists b, breaks !! i = Some b /\ geb (Fin value) b = true)
      /\ (forall j b, (i < j < k)%nat -> breaks !! j = Some b ->
            geb (Fin value) b = false).
Proof.
  induction k as [|k IH]; cbn [find_bin].
  - split; [discriminate|]. intros [Hi _]. lia.
  - destruct (breaks !! k) as [b|] eqn:Hb.
    + destruct (geb (Fin value) b) eqn:Hge.
      * split.
        -- intros Heq. assert (i = k) by congruence. subst i. split; [lia|]. split; [eauto|].
           intros j b' Hj. lia.
        -- intros (Hi & _ & Hup).
           destruct (decide (i = k)) as [->|Hne]; [reflexivity|].
           rewrite (Hup k b) in Hge by (lia || assumption). discriminate.
      * rewrite IH. split.
        -- intros (Hi & Hat & Hup). split; [lia|]. split; [exact Hat|].
           intros j b' Hj Hb'.
           destruct (decide (j = k)) as [->|Hne]; [congruence|].
           apply (Hup j b'); [lia|exact Hb'].
        -- intros (Hi & (b' & Hb' & Hge') & Hup).
           assert (i <> k) by (intros ->; congruence).
           split; [lia|]. split; [eauto|].
           intros j b'' Hj. apply Hup. lia.
    + rewrite IH. split.
      * intros (Hi & Hat & Hup). split; [lia|]. split; [exact Hat|].
        intros j b' Hj Hb'.
        destruct (decide (j = k)) as [->|Hne]; [congruence|].
        apply (Hup j b'); [lia|exact Hb'].
      * intros (Hi & (b' & Hb' & Hge') & Hup).
        assert (i <> k) by (intros ->; congruence).
        split; [lia|]. split; [eauto|].
        intros j b'' Hj. apply Hup. lia.
Qed.

Lemma find_bin_None (breaks : list jsnum) (value : Q) (k : nat) :
  find_bin breaks value k = None
  <-> forall j b, (j < k)%nat -> breaks !! j = Some b ->
        geb (Fin value) b = false.
Proof.
  induction k as [|k IH]; cbn [find_bin].
  - split; [intros _ j b Hj; lia|reflexivity].
  - destruct (breaks !! k) as [b|] eqn:Hb.
    + destruct (geb (Fin value) b) eqn:Hge.
      * split; [discriminate|]. intros Hall.
        rewrite (Hall k b) in Hge by (lia || assumption). discriminate.
      * rewrite IH. split.
        -- intros Hall j b' Hj Hb'.
           destruct (decide (j = k)) as [->|Hne]; [congruence|].
           apply (Hall j b'); [lia|exact Hb'].
        -- intros Hall j b' Hj. apply Hall. lia.
    + rewrite IH. split.
      * intros Hall j b' Hj Hb'.
        destruct (decide (j = k)) as [->|Hne]; [congruence|].
        apply (Hall j b'); [lia|exact Hb'].
      * intros Hall j b' Hj. apply Hall. lia.
Qed.

Lemma geb_mono (v v' : Q) (b : jsnum) :
  (v <= v')%Q -> geb (Fin v) b = true -> geb (Fin v') b = true.
Proof.
  intros Hv. destruct b as [q| | |]; simpl; try (intros; assumption).
  rewrite !Qle_bool_iff. intros Hq. eapply Qle_trans; eassumption.
Qed.

Lemma color_for_bin_of (breaks : list jsnum) (colorScale : list string)
    (value : Q) :
  color_for breaks colorScale value
  = color_at colorScale (bin_of breaks (length colorScale) value).
Proof.
  unfold color_for, bin_of.
  destruct (find_bin breaks value (length breaks)); reflexivity.
Qed.

(** X9.  The function returned by [createChoroplethMapping] colors a value
    by the highest break it reaches: when the value is at least the break
    at index [i] and below every later break, the color is the one at
    index [min(i, colors - 1)]; when it is below every break, the color is
    the first one. *)
Theorem color_is_the_highest_break_reached (breaks : list jsnum)
    (colorScale : list string) (value : Q) :
  (forall i b,
      breaks !! i = Some b -> geb (Fin value) b = true ->
      (forall j b', (i < j)%nat -> breaks !! j = Some b' ->
         geb (Fin value) b' = false) ->
      color_for breaks colorScale value
      = color_at colorScale
          (Z.min (Z.of_nat i) (Z.of_nat (length colorScale) - 1)))
  /\ ((forall j b, breaks !! j = Some b -> geb (Fin value) b = false) ->
      color_for breaks colorScale value = color_at colorScale 0).
Proof.
  unfold color_for. split.
  - intros i b Hb Hge Hup.
    assert (Hfind : find_bin breaks value (length breaks) = Some i).
    { apply find_bin_Some. split; [apply lookup_lt_Some in Hb; exact Hb|].
      split; [eauto|]. intros j b' Hj. apply Hup. lia. }
    rewrite Hfind. reflexivity.
  - intros Hall.
    assert (Hfind : find_bin breaks value (length breaks) = None).
    { apply find_bin_None. intros j b _. apply Hall. }
    rewrite Hfind. reflexivity.
Qed.

(** The index read by [color_for] never decreases with the value. *)
Lemma bin_of_monotone (breaks : list jsnum) (colors : nat) (v v' : Q) :
  (0 < colors)%nat ->
  (v <= v')%Q ->
  (bin_of breaks colors v <= bin_of breaks colors v')%Z.
Proof.
  intros Hcolors Hv. unfold bin_of.
  destruct (find_bin breaks v (length breaks)) as [i|] eqn:Hi.
  - apply find_bin_Some in Hi as (Hlt & (b & Hb & Hge) & _).
    pose proof (geb_mono v v' b Hv Hge) as Hge'.
    destruct (find_bin breaks v' (length breaks)) as [j|] eqn:Hj.
    + apply find_bin_Some in Hj as (_ & _ & Hup).
      destruct (decide (j < i)%nat) as [Hji|Hij]; [|lia].
      rewrite (Hup i b) in Hge' by (lia || assumption). discriminate.
    + rewrite (proj1 (find_bin_None _ _ _) Hj i b Hlt Hb) in Hge'.
      discriminate.
  - destruct (find_bin breaks v' (length breaks)) as [j|]; lia.
Qed.

Lemma bin_of_range (breaks : list jsnum) (colors : nat) (v : Q) :
  (0 < colors)%nat ->
  (0 <= bin_of breaks colors v <= Z.of_nat colors - 1)%Z.
Proof.
  intros Hc. unfold bin_of.
  destruct (find_bin breaks v (length breaks)); lia.
Qed.

(** X10.  For a non-empty color scale and any breaks, the returned function
    reads the scale at an index within the scale, and a larger value never
    gets a color of lower index. *)
Theorem color_index_is_monotone (breaks : list jsnum)
    (colorScale : list string) (v v' : Q) :
  colorScale <> [] ->
  (v <= v')%Q ->
  exists i j : nat,
    color_for breaks colorScale v = colorScale !! i
    /\ color_for breaks colorScale v' = colorScale !! j
    /\ (i <= j < length colorScale)%nat.
Proof.
  intros Hscale Hv.
  assert (Hlen : (0 < length colorScale)%nat)
    by (destruct colorScale; [contradiction|cbn [length]; lia]).
  pose proof (bin_of_monotone breaks (length colorScale) v v' Hlen Hv) as Hmono.
  pose proof (bin_of_range breaks (length colorScale) v Hlen) as Hr.
  pose proof (bin_of_range breaks (length colorScale) v' Hlen) as Hr'.
  exists (Z.to_nat (bin_of breaks (length colorScale) v)),
         (Z.to_nat (bin_of breaks (length colorScale) v')).
  rewrite !color_for_bin_of. unfold color_at.
  destruct (Z.ltb_spec (bin_of breaks (length colorScale) v) 0); [lia|].
  destruct (Z.ltb_spec (bin_of breaks (length colorScale) v') 0); [lia|].
  split; [reflexivity|]. split; [reflexivity|]. lia.
Qed.

Lemma color_index_is_monotone_witness :
  exists i j : nat,
    color_for (Fin <$> [10; 20; 30; 40; 50; 50]%Q) Scenarios.five_colors 25
    = Scenarios.five_colors !! i
    /\ color_for (Fin <$> [10; 20; 30; 40; 50; 50]%Q) Scenarios.five_colors 30
       = Scenarios.five_colors !! j
    /\ (i <= j < length Scenarios.five_colors)%nat.
Proof.
  apply (color_index_is_monotone (Fin <$> [10; 20; 30; 40; 50; 50]%Q)
           Scenarios.five_colors 25 30).
  - discriminate.
  - vm_compute. discriminate.
Defined.

End ColorBins.

Section MappingColors.
Import Js DataJoiner.
Context {T : Type}.



(** X12.  With a non-empty color scale, the mapping returns for every code
    either the no-data color or a color of the scale; it never returns
    [undefined]. *)
Theorem mapping_returns_a_color_of_the_scale
    (g : EnhancedMunicipalitiesGeoJSON T) (valueExtractor : T -> Q)
    (colorScale : list string) (options : ChoroplethOptions) (c : string) :
  colorScale <> [] ->
  exists color,
    createChoroplethMapping g valueExtractor colorScale options c = Some color
    /\ (color = default "#cccccc" (noDataColor options)
        \/ color ∈ colorScale).
Proof.
  intros Hscale. unfold createChoroplethMapping.
  destruct (extract_values valueExtractor
              (default 0%Q (missingDataValue options)) g)
    as [values valueMap].
  destruct values as [|v vs]; [eauto|].
  destruct (valueMap !! c) as [value|]; [|eauto].
  destruct (Qeq_bool value (default 0%Q (missingDataValue options)));
    [eauto|].
  set (breaks := compute_breaks _ v vs colorScale).
  rewrite color_for_bin_of.
  assert (Hlen : (0 < length colorScale)%nat)
    by (destruct colorScale; [contradiction|simpl; lia]).
  pose proof (bin_of_range breaks (length colorScale) value Hlen) as Hbin.
  unfold color_at.
  destruct (Z.ltb_spec (bin_of breaks (length colorScale) value) 0); [lia|].
  destruct (colorScale !! Z.to_nat (bin_of breaks (length colorScale) value))
    as [color|] eqn:Hcolor.
  - exists color. split; [reflexivity|]. right.
    eapply list_elem_of_lookup_2. exact Hcolor.
  - apply lookup_ge_None in Hcolor. lia.
Qed.

End MappingColors.

Section MappingColorsExamples.
Import Js DataLoader DataJoiner Scenarios.


Lemma mapping_returns_a_color_of_the_scale_witness :
  exists color,
    createChoroplethMapping scenario_C indice five_colors
      no_choropleth_options "11003" = Some color
    /\ (color = "#cccccc" \/ color ∈ five_colors).
Proof.
  apply (mapping_returns_a_color_of_the_scale scenario_C indice five_colors
           no_choropleth_options "11003").
  discriminate.
Defined.

End MappingColorsExamples.

(** ** The quintile breaks and the summary statistics *)

Section SortedValues.
Import Js DataJoiner.

Lemma insert_number_elem (x y : Q) (l : list Q) :
  y ∈ insert_number x l <-> y = x \/ y ∈ l.
Proof.
  induction l as [|z l IH]; simpl.
  - rewrite list_elem_of_singleton, elem_of_nil. tauto.
  - destruct (Qle_bool z x); rewrite !elem_of_cons; [rewrite IH|]; tauto.
Qed.

(** Sorting keeps exactly the numbers of the array. *)
Lemma sort_numbers_elem (values : list Q) (y : Q) :
  y ∈ sort_numbers values <-> y ∈ values.
Proof.
  unfold sort_numbers.
  assert (Hgen : forall acc,
             y ∈ foldl (fun acc x => insert_number x acc) acc values
             <-> y ∈ acc \/ y ∈ values).
  { induction values as [|x values IH]; intros acc; simpl.
    - rewrite elem_of_nil. tauto.
    - rewrite IH, insert_number_elem, elem_of_cons. tauto. }
  rewrite Hgen, elem_of_nil. tauto.
Qed.

(** The first entry of a sorted array bounds the array from below, the last
    from above. *)
Lemma sorted_ends (v : Q) (vs : list Q) (x : Q) :
  x ∈ v :: vs ->
  let values := sort_numbers (v :: vs) in
  (nth 0 values v <= x)%Q /\ (x <= nth (length values - 1) values v)%Q
  /\ nth 0 values v ∈ v :: vs
  /\ nth (length values - 1) values v ∈ v :: vs.
Proof.
  intros Hx values.
  assert (Hsorted : StronglySorted Qle values) by apply sort_numbers_sorted.
  assert (Hlen : length values = S (length vs))
    by (unfold values; rewrite sort_numbers_length; reflexivity).
  assert (Hget : forall i, (i < length values)%nat ->
                   nth_error values i = Some (nth i values v)).
  { intros i Hi. apply nth_error_nth'. exact Hi. }
  apply sort_numbers_elem in Hx. fold values in Hx.
  apply list_elem_of_In, In_nth_error in Hx as [j Hj].
  assert (Hjlt : (j < length values)%nat)
    by (apply nth_error_Some; congruence).
  split; [|split; [|split]].
  - apply (sorted_nth_error values 0 j); [exact Hsorted|lia| |exact Hj].
    apply Hget. lia.
  - apply (sorted_nth_error values j (length values - 1));
      [exact Hsorted|lia|exact Hj|]. apply Hget. lia.
  - apply sort_numbers_elem. fold values.
    apply list_elem_of_In, nth_In. lia.
  - apply sort_numbers_elem. fold values.
    apply list_elem_of_In, nth_In. lia.
Qed.

(** X13.  The quintile breaks are six numbers; the first is the least
    extracted value and the last is the greatest, so that every value lies
    between them. *)
Theorem quintile_breaks_span_the_values (v : Q) (vs : list Q) :
  exists lo b1 b2 b3 b4 hi,
    quintile_breaks v vs = Fin <$> [lo; b1; b2; b3; b4; hi]
    /\ lo ∈ v :: vs /\ hi ∈ v :: vs
    /\ forall x, x ∈ v :: vs -> (lo <= x)%Q /\ (x <= hi)%Q.
Proof.
  unfold quintile_breaks. do 6 eexists. split; [reflexivity|].
  pose proof (sorted_ends v vs v (list_elem_of_here v vs)) as (_ & _ & Hlo & Hhi).
  split; [exact Hlo|]. split; [exact Hhi|].
  intros x Hx. destruct (sorted_ends v vs x Hx) as (H1 & H2 & _). tauto.
Qed.

End SortedValues.

Section SummaryFacts.
Import Js DataJoiner.
Context {T : Type}.

(** X14.  [extractDataSummary] summarises exactly the values that
    [createChoroplethMapping] classifies: both extract the values of the
    features with data, in the same order. *)
Lemma summary_values_are_the_mapped_values
    (g : EnhancedMunicipalitiesGeoJSON T) (valueExtractor : T -> Q)
    (missing : Q) :
  summary_values g valueExtractor
  = (extract_values valueExtractor missing g).1.
Proof.
  unfold summary_values, extract_values.
  assert (Hgen : forall fs acc,
             (foldl (collect valueExtractor missing) acc fs).1
             = acc.1 ++ omap (fun f =>
                               if hasData (e_properties f)
                               then valueExtractor <$> data (e_properties f)
                               else None) fs).
  { induction fs as [|f fs IH]; intros acc; simpl.
    - rewrite app_nil_r. reflexivity.
    - rewrite IH. unfold collect.
      destruct (hasData (e_properties f)), (data (e_properties f)); simpl;
        rewrite <- ?app_assoc; reflexivity. }
  rewrite Hgen. reflexivity.
Qed.




End SummaryFacts.

(** ** The integrity validator: what a valid report guarantees *)

Section ValidatorSoundness.
Import GeoUtils GeoJsonValidator.
Variable toLowerCase : string -> string.

Local Opaque inegiByCode inegiByName.

(** A feature's checks only add issues, and add an error exactly when the
    feature is not sound. *)
Lemma check_feature_adds (st : Pass) (index : nat) (f : MunicipalityFeature) :
  exists new,
    p_issues (check_feature toLowerCase st index f) = p_issues st ++ new
    /\ (Forall (fun i => severity i <> error) new <-> sound_feature f).
Proof.
  unfold check_feature, sound_feature.
  assert (Hbad : forall P : Prop,
             (P -> False) ->
             exists new,
               p_issues (push (missing_properties_issue index) st)
               = p_issues st ++ new
               /\ (Forall (fun i => severity i <> error) new <-> P)).
  { intros P HP. exists [missing_properties_issue index].
    split; [reflexivity|]. split; [|intros H; destruct (HP H)].
    intros Hall. apply Forall_cons in Hall as [Hne _]. contradiction. }
  destruct (state_code (properties f)) as [sc|];
    [|apply Hbad; intros [H _]; discriminate].
  destruct (mun_code (properties f)) as [mc|];
    [|apply Hbad; intros (_ & _ & (mc' & H & _) & _); discriminate].
  destruct (mun_name (properties f)) as [name|];
    [|apply Hbad; intros (_ & H & _); discriminate].
  destruct (Z.eqb_spec sc 0) as [Hsc|Hsc]; cbn [orb];
    [apply Hbad; intros [H _]; congruence|].
  destruct (Z.eqb_spec mc 0) as [Hmc|Hmc]; cbn [orb];
    [apply Hbad; intros (_ & _ & (mc' & H & H0 & _) & _); congruence|].
  destruct (String.eqb_spec name "") as [Hname|Hname];
    [apply Hbad; intros (_ & H & _); subst name; discriminate|].
  clear Hbad.
  set (code := cat ["11"; Js.padStart0 3 (Js.toString mc)]).
  exists ((if negb (sc =? 11)%Z then [invalid_state_code_issue name sc] else [])
          ++ match inegiByCode !! code, inegiByName toLowerCase !! toLowerCase name with
             | None, None => [not_in_catalog_issue name code]
             | Some _, Some _ => []
             | Some byCode, None => [wrong_name_issue name byCode]
             | None, Some byName => [wrong_code_issue name mc byName]
             end
          ++ (if geometry_missing f then [invalid_geometry_issue name] else [])).
  split.
  - destruct (negb (sc =? 11)%Z), (inegiByCode !! code),
      (inegiByName toLowerCase !! toLowerCase name), (geometry_missing f);
      cbn [push p_issues app]; rewrite <- ?app_assoc; cbn [app];
      rewrite ?app_nil_r; reflexivity.
  - split.
    + intros Hall. rewrite !Forall_app in Hall.
      destruct Hall as (H1 & H2 & H3).
      split; [|split; [|split]].
      * destruct (sc =? 11)%Z eqn:E11.
        -- apply Z.eqb_eq in E11. congruence.
        -- cbn [negb] in H1. apply Forall_cons in H1 as [Hbad _].
           contradiction.
      * cbn [Js.truthy_str]. apply negb_true_iff, String.eqb_neq, Hname.
      * exists mc. split; [reflexivity|]. split; [exact Hmc|].
        destruct (inegiByCode !! code) eqn:Ecode; [eauto|].
        destruct (inegiByName toLowerCase !! toLowerCase name) eqn:Ename;
          apply Forall_cons in H2 as [Hbad _]; contradiction.
      * destruct (geometry_missing f) eqn:Egeo; [|reflexivity].
        apply Forall_cons in H3 as [Hbad _]. contradiction.
    + intros (Hs & _ & (mc' & Hmc' & _ & [byCode HbyCode]) & Hgeo).
      injection Hs as ->. injection Hmc' as <-. fold code in HbyCode.
      rewrite HbyCode, Hgeo. cbn [Z.eqb Pos.eqb negb app].
      rewrite app_nil_r.
      destruct (inegiByName toLowerCase !! toLowerCase name);
        [constructor|].
      constructor; [discriminate|constructor].
Qed.

Lemma pass_adds (feats : list MunicipalityFeature) (index : nat) (st : Pass) :
  exists new,
    p_issues (forEach_indexed (check_feature toLowerCase) index feats st)
    = p_issues st ++ new
    /\ (Forall (fun i => severity i <> error) new <->
        Forall sound_feature feats).
Proof.
  revert index st. induction feats as [|f feats IH]; intros index st.
  - exists []. split; [symmetry; apply app_nil_r|]. split; constructor.
  - cbn [forEach_indexed].
    destruct (check_feature_adds st index f) as (new1 & Hnew1 & Hok1).
    destruct (IH (S index) (check_feature toLowerCase st index f))
      as (new2 & Hnew2 & Hok2).
    exists (new1 ++ new2). split.
    + rewrite Hnew2, Hnew1, app_assoc. reflexivity.
    + rewrite Forall_app, Forall_cons, Hok1, Hok2. reflexivity.
Qed.

(** The catalog pass only appends warnings about missing units. *)
Lemma check_missing_adds (st : Pass) (units : list INEGIMunicipalityData)
    (issues : list ValidationIssue) :
  exists new,
    foldl (check_missing toLowerCase st) issues units = issues ++ new
    /\ Forall (fun i => exists mun, i = missing_unit_issue mun) new.
Proof.
  revert issues. induction units as [|mun units IH]; intros issues.
  - exists []. split; [symmetry; apply app_nil_r|constructor].
  - cbn [foldl]. unfold check_missing at 2.
    destruct (negb _ && negb _).
    + destruct (IH (issues ++ [missing_unit_issue mun])) as (new & Hnew & Hall).
      exists (missing_unit_issue mun :: new). split.
      * rewrite Hnew, <- app_assoc. reflexivity.
      * constructor; [eauto|exact Hall].
    + apply IH.
Qed.

(** X16.  The report is valid exactly when the input has a [features] array
    and every feature has state code 11, a name, a non-zero municipal code
    whose five-digit code is in the catalog, and a geometry with
    coordinates.  Whether the name belongs to that code plays no part. *)
Theorem valid_report_iff_sound_features (geoJsonData : GeoJSONInput) :
  isValid (validateGeoJSONIntegrity toLowerCase geoJsonData) = true
  <-> exists feats,
        input_features geoJsonData = Some feats
        /\ Forall sound_feature feats.
Proof.
  unfold validateGeoJSONIntegrity.
  destruct (input_features geoJsonData) as [feats|];
    [|split; [discriminate|intros (feats & H & _); discriminate]].
  cbn [isValid errors]. rewrite Nat.eqb_eq, count_severity_zero.
  set (st0 := {| p_issues := []; foundCodes := []; foundNames := [] |}) in *.
  destruct (pass_adds feats 0 st0) as (new & Hnew & Hok).
  destruct (check_missing_adds
              (forEach_indexed (check_feature toLowerCase) 0 feats st0)
              INEGI_GUANAJUATO_MUNICIPALITIES
              (p_issues (forEach_indexed (check_feature toLowerCase) 0
                                         feats st0)))
    as (warn & Hwarn & Hwarnings).
  rewrite Hwarn, Hnew. cbn [p_issues st0 app]. rewrite Forall_app, Hok.
  split.
  - intros [Hsound _]. exists feats. split; [reflexivity|exact Hsound].
  - intros (feats' & Heq & Hsound). injection Heq as <-.
    split; [exact Hsound|].
    apply (Forall_impl _ _ _ Hwarnings). intros i [mun ->]. discriminate.
Qed.

End ValidatorSoundness.

(** ** The corrected geometry collection *)

Section CorrectionFacts.
Import GeoUtils GeoJsonValidator.
Variable toLowerCase : string -> string.

(** Every value of [inegiByName] is a unit of the catalog. *)
Lemma inegiByName_catalog (k : string) (m : INEGIMunicipalityData) :
  inegiByName toLowerCase !! k = Some m ->
  m ∈ INEGI_GUANAJUATO_MUNICIPALITIES.
Proof.
  unfold inegiByName.
  assert (Hgen : forall units (acc : gmap string INEGIMunicipalityData),
             foldl (fun m mun => <[toLowerCase (inegi_nombre mun) := mun]> m)
                   acc units !! k = Some m ->
             m ∈ units \/ acc !! k = Some m).
  { induction units as [|u units IH]; intros acc Hk; [right; exact Hk|].
    cbn [foldl] in Hk. apply IH in Hk as [Hin|Hk].
    - left. right. exact Hin.
    - destruct (decide (toLowerCase (inegi_nombre u) = k)) as [<-|Hne].
      + rewrite lookup_insert_eq in Hk. injection Hk as <-. left. left.
      + rewrite lookup_insert_ne in Hk by exact Hne. right. exact Hk. }
  intros Hk. apply Hgen in Hk as [Hin|Hk]; [exact Hin|].
  rewrite lookup_empty in Hk. discriminate.
Qed.

(** The municipal code read back from a catalog code rebuilds that code. *)
Lemma catalog_code_rebuilt (m : INEGIMunicipalityData) :
  m ∈ INEGI_GUANAJUATO_MUNICIPALITIES ->
  exists z,
    Js.parseInt (Js.slice_from 2 (clave m)) = Some z /\ z <> 0%Z
    /\ is_Some (inegiByCode !! cat ["11"; Js.padStart0 3 (Js.toString z)]).
Proof.
  intros Hm.
  assert (Hall : forallb (fun m =>
            match Js.parseInt (Js.slice_from 2 (clave m)) with
            | Some z =>
                negb (z =? 0)%Z
                && bool_decide
                     (is_Some (inegiByCode
                                 !! cat ["11"; Js.padStart0 3 (Js.toString z)]))
            | None => false
            end) INEGI_GUANAJUATO_MUNICIPALITIES = true)
    by (vm_compute; reflexivity).
  rewrite forallb_forall in Hall.
  specialize (Hall m (proj1 (list_elem_of_In _ _) Hm)).
  destruct (Js.parseInt (Js.slice_from 2 (clave m))) as [z|]; [|discriminate].
  apply andb_true_iff in Hall as [Hz Hcode].
  exists z. split; [reflexivity|]. split.
  - apply negb_true_iff, Z.eqb_neq in Hz. exact Hz.
  - apply bool_decide_eq_true in Hcode. exact Hcode.
Qed.

Local Opaque inegiByCode inegiByName.

Lemma corrected_code_follows_name (f f' : MunicipalityFeature) :
  correct_feature toLowerCase f = Some f' ->
  code_follows_name toLowerCase f'.
Proof.
  unfold correct_feature, code_follows_name.
  destruct (mun_name (properties f)) as [name|] eqn:Hname; [|discriminate].
  destruct (inegiByName toLowerCase !! toLowerCase name) as [m|] eqn:Hm.
  - intros [= <-] mc name'. cbn [properties mun_code mun_name].
    intros Hmc [= <-] _.
    destruct (catalog_code_rebuilt m (inegiByName_catalog _ _ Hm))
      as (z & Hz & _ & Hcode).
    rewrite Hz in Hmc. injection Hmc as <-. exact Hcode.
  - intros [= <-] mc name' _ Hname'. rewrite Hname in Hname'.
    injection Hname' as <-. rewrite Hm. intros [x Hx]. discriminate.
Qed.

Lemma check_feature_no_wrong_code (st : Pass) (index : nat)
    (f : MunicipalityFeature) :
  code_follows_name toLowerCase f ->
  exists new,
    p_issues (check_feature toLowerCase st index f) = p_issues st ++ new
    /\ Forall (fun i => issue_type i <> wrong_code) new.
Proof.
  intros Hf. unfold check_feature.
  destruct (state_code (properties f)) as [sc|];
    [|exists [missing_properties_issue index]; split; [reflexivity|];
      repeat constructor; discriminate].
  destruct (mun_code (properties f)) as [mc|] eqn:Hmc;
    [|exists [missing_properties_issue index]; split; [reflexivity|];
      repeat constructor; discriminate].
  destruct (mun_name (properties f)) as [name|] eqn:Hname;
    [|exists [missing_properties_issue index]; split; [reflexivity|];
      repeat constructor; discriminate].
  destruct ((sc =? 0)%Z || (mc =? 0)%Z || (name =? "")%string);
    [exists [missing_properties_issue index]; split; [reflexivity|];
      repeat constructor; discriminate|].
  set (code := cat ["11"; Js.padStart0 3 (Js.toString mc)]).
  specialize (Hf mc name Hmc Hname). fold code in Hf.
  exists ((if negb (sc =? 11)%Z then [invalid_state_code_issue name sc] else [])
          ++ match inegiByCode !! code, inegiByName toLowerCase !! toLowerCase name with
             | None, None => [not_in_catalog_issue name code]
             | Some _, Some _ => []
             | Some byCode, None => [wrong_name_issue name byCode]
             | None, Some byName => [wrong_code_issue name mc byName]
             end
          ++ (if geometry_missing f then [invalid_geometry_issue name] else [])).
  split.
  - destruct (negb (sc =? 11)%Z), (inegiByCode !! code),
      (inegiByName toLowerCase !! toLowerCase name), (geometry_missing f);
      cbn [push p_issues app]; rewrite <- ?app_assoc; cbn [app];
      rewrite ?app_nil_r; reflexivity.
  - rewrite !Forall_app. split; [|split].
    + destruct (negb (sc =? 11)%Z); repeat constructor; discriminate.
    + destruct (inegiByCode !! code) eqn:Ecode,
        (inegiByName toLowerCase !! toLowerCase name) eqn:Ename;
        try (repeat constructor; discriminate).
      destruct Hf as [x Hx]; [eauto|discriminate].
    + destruct (geometry_missing f); repeat constructor; discriminate.
Qed.

Lemma pass_no_wrong_code (feats : list MunicipalityFeature) (index : nat)
    (st : Pass) :
  Forall (code_follows_name toLowerCase) feats ->
  exists new,
    p_issues (forEach_indexed (check_feature toLowerCase) index feats st)
    = p_issues st ++ new
    /\ Forall (fun i => issue_type i <> wrong_code) new.
Proof.
  intros Hfeats. revert index st.
  induction Hfeats as [|f feats Hf _ IH]; intros index st.
  - exists []. split; [symmetry; apply app_nil_r|constructor].
  - cbn [forEach_indexed].
    destruct (check_feature_no_wrong_code st index f Hf) as (new1 & Hnew1 & H1).
    destruct (IH (S index) (check_feature toLowerCase st index f))
      as (new2 & Hnew2 & H2).
    exists (new1 ++ new2). split.
    + rewrite Hnew2, Hnew1, app_assoc. reflexivity.
    + apply Forall_app. split; assumption.
Qed.

(** X17.  Validating the collection returned by [createCorrectedGeoJSON]
    reports no [wrong_code] issue. *)
Theorem corrected_collection_has_no_code_mismatch
    (geoJsonData corrected : MunicipalitiesGeoJSON) :
  createCorrectedGeoJSON toLowerCase geoJsonData = Some corrected ->
  Forall (fun i => issue_type i <> wrong_code)
         (issues (validateGeoJSONIntegrity toLowerCase
                    (of_collection corrected))).
Proof.
  unfold createCorrectedGeoJSON. intros Hc.
  apply fmap_Some in Hc as (fs & Hfs & ->).
  assert (Hall : Forall (code_follows_name toLowerCase) fs).
  { apply mapM_Some in Hfs. apply Forall_forall. intros f' Hf'.
    apply list_elem_of_lookup in Hf' as [i Hi].
    destruct (Forall2_lookup_r _ _ _ _ _ Hfs Hi) as (f & _ & Hcorr).
    exact (corrected_code_follows_name f f' Hcorr). }
  unfold validateGeoJSONIntegrity, of_collection.
  cbn [input_features features issues].
  set (st0 := {| p_issues := []; foundCodes := []; foundNames := [] |}).
  destruct (pass_no_wrong_code fs 0 st0 Hall) as (new & Hnew & Hok).
  destruct (check_missing_adds toLowerCase
              (forEach_indexed (check_feature toLowerCase) 0 fs st0)
              INEGI_GUANAJUATO_MUNICIPALITIES
              (p_issues (forEach_indexed (check_feature toLowerCase) 0 fs st0)))
    as (warn & Hwarn & Hmissing).
  rewrite Hwarn, Hnew. cbn [p_issues st0 app].
  apply Forall_app. split; [exact Hok|].
  eapply Forall_impl; [exact Hmissing|].
  intros i [mun ->]. discriminate.
Qed.

(** X18.  [createCorrectedGeoJSON] throws exactly when some feature has no
    [mun_name].  Otherwise it keeps the number, the order, the geometry and
    the state code of the features; a feature whose name the catalog knows
    gets the catalog's name, municipal code and [inegi_code], and any other
    feature is returned as it is. *)
Theorem correction_keeps_unknown_features (geoJsonData : MunicipalitiesGeoJSON) :
  (createCorrectedGeoJSON toLowerCase geoJsonData = None
   <-> exists f, f ∈ features geoJsonData
                 /\ mun_name (properties f) = None)
  /\ (forall corrected,
        createCorrectedGeoJSON toLowerCase geoJsonData = Some corrected ->
        length (features corrected) = length (features geoJsonData)
        /\ forall i f', features corrected !! i = Some f' ->
             exists f name,
               features geoJsonData !! i = Some f
               /\ mun_name (properties f) = Some name
               /\ geometry f' = geometry f
               /\ state_code (properties f') = state_code (properties f)
               /\ match inegiByName toLowerCase !! toLowerCase name with
                  | Some m =>
                      mun_name (properties f') = Some (inegi_nombre m)
                      /\ mun_code (properties f')
                         = Js.parseInt (Js.slice_from 2 (clave m))
                      /\ other (properties f') !! "inegi_code"
                         = Some (clave m)
                  | None => f' = f
                  end).
Proof.
  unfold createCorrectedGeoJSON. split.
  - rewrite fmap_None, mapM_None, Exists_exists. unfold correct_feature.
    split; intros (f & Hf & Hnone); exists f; (split; [exact Hf|]).
    + destruct (mun_name (properties f)) as [name|]; [|reflexivity].
      destruct (inegiByName toLowerCase !! toLowerCase name); discriminate.
    + rewrite Hnone. reflexivity.
  - intros corrected Hc. apply fmap_Some in Hc as (fs & Hfs & ->).
    cbn [features].
    split; [symmetry; eapply length_mapM; exact Hfs|].
    intros i f' Hf'. apply mapM_Some in Hfs.
    destruct (Forall2_lookup_r _ _ _ _ _ Hfs Hf') as (f & Hf & Hcorr).
    unfold correct_feature in Hcorr.
    destruct (mun_name (properties f)) as [name|] eqn:Hname; [|discriminate].
    exists f, name. split; [exact Hf|]. split; [exact Hname|].
    destruct (inegiByName toLowerCase !! toLowerCase name) as [m|];
      injection Hcorr as <-; cbn [geometry properties state_code mun_name
                                  mun_code other];
      repeat split.
    apply lookup_insert_eq.
Qed.

End CorrectionFacts.

Section CorrectionExamples.
Import GeoUtils GeoJsonValidator Scenarios.

(** The collection [miscoded] has a code mismatch before the correction;
    its corrected copy has none, and its unknown feature is untouched. *)
Lemma corrected_collection_has_no_code_mismatch_witness :
  exists corrected,
    createCorrectedGeoJSON toLowerCase_latin miscoded = Some corrected
    /\ Exists (fun i => issue_type i = wrong_code)
              (issues (validateGeoJSONIntegrity toLowerCase_latin
                         (of_collection miscoded)))
    /\ Forall (fun i => issue_type i <> wrong_code)
              (issues (validateGeoJSONIntegrity toLowerCase_latin
                         (of_collection corrected)))
    /\ features corrected !! 1%nat = features miscoded !! 1%nat.
Proof.
  destruct (createCorrectedGeoJSON toLowerCase_latin miscoded)
    as [corrected|] eqn:Hc; [|vm_compute in Hc; discriminate].
  exists corrected. split; [reflexivity|]. split; [|split].
  - vm_compute. left. reflexivity.
  - apply (corrected_collection_has_no_code_mismatch toLowerCase_latin
             miscoded corrected Hc).
  - vm_compute in Hc. injection Hc as <-. reflexivity.
Defined.

End CorrectionExamples.

(** ** The layer state store: states reached from the initial one *)

Section StoreInvariants.
Import LayerManager.

(** [forEach_layer] assigns to layer objects and touches nothing else. *)
Lemma forEach_layer_fold (f : string -> LayerState -> LayerState)
    (es : list (string * ref)) (m : Manager) :
  foldl (fun m' e => assign (f e.1) e.2 m') m es
  = {| objects := foldl (fun o e => alter (f e.1) e.2 o) (objects m) es;
       layers := layers m; listeners := listeners m; calls := calls m |}.
Proof.
  revert m. induction es as [|e es IH]; intros m; [destruct m; reflexivity|].
  cbn [foldl]. rewrite IH. reflexivity.
Qed.

Lemma forEach_layer_eq (f : string -> LayerState -> LayerState)
    (m : Manager) :
  forEach_layer f m
  = {| objects :=
         foldl (fun o e => alter (f e.1) e.2 o) (objects m) (layers m);
       layers := layers m; listeners := listeners m; calls := calls m |}.
Proof. apply forEach_layer_fold. Qed.

Lemma layers_run (m : Manager) (op : Op) : layers (run m op) = layers m.
Proof.
  destruct op as [i|i v|i b|now i b c|i| | |l|l]; cbn [run];
    unfold toggleLayer, setLayerVisibility, setLayerLoading, setLayerData,
      showOnlyLayer, hideAllLayers, reset;
    rewrite ?forEach_layer_eq;
    try destruct (layers_get m i); try reflexivity.
  destruct (negb _); reflexivity.
Qed.

(** The fields of a layer that no operation assigns. *)
Lemma reset_layer_absorbs (l : LayerState) :
  (forall b, reset_layer (set_isVisible b l) = reset_layer l)
  /\ (forall b, reset_layer (set_isLoading b l) = reset_layer l)
  /\ (forall b c now, reset_layer (set_data b c now l) = reset_layer l)
  /\ reset_layer (reset_layer l) = reset_layer l.
Proof. repeat split. Qed.

Lemma static_alter (g : LayerState -> LayerState) (r : ref)
    (o : gmap ref LayerState) :
  (forall l, reset_layer (g l) = reset_layer l) ->
  reset_layer <$> alter g r o = reset_layer <$> o.
Proof.
  intros Hg.
  rewrite (fmap_alter reset_layer g (fun l => l)) by (intros l _; apply Hg).
  apply alter_id. reflexivity.
Qed.

Lemma static_fold (f : string -> LayerState -> LayerState)
    (es : list (string * ref)) (o : gmap ref LayerState) :
  (forall k l, reset_layer (f k l) = reset_layer l) ->
  reset_layer <$> foldl (fun o e => alter (f e.1) e.2 o) o es
  = reset_layer <$> o.
Proof.
  intros Hf. revert o. induction es as [|e es IH]; intros o; [reflexivity|].
  cbn [foldl]. rewrite IH. apply static_alter. intros l. apply Hf.
Qed.

Lemma static_run (m : Manager) (op : Op) :
  reset_layer <$> objects (run m op) = reset_layer <$> objects m.
Proof.
  destruct op as [i|i v|i b|now i b c|i| | |l|l]; cbn [run].
  - unfold toggleLayer. destruct (layers_get m i); [|reflexivity].
    apply static_alter. reflexivity.
  - unfold setLayerVisibility. destruct (layers_get m i); [|reflexivity].
    destruct (negb _); [|reflexivity]. apply static_alter. reflexivity.
  - unfold setLayerLoading. destruct (layers_get m i); [|reflexivity].
    apply static_alter. reflexivity.
  - unfold setLayerData. destruct (layers_get m i); [|reflexivity].
    apply static_alter. reflexivity.
  - unfold showOnlyLayer. rewrite forEach_layer_eq.
    apply (static_fold (fun k l => set_isVisible (String.eqb k i) l)).
    reflexivity.
  - unfold hideAllLayers. rewrite forEach_layer_eq.
    apply (static_fold (fun _ l => set_isVisible false l)). reflexivity.
  - unfold reset. rewrite forEach_layer_eq.
    apply (static_fold (fun _ l => reset_layer l)). reflexivity.
  - reflexivity.
  - reflexivity.
Qed.

(** What every state reached from the initial one keeps: the layer map,
    and the fields of the layer objects that no operation assigns. *)
Lemma reachable_invariant (ops : list Op) :
  layers (run_all ops new_manager) = layers new_manager
  /\ reset_layer <$> objects (run_all ops new_manager)
     = objects new_manager.
Proof.
  unfold run_all.
  induction ops as [|op ops IH] using rev_ind.
  - split; [reflexivity|]. vm_compute. reflexivity.
  - rewrite foldl_snoc, layers_run, static_run. exact IH.
Qed.

Lemma reachable_objects (ops : list Op) (r : ref) :
  r ∈ getLayers new_manager ->
  exists l, objects (run_all ops new_manager) !! r = Some l
            /\ Some (reset_layer l) = objects new_manager !! r.
Proof.
  intros Hr. destruct (reachable_invariant ops) as [_ Hstatic].
  assert (Hsome : is_Some (objects new_manager !! r)).
  { revert r Hr. apply Forall_forall.
    apply (bool_decide_unpack _). vm_compute. exact I. }
  rewrite <- Hstatic, lookup_fmap in Hsome |- *.
  destruct (objects (run_all ops new_manager) !! r) as [l|];
    [eauto|destruct Hsome; discriminate].
Qed.

End StoreInvariants.

Section StoreFolds.
Import LayerManager.

(** Assigning the same idempotent update through every reference. *)
Lemma fold_alter_same (g : LayerState -> LayerState)
    (es : list (string * ref)) (o : gmap ref LayerState) (r : ref) :
  (forall l, g (g l) = g l) ->
  foldl (fun o e => alter g e.2 o) o es !! r
  = if bool_decide (r ∈ es.*2) then g <$> o !! r else o !! r.
Proof.
  intros Hg. revert o. induction es as [|[k r'] es IH]; intros o;
    [reflexivity|].
  cbn [foldl fmap list_fmap snd]. rewrite IH.
  destruct (decide (r' = r)) as [->|Hne].
  - rewrite lookup_alter_eq.
    rewrite (bool_decide_eq_true_2 (r ∈ r :: es.*2)) by left.
    destruct (bool_decide (r ∈ es.*2)); [|reflexivity].
    destruct (o !! r); simpl; [rewrite Hg|]; reflexivity.
  - rewrite lookup_alter_ne by exact Hne.
    rewrite (bool_decide_ext (r ∈ r' :: es.*2) (r ∈ es.*2)); [reflexivity|].
    rewrite elem_of_cons. split; [intros [->|H]; [contradiction|exact H]|tauto].
Qed.

(** Assigning per key through distinct references. *)
Lemma fold_alter_keyed (f : string -> LayerState -> LayerState)
    (es : list (string * ref)) (o : gmap ref LayerState)
    (k : string) (r : ref) :
  NoDup es.*2 -> (k, r) ∈ es ->
  foldl (fun o e => alter (f e.1) e.2 o) o es !! r = f k <$> o !! r.
Proof.
  intros Hnd. revert o. induction es as [|[k' r'] es IH]; intros o Hin.
  - apply elem_of_nil in Hin. contradiction.
  - cbn [fmap list_fmap snd] in Hnd. apply NoDup_cons in Hnd as [Hr' Hnd].
    cbn [foldl fst snd]. apply elem_of_cons in Hin as [[= -> ->]|Hin].
    + assert (Hrest : foldl (fun o e => alter (f e.1) e.2 o)
                        (alter (f k') r' o) es !! r'
                      = alter (f k') r' o !! r').
      { clear IH Hnd. revert Hr'. generalize (alter (f k') r' o).
        induction es as [|[k2 r2] es IH2]; intros o2 Hr'; [reflexivity|].
        cbn [foldl fst snd]. cbn [fmap list_fmap snd] in Hr'.
        rewrite IH2 by (intros H; apply Hr'; right; exact H).
        apply lookup_alter_ne. intros ->. apply Hr'. left. }
      rewrite Hrest. apply lookup_alter_eq.
    + rewrite (IH Hnd _ Hin). rewrite lookup_alter_ne; [reflexivity|].
      intros ->. apply Hr'. apply (list_elem_of_fmap_2 snd _ (k, r)) in Hin.
      exact Hin.
Qed.

End StoreFolds.

Section StoreOperations.
Import LayerManager.

Lemma set_isVisible_twice (l : LayerState) :
  set_isVisible (negb (isVisible (set_isVisible (negb (isVisible l)) l)))
                (set_isVisible (negb (isVisible l)) l) = l.
Proof. destruct l as [? ? ? v ? ? ? ? ? ?]. simpl. rewrite negb_involutive. reflexivity. Qed.

(** X19.  Toggling a layer twice restores every layer object, the layer map
    and the listeners, and the second toggle returns the visibility the
    layer had at first (false for an unknown id). *)
Theorem toggle_twice_restores_the_layers (i : string) (m : Manager) :
  let m' := (toggleLayer i (toggleLayer i m).2).2 in
  objects m' = objects m
  /\ layers m' = layers m
  /\ listeners m' = listeners m
  /\ (toggleLayer i (toggleLayer i m).2).1
     = match layers_get m i with
       | Some r => visible_at m r
       | None => false
       end.
Proof.
  unfold toggleLayer. destruct (layers_get m i) as [r|] eqn:Hr.
  - cbn [snd fst]. unfold layers_get in *.
    cbn [layers notifyListeners assign]. rewrite Hr.
    cbn [snd fst objects layers listeners notifyListeners assign].
    assert (Hobj : alter (fun l => set_isVisible (negb (isVisible l)) l) r
                     (alter (fun l => set_isVisible (negb (isVisible l)) l) r
                            (objects m)) = objects m).
    { apply map_eq. intros r'.
      destruct (decide (r = r')) as [<-|Hne].
      - rewrite !lookup_alter_eq. destruct (objects m !! r) as [l|];
          [|reflexivity]. simpl. f_equal. apply set_isVisible_twice.
      - rewrite !lookup_alter_ne by exact Hne. reflexivity. }
    split; [exact Hobj|]. split; [reflexivity|]. split; [reflexivity|].
    unfold visible_at, notifyListeners, assign. cbn [objects].
    rewrite !lookup_alter_eq. destruct (objects m !! r) as [l|];
      [|reflexivity]. destruct l. simpl. apply negb_involutive.
  - cbn [snd fst]. rewrite Hr. repeat split.
Qed.

Lemma notifyListeners_broadcast (m1 m : Manager) :
  calls m1 = calls m -> listeners m1 = listeners m ->
  broadcast m (notifyListeners m1).
Proof. intros Hc Hl. unfold broadcast, notifyListeners; simpl.
  rewrite Hc, Hl. split; reflexivity. Qed.

(** X20.  [showOnlyLayer], [hideAllLayers] and [reset] always, and
    [toggleLayer], [setLayerLoading], [setLayerData] and a
    [setLayerVisibility] that changes the visibility on a known id, make
    exactly one call to each listener, in registration order, each handed
    the layers as they are after the change. *)
Theorem every_mutation_broadcasts_once (m : Manager) (i : string) :
  broadcast m (showOnlyLayer i m)
  /\ broadcast m (hideAllLayers m)
  /\ broadcast m (reset m)
  /\ (is_Some (layers_get m i) ->
      broadcast m (toggleLayer i m).2
      /\ (forall loading, broadcast m (setLayerLoading i loading m))
      /\ (forall now hasData_ dataCount_,
            broadcast m (setLayerData now i hasData_ dataCount_ m))
      /\ (forall visible r, layers_get m i = Some r ->
            visible_at m r <> visible ->
            broadcast m (setLayerVisibility i visible m).2)).
Proof.
  unfold showOnlyLayer, hideAllLayers, reset. rewrite !forEach_layer_eq.
  split; [apply notifyListeners_broadcast; reflexivity|].
  split; [apply notifyListeners_broadcast; reflexivity|].
  split; [apply notifyListeners_broadcast; reflexivity|].
  intros [r Hr].
  unfold toggleLayer, setLayerLoading, setLayerData, setLayerVisibility.
  rewrite Hr. cbn [snd].
  split; [apply notifyListeners_broadcast; reflexivity|].
  split; [intros; apply notifyListeners_broadcast; reflexivity|].
  split; [intros; apply notifyListeners_broadcast; reflexivity|].
  intros visible r' [= <-] Hne.
  destruct (Bool.eqb (visible_at m r) visible) eqn:E.
  - apply Bool.eqb_prop in E. contradiction.
  - cbn [negb snd]. apply notifyListeners_broadcast; reflexivity.
Qed.

End StoreOperations.

Section StoreStatistics.
Import LayerManager.

(** Reading references whose objects were all updated by [g]. *)
Lemma read_updated (g : LayerState -> LayerState)
    (o o' : gmap ref LayerState) (rs : list ref) :
  Forall (fun r => o' !! r = g <$> o !! r) rs ->
  omap (fun r => o' !! r) rs = g <$> omap (fun r => o !! r) rs.
Proof.
  induction 1 as [|r rs Hr _ IH]; [reflexivity|].
  cbn [omap list_omap]. rewrite Hr.
  destruct (o !! r); simpl; rewrite IH; reflexivity.
Qed.

Lemma hidden_fold (m : Manager) :
  Forall (fun r =>
            foldl (fun o e => alter (fun l => set_isVisible false l) e.2 o)
                  (objects m) (layers m) !! r
            = set_isVisible false <$> objects m !! r)
         (getLayers m).
Proof.
  apply Forall_forall. intros r Hr.
  rewrite (fold_alter_same (fun l => set_isVisible false l))
    by reflexivity.
  rewrite bool_decide_eq_true_2 by exact Hr. reflexivity.
Qed.

(** X21.  After [hideAllLayers] no layer is visible, in any state of the
    manager, and the number of layers is unchanged. *)
Theorem hideAll_hides_every_layer (m : Manager) :
  visible (getStatistics (hideAllLayers m)) = 0%nat
  /\ getVisibleLayers (hideAllLayers m) = []
  /\ total (getStatistics (hideAllLayers m)) = total (getStatistics m).
Proof.
  unfold hideAllLayers. rewrite forEach_layer_eq.
  pose proof (hidden_fold m) as Hfold.
  unfold getStatistics, getVisibleLayers, read, getLayers in *.
  cbn [objects layers notifyListeners visible total].
  rewrite (read_updated _ _ _ _ Hfold).
  split; [|split].
  - induction (omap (fun r => objects m !! r) (layers m).*2) as [|l ls IH];
      [reflexivity|exact IH].
  - induction Hfold as [|r rs Hr _ IH]; [reflexivity|].
    cbn [List.filter]. rewrite Hr.
    destruct (objects m !! r); exact IH.
  - apply length_fmap.
Qed.

(** With distinct keys, at most one entry carries a key. *)
Lemma count_key (es : list (string * ref)) (i : string) :
  NoDup es.*1 ->
  length (List.filter (fun e => String.eqb e.1 i) es)
  = if bool_decide (i ∈ es.*1) then 1%nat else 0%nat.
Proof.
  induction es as [|[k r] es IH]; [reflexivity|].
  cbn [fmap list_fmap fst List.filter]. rewrite NoDup_cons. intros [Hk Hnd].
  specialize (IH Hnd).
  destruct (String.eqb_spec k i) as [->|Hne].
  - rewrite (bool_decide_eq_true_2 (i ∈ i :: es.*1)) by left.
    rewrite (bool_decide_eq_false_2 (i ∈ es.*1)) in IH by exact Hk.
    cbn [length]. rewrite IH. reflexivity.
  - rewrite IH.
    rewrite (bool_decide_ext (i ∈ k :: es.*1) (i ∈ es.*1)); [reflexivity|].
    rewrite elem_of_cons.
    split; [|tauto]. intros [->|H]; [contradiction|exact H].
Qed.

(** After [showOnlyLayer], the visible layers are the entries under the
    given key. *)
Lemma shown_count (i : string) (o : gmap ref LayerState)
    (es sub : list (string * ref)) :
  NoDup es.*2 ->
  Forall (fun e => e ∈ es /\ is_Some (o !! e.2)) sub ->
  length (List.filter isVisible
            (omap (fun r =>
                     foldl (fun o e =>
                              alter (fun l => set_isVisible (String.eqb e.1 i) l)
                                    e.2 o) o es !! r)
                  sub.*2))
  = length (List.filter (fun e => String.eqb e.1 i) sub).
Proof.
  intros Hnd. induction 1 as [|[k r] sub [Hin [l Hl]] _ IH]; [reflexivity|].
  cbn [fmap list_fmap snd omap list_omap].
  rewrite (fold_alter_keyed
             (fun k l => set_isVisible (String.eqb k i) l) es o k r Hnd Hin).
  cbn [snd] in Hl. rewrite Hl. cbn [fmap option_fmap option_map List.filter fst].
  cbn [isVisible set_isVisible].
  destruct (String.eqb k i); cbn [length]; rewrite IH; reflexivity.
Qed.

Lemma read_all (o : gmap ref LayerState) (sub : list (string * ref)) :
  Forall (fun e : string * ref => is_Some (o !! e.2)) sub ->
  length (omap (fun r => o !! r) sub.*2) = length sub.
Proof.
  induction 1 as [|e sub [l Hl] _ IH]; [reflexivity|].
  cbn [fmap list_fmap omap list_omap]. rewrite Hl. cbn [length].
  rewrite IH. reflexivity.
Qed.

(** [showOnlyLayer] on a store whose map has distinct keys, each bound to
    an object of its own. *)
Lemma showOnly_count (m : Manager) (i : string) :
  NoDup (layers m).*1 -> NoDup (layers m).*2 ->
  Forall (fun e : string * ref => is_Some (objects m !! e.2)) (layers m) ->
  visible (getStatistics (showOnlyLayer i m))
  = (if bool_decide (i ∈ (layers m).*1) then 1%nat else 0%nat)
  /\ total (getStatistics (showOnlyLayer i m)) = length (layers m).
Proof.
  intros Hnd1 Hnd2 Hall.
  unfold showOnlyLayer. rewrite forEach_layer_eq.
  unfold getStatistics, read, getLayers.
  cbn [objects layers notifyListeners visible total].
  split.
  - rewrite (shown_count i (objects m) (layers m) (layers m) Hnd2).
    + apply (count_key _ i Hnd1).
    + apply Forall_forall. intros e He. split; [exact He|].
      rewrite Forall_forall in Hall. exact (Hall e He).
  - apply read_all. apply Forall_forall. intros [k r] Hin.
    rewrite Forall_forall in Hall. destruct (Hall _ Hin) as [l Hl].
    cbn [snd] in *.
    rewrite (fold_alter_keyed
               (fun k l => set_isVisible (String.eqb k i) l) _ _ k r Hnd2 Hin).
    rewrite Hl. eauto.
Qed.

Lemma reachable_well_formed (ops : list Op) :
  (layers (run_all ops new_manager)).*1 = layer_ids
  /\ NoDup (layers (run_all ops new_manager)).*1
  /\ NoDup (layers (run_all ops new_manager)).*2
  /\ Forall (fun e : string * ref =>
               is_Some (objects (run_all ops new_manager) !! e.2))
            (layers (run_all ops new_manager))
  /\ length (layers (run_all ops new_manager)) = 6%nat.
Proof.
  destruct (reachable_invariant ops) as [Hlayers _].
  pose proof (reachable_objects ops) as Hobj.
  revert Hlayers Hobj. unfold getLayers.
  generalize (run_all ops new_manager). intros m Hlayers Hobj.
  rewrite Hlayers. clear Hlayers.
  split; [vm_compute; reflexivity|].
  split; [apply (bool_decide_unpack _); vm_compute; exact I|].
  split; [apply (bool_decide_unpack _); vm_compute; exact I|].
  split; [|vm_compute; reflexivity].
  apply Forall_forall. intros [k r] Hin.
  destruct (Hobj r) as (l & Hl & _); [|cbn [snd]; eauto].
  apply (list_elem_of_fmap_2 snd _ (k, r)) in Hin. exact Hin.
Qed.

(** X22.  In every state reached from a new manager, after
    [showOnlyLayer id] exactly one of the six layers is visible when [id]
    is a configured layer, and none is when it is not. *)
Theorem showOnly_shows_one_layer (ops : list Op) (i : string) :
  let m := run_all ops new_manager in
  visible (getStatistics (showOnlyLayer i m))
  = (if bool_decide (i ∈ layer_ids) then 1%nat else 0%nat)
  /\ total (getStatistics (showOnlyLayer i m)) = 6%nat.
Proof.
  cbv zeta.
  destruct (reachable_well_formed ops) as (Hids & Hnd1 & Hnd2 & Hall & Hlen).
  revert Hids Hnd1 Hnd2 Hall Hlen.
  generalize (run_all ops new_manager). intros m Hids Hnd1 Hnd2 Hall Hlen.
  destruct (showOnly_count m i Hnd1 Hnd2 Hall) as [Hv Ht].
  rewrite Hv, Ht, Hids, Hlen.
  split; reflexivity.
Qed.

End StoreStatistics.

Section StoreReachable.
Import LayerManager.

(** Every object of the initial store is the value of a layer. *)
Lemma initial_objects_are_layers (r : ref) :
  r ∉ getLayers new_manager -> objects new_manager !! r = None.
Proof.
  intros Hr. destruct (objects new_manager !! r) as [l|] eqn:Hl;
    [|reflexivity].
  exfalso. apply Hr. apply elem_of_map_to_list in Hl.
  assert (H : Forall (fun p : ref * LayerState =>
                        p.1 ∈ getLayers new_manager)
                     (map_to_list (objects new_manager)))
    by (apply (bool_decide_unpack _); vm_compute; exact I).
  rewrite Forall_forall in H. exact (H (r, l) Hl).
Qed.

(** X23.  In every state reached from a new manager, [reset] brings the
    layer objects and the layer map back to those of a new manager. *)
Theorem reset_restores_the_initial_layers (ops : list Op) :
  let m := run_all ops new_manager in
  objects (reset m) = objects new_manager
  /\ layers (reset m) = layers new_manager
  /\ read (reset m) (getLayers (reset m))
     = read new_manager (getLayers new_manager).
Proof.
  cbv zeta. destruct (reachable_invariant ops) as [Hlayers Hstatic].
  revert Hlayers Hstatic.
  generalize (run_all ops new_manager). intros m Hlayers Hstatic.
  assert (Hobj : objects (reset m) = objects new_manager).
  { unfold reset. rewrite forEach_layer_eq. cbn [notifyListeners objects].
    apply map_eq. intros r.
    rewrite (fold_alter_same (fun l => reset_layer l)) by reflexivity.
    rewrite <- Hstatic at 1. rewrite lookup_fmap.
    destruct (bool_decide (r ∈ (layers m).*2)) eqn:Hr; [reflexivity|].
    apply bool_decide_eq_false_1 in Hr. rewrite Hlayers in Hr.
    apply initial_objects_are_layers in Hr.
    rewrite <- Hstatic, lookup_fmap in Hr.
    destruct (objects m !! r); [discriminate|reflexivity]. }
  assert (Hl : layers (reset m) = layers new_manager).
  { rewrite <- Hlayers. unfold reset. rewrite forEach_layer_eq. reflexivity. }
  split; [exact Hobj|]. split; [exact Hl|].
  unfold read, getLayers. rewrite Hobj, Hl. reflexivity.
Qed.

(** Reading the layers commutes with an update of every object. *)
Lemma read_fmap (g : LayerState -> LayerState) (o : gmap ref LayerState)
    (rs : list ref) :
  omap (fun r => (g <$> o) !! r) rs = g <$> omap (fun r => o !! r) rs.
Proof.
  apply read_updated. apply Forall_forall. intros r _. apply lookup_fmap.
Qed.

Lemma count_fmap (g : LayerState -> LayerState) (p : LayerState -> bool)
    (ls : list LayerState) :
  (forall l, p (g l) = p l) ->
  length (List.filter p (g <$> ls)) = length (List.filter p ls).
Proof.
  intros Hp. induction ls as [|l ls IH]; [reflexivity|].
  cbn [fmap list_fmap List.filter]. rewrite Hp.
  destruct (p l); cbn [length]; rewrite IH; reflexivity.
Qed.

Lemma count_le {A : Type} (p : A -> bool) (ls : list A) :
  (length (List.filter p ls) <= length ls)%nat.
Proof.
  induction ls as [|l ls IH]; [reflexivity|].
  cbn [List.filter]. destruct (p l); cbn [length]; lia.
Qed.

(** X24.  In every state reached from a new manager, the statistics count
    six layers, two choropleth, three heatmap, one markers and none of
    type none, and the other counters are at most six. *)
Theorem statistics_count_the_configured_layers (ops : list Op) :
  let s := getStatistics (run_all ops new_manager) in
  total s = 6%nat
  /\ byType s choropleth = 2%nat /\ byType s heatmap = 3%nat
  /\ byType s markers = 1%nat /\ byType s none = 0%nat
  /\ (visible s <= 6)%nat /\ (withData s <= 6)%nat /\ (loading s <= 6)%nat.
Proof.
  cbv zeta. destruct (reachable_invariant ops) as [Hlayers Hstatic].
  destruct (reachable_well_formed ops) as (_ & _ & _ & Hall & Hlen).
  revert Hlayers Hstatic Hall Hlen.
  generalize (run_all ops new_manager). intros m Hlayers Hstatic Hall Hlen.
  assert (Htotal : total (getStatistics m) = 6%nat).
  { unfold getStatistics, read, getLayers. cbn [total].
    rewrite (read_all _ _ Hall). exact Hlen. }
  assert (Hty : forall t,
             byType (getStatistics m) t
             = byType (getStatistics new_manager) t).
  { intros t. unfold getStatistics, read, getLayers. cbn [byType].
    rewrite Hlayers, <- Hstatic, read_fmap.
    symmetry. apply count_fmap. reflexivity. }
  split; [exact Htotal|].
  rewrite !Hty.
  split; [vm_compute; reflexivity|]. split; [vm_compute; reflexivity|].
  split; [vm_compute; reflexivity|]. split; [vm_compute; reflexivity|].
  rewrite <- Htotal. unfold getStatistics. cbn [total visible withData loading].
  split; [apply count_le|]. split; apply count_le.
Qed.

Lemma find_key_None (es : list (string * ref)) (i : string) :
  i ∉ es.*1 -> List.find (fun e => String.eqb e.1 i) es = None.
Proof.
  induction es as [|[k r] es IH]; [reflexivity|].
  cbn [fmap list_fmap fst List.find]. rewrite not_elem_of_cons. intros [Hk Hi].
  destruct (String.eqb_spec k i) as [->|_]; [contradiction|]. exact (IH Hi).
Qed.

(** X25.  In every state reached from a new manager, an id that is not a
    configured layer is not found, and [toggleLayer], [setLayerVisibility],
    [setLayerLoading] and [setLayerData] on it leave the manager as it is
    (the first two return false), so no listener is called. *)
Theorem unknown_layer_changes_nothing (ops : list Op) (i : string) :
  i ∉ layer_ids ->
  let m := run_all ops new_manager in
  getLayer m i = None
  /\ toggleLayer i m = (false, m)
  /\ (forall v, setLayerVisibility i v m = (false, m))
  /\ (forall b, setLayerLoading i b m = m)
  /\ (forall now b c, setLayerData now i b c m = m).
Proof.
  intros Hi. cbv zeta.
  destruct (reachable_well_formed ops) as (Hids & _).
  revert Hids. generalize (run_all ops new_manager). intros m Hids.
  assert (Hget : layers_get m i = None).
  { unfold layers_get. rewrite find_key_None; [reflexivity|].
    rewrite Hids. exact Hi. }
  unfold getLayer, toggleLayer, setLayerVisibility, setLayerLoading,
    setLayerData. rewrite Hget. repeat split.
Qed.

End StoreReachable.

Section StoreReachableExamples.
Import LayerManager.

Lemma unknown_layer_changes_nothing_witness :
  ("no_such_layer" ∉ layer_ids)
  /\ toggleLayer "no_such_layer" (run_all [OpHideAll] new_manager)
     = (false, run_all [OpHideAll] new_manager).
Proof.
  assert (H : "no_such_layer" ∉ layer_ids)
    by (apply (bool_decide_unpack _); vm_compute; exact I).
  split; [exact H|].
  exact (proj1 (proj2 (unknown_layer_changes_nothing [OpHideAll] _ H))).
Defined.

End StoreReachableExamples.

Section ListenerFacts.
Import LayerManager.

Lemma calls_to_silent (L : listener) (m : Manager) :
  L ∉ listeners m -> calls_to L (notifyListeners m) = calls_to L m.
Proof.
  intros HL. rewrite calls_to_notifyListeners.
  assert (Hnil : List.filter (fun l => Nat.eqb l L) (listeners m) = []).
  { induction (listeners m) as [|l ls IH]; [reflexivity|].
    apply not_elem_of_cons in HL. destruct HL as [Hne HL].
    cbn [List.filter]. destruct (Nat.eqb_spec l L) as [->|_];
      [contradiction|]. exact (IH HL). }
  rewrite Hnil. apply app_nil_r.
Qed.

Lemma unsubscribe_removes (L : listener) (m : Manager) :
  L ∉ listeners (unsubscribe L m).
Proof.
  unfold unsubscribe. cbn [listeners]. rewrite list_elem_of_In, filter_In.
  intros [_ H]. rewrite Nat.eqb_refl in H. discriminate.
Qed.

(** An operation other than subscribing [L] again keeps [L] out of the
    listeners and makes no call to it. *)
Lemma silent_step (L : listener) (m : Manager) (op : Op) :
  op <> OpSubscribe L -> L ∉ listeners m ->
  (L ∉ listeners (run m op)) /\ calls_to L (run m op) = calls_to L m.
Proof.
  intros Hop HL.
  destruct op as [i|i v|i b|now i b c|i| | |l|l]; cbn [run].
  - unfold toggleLayer. destruct (layers_get m i); [|split; [exact HL|reflexivity]].
    cbn [snd]. split; [exact HL|]. rewrite calls_to_silent; [reflexivity|exact HL].
  - unfold setLayerVisibility.
    destruct (layers_get m i); [|split; [exact HL|reflexivity]].
    destruct (negb _); [|split; [exact HL|reflexivity]].
    cbn [snd]. split; [exact HL|]. rewrite calls_to_silent; [reflexivity|exact HL].
  - unfold setLayerLoading.
    destruct (layers_get m i); [|split; [exact HL|reflexivity]].
    split; [exact HL|]. rewrite calls_to_silent; [reflexivity|exact HL].
  - unfold setLayerData.
    destruct (layers_get m i); [|split; [exact HL|reflexivity]].
    split; [exact HL|]. rewrite calls_to_silent; [reflexivity|exact HL].
  - unfold showOnlyLayer. rewrite forEach_layer_eq.
    split; [exact HL|]. rewrite calls_to_silent; [reflexivity|exact HL].
  - unfold hideAllLayers. rewrite forEach_layer_eq.
    split; [exact HL|]. rewrite calls_to_silent; [reflexivity|exact HL].
  - unfold reset. rewrite forEach_layer_eq.
    split; [exact HL|]. rewrite calls_to_silent; [reflexivity|exact HL].
  - split; [|reflexivity]. unfold subscribe, Js.set_add. cbn [listeners].
    destruct (Js.set_has (listeners m) l); [exact HL|].
    rewrite elem_of_app, list_elem_of_singleton.
    intros [H| ->]; [exact (HL H)|]. apply Hop. reflexivity.
  - split; [|reflexivity]. unfold unsubscribe. cbn [listeners].
    rewrite list_elem_of_In, filter_In, <- list_elem_of_In. intros [H _].
    exact (HL H).
Qed.

(** X26.  After the function returned by [subscribe] has removed a
    listener, no sequence of operations that does not subscribe it again
    makes a call to it. *)
Theorem unsubscribed_listener_is_never_called (L : listener) (m : Manager)
    (ops : list Op) :
  Forall (fun op => op <> OpSubscribe L) ops ->
  calls_to L (run_all ops (unsubscribe L m)) = calls_to L m
  /\ (L ∉ listeners (run_all ops (unsubscribe L m))).
Proof.
  unfold run_all. induction ops as [|op ops IH] using rev_ind; intros Hops.
  - split; [reflexivity|apply unsubscribe_removes].
  - apply Forall_app in Hops. destruct Hops as [Hops Hop].
    rewrite Forall_singleton in Hop.
    rewrite foldl_snoc. destruct (IH Hops) as [IHc IHl].
    destruct (silent_step L _ op Hop IHl) as [Hl Hc].
    split; [rewrite Hc; exact IHc|exact Hl].
Qed.

End ListenerFacts.

Section ListenerExamples.
Import LayerManager.

Lemma unsubscribed_listener_is_never_called_witness :
  Forall (fun op => op <> OpSubscribe 0%nat)
         [OpToggle "homicidios"; OpSubscribe 1%nat; OpReset]
  /\ calls_to 0%nat
       (run_all [OpToggle "homicidios"; OpSubscribe 1%nat; OpReset]
                (unsubscribe 0%nat (subscribe 0%nat new_manager)))
     = [].
Proof.
  assert (H : Forall (fun op => op <> OpSubscribe 0%nat)
                     [OpToggle "homicidios"; OpSubscribe 1%nat; OpReset])
    by (repeat constructor; discriminate).
  split; [exact H|].
  exact (proj1 (unsubscribed_listener_is_never_called 0%nat
                  (subscribe 0%nat new_manager) _ H)).
Defined.

End ListenerExamples.

(** ** The bounds of the geometry *)

Section BoundsFacts.
Import Js GeoUtils.

(** Induction on a coordinate tree, with the hypothesis on every entry of
    an array. *)
Lemma Coordinates_nested_ind (P : Coordinates -> Prop) :
  (forall q, P (Coord q)) ->
  (forall cs, Forall P cs -> P (Ring cs)) ->
  forall c, P c.
Proof.
  intros HC HR. fix IH 1. intros [q|cs]; [apply HC|].
  apply HR. induction cs as [|c cs IHcs]; constructor; [apply IH|exact IHcs].
Qed.

(** On a tree of points, [processCoords] extends the bounds by each point
    in turn. *)
Lemma processCoords_points (c : Coordinates) :
  forall ps b,
    points_of c = Some ps ->
    processCoords c b
    = Some (foldl (fun b p => extend b (Fin p.1) (Fin p.2)) b ps).
Proof.
  induction c as [q|cs IH] using Coordinates_nested_ind; intros ps b;
    [discriminate|].
  destruct cs as [|c0 cs'].
  { intros [= <-]. reflexivity. }
  destruct c0 as [lng|cs0].
  { destruct cs' as [|[lat|?] ?]; cbn [points_of processCoords];
      try discriminate.
    intros [= <-]. reflexivity. }
  change (points_of (Ring (Ring cs0 :: cs')))
    with (gather_points points_of (Ring cs0 :: cs')).
  change (processCoords (Ring (Ring cs0 :: cs')) b)
    with (forEach_coords processCoords (Ring cs0 :: cs') b).
  revert IH ps b. generalize (Ring cs0 :: cs'). intros l IH.
  induction IH as [|c l Hc _ IHl]; intros ps b.
  { intros [= <-]. reflexivity. }
  cbn [gather_points forEach_coords].
  destruct (points_of c) as [p|] eqn:Hp; [|discriminate].
  rewrite (Hc p b eq_refl).
  destruct (gather_points points_of l) as [rest|] eqn:Hrest; [|discriminate].
  intros [= <-]. rewrite foldl_app. apply IHl. reflexivity.
Qed.

Lemma features_points (fs : list MunicipalityFeature) :
  forall pss b,
    mapM (fun feature =>
            match geometry feature with
            | Some g =>
                match coordinates g with
                | Some coords => points_of coords
                | None => None
                end
            | None => None
            end) fs = Some pss ->
    foldl process_feature (Some b) fs
    = Some (foldl (fun b p => extend b (Fin p.1) (Fin p.2)) b
                  (List.concat pss)).
Proof.
  induction fs as [|f fs IH]; intros pss b.
  { intros [= <-]. reflexivity. }
  cbn [mapM foldl process_feature]. 
  destruct (geometry f) as [g|]; [|discriminate].
  destruct (coordinates g) as [coords|]; [|discriminate].
  destruct (points_of coords) as [ps|] eqn:Hps; [|discriminate].
  cbn [mbind option_bind].
  destruct (mapM _ fs) as [rest|] eqn:Hrest; [|discriminate].
  cbn [mbind option_bind mret option_ret]. intros [= <-].
  rewrite (processCoords_points coords ps b Hps).
  cbn [List.concat]. rewrite foldl_app. apply IH. reflexivity.
Qed.

Lemma leb_trans (a b c : jsnum) :
  leb a b = true -> leb b c = true -> leb a c = true.
Proof.
  unfold leb. destruct a as [x| | |], b as [y| | |], c as [z| | |];
    cbn [geb]; try discriminate; try reflexivity.
  rewrite !Qle_bool_iff. intros Hxy Hyz. eapply Qle_trans; eassumption.
Qed.

Lemma leb_refl (a : jsnum) : a <> NaN -> leb a a = true.
Proof.
  unfold leb. destruct a as [x| | |]; cbn [geb]; try reflexivity;
    [|contradiction].
  intros _. apply Qle_bool_iff, Qle_refl.
Qed.

(** A running minimum that starts at [Infinity], over a list of points
    read through [f]. *)
Lemma fold_min_spec (f : Q * Q -> Q) (ps : list (Q * Q)) :
  forall a,
    a = PInf \/ (exists q, a = Fin q) ->
    let r := foldl (fun a p => math_min a (Fin (f p))) a ps in
    leb r a = true
    /\ (forall p, p ∈ ps -> leb r (Fin (f p)) = true)
    /\ (r = a \/ exists p, p ∈ ps /\ r = Fin (f p)).
Proof.
  induction ps as [|p ps IH]; intros a Ha; cbn [foldl].
  - split; [|split; [intros p Hp; inversion Hp|left; reflexivity]].
    apply leb_refl. destruct Ha as [->|[q ->]]; discriminate.
  - assert (Hstep : exists y,
               math_min a (Fin (f p)) = Fin y
               /\ leb (Fin y) a = true /\ leb (Fin y) (Fin (f p)) = true
               /\ (Fin y = a \/ y = f p)).
    { destruct Ha as [->|[q ->]]; cbn [math_min].
      - exists (f p). split; [reflexivity|]. split; [reflexivity|].
        split; [apply leb_refl; discriminate|right; reflexivity].
      - destruct (Qle_bool q (f p)) eqn:E.
        + exists q. split; [reflexivity|].
          split; [apply leb_refl; discriminate|].
          split; [exact E|left; reflexivity].
        + exists (f p). split; [reflexivity|].
          split; [|split; [apply leb_refl; discriminate|right; reflexivity]].
          unfold leb. cbn [geb]. apply Qle_bool_iff.
          apply Qle_bool_false_le in E. exact E. }
    destruct Hstep as (y & Hy & Hya & Hyp & Hwhich). rewrite Hy.
    destruct (IH (Fin y) (or_intror (ex_intro _ y eq_refl)))
      as (Hr & Hall & Hatt).
    split; [exact (leb_trans _ _ _ Hr Hya)|]. split.
    + intros p' Hp'. apply elem_of_cons in Hp' as [->|Hp'];
        [exact (leb_trans _ _ _ Hr Hyp)|exact (Hall p' Hp')].
    + destruct Hatt as [Hatt|(p' & Hp' & Hatt)].
      * rewrite Hatt. destruct Hwhich as [<- | ->]; [left; reflexivity|].
        right. exists p. split; [left|reflexivity].
      * right. exists p'. split; [right; exact Hp'|exact Hatt].
Qed.

(** A running maximum that starts at [-Infinity]. *)
Lemma fold_max_spec (f : Q * Q -> Q) (ps : list (Q * Q)) :
  forall a,
    a = NInf \/ (exists q, a = Fin q) ->
    let r := foldl (fun a p => math_max a (Fin (f p))) a ps in
    leb a r = true
    /\ (forall p, p ∈ ps -> leb (Fin (f p)) r = true)
    /\ (r = a \/ exists p, p ∈ ps /\ r = Fin (f p)).
Proof.
  induction ps as [|p ps IH]; intros a Ha; cbn [foldl].
  - split; [|split; [intros p Hp; inversion Hp|left; reflexivity]].
    apply leb_refl. destruct Ha as [->|[q ->]]; discriminate.
  - assert (Hstep : exists y,
               math_max a (Fin (f p)) = Fin y
               /\ leb a (Fin y) = true /\ leb (Fin (f p)) (Fin y) = true
               /\ (Fin y = a \/ y = f p)).
    { destruct Ha as [->|[q ->]]; cbn [math_max].
      - exists (f p). split; [reflexivity|]. split; [reflexivity|].
        split; [apply leb_refl; discriminate|right; reflexivity].
      - destruct (Qle_bool q (f p)) eqn:E.
        + exists (f p). split; [reflexivity|].
          split; [exact E|].
          split; [apply leb_refl; discriminate|right; reflexivity].
        + exists q. split; [reflexivity|].
          split; [apply leb_refl; discriminate|].
          split; [|left; reflexivity].
          unfold leb. cbn [geb]. apply Qle_bool_iff.
          apply Qle_bool_false_le in E. exact E. }
    destruct Hstep as (y & Hy & Hya & Hyp & Hwhich). rewrite Hy.
    destruct (IH (Fin y) (or_intror (ex_intro _ y eq_refl)))
      as (Hr & Hall & Hatt).
    split; [exact (leb_trans _ _ _ Hya Hr)|]. split.
    + intros p' Hp'. apply elem_of_cons in Hp' as [->|Hp'];
        [exact (leb_trans _ _ _ Hyp Hr)|exact (Hall p' Hp')].
    + destruct Hatt as [Hatt|(p' & Hp' & Hatt)].
      * rewrite Hatt. destruct Hwhich as [<- | ->]; [left; reflexivity|].
        right. exists p. split; [left|reflexivity].
      * right. exists p'. split; [right; exact Hp'|exact Hatt].
Qed.

(** The four bounds are four independent running extrema. *)
Lemma extend_fold (ps : list (Q * Q)) :
  forall b,
    let b' := foldl (fun b p => extend b (Fin p.1) (Fin p.2)) b ps in
    minLat b' = foldl (fun a p => math_min a (Fin p.2)) (minLat b) ps
    /\ maxLat b' = foldl (fun a p => math_max a (Fin p.2)) (maxLat b) ps
    /\ minLng b' = foldl (fun a p => math_min a (Fin p.1)) (minLng b) ps
    /\ maxLng b' = foldl (fun a p => math_max a (Fin p.1)) (maxLng b) ps.
Proof.
  induction ps as [|p ps IH]; intros b; [repeat split|].
  cbn [foldl]. apply IH.
Qed.

(** X27.  For a collection whose coordinate trees hold points that begin
    with a longitude and a latitude, [calculateMunicipalitiesBounds]
    returns four bounds that enclose every point.  With at least one point
    each bound is the coordinate of some point; with none the bounds are
    left at [Infinity] and [-Infinity]. *)
Theorem bounds_contain_every_point (geoJsonData : MunicipalitiesGeoJSON)
    (points : list (Q * Q)) :
  all_points geoJsonData = Some points ->
  exists south west north east,
    calculateMunicipalitiesBounds geoJsonData
    = Some ((south, west), (north, east))
    /\ (forall lng lat, (lng, lat) ∈ points ->
          leb south (Fin lat) = true /\ leb (Fin lat) north = true
          /\ leb west (Fin lng) = true /\ leb (Fin lng) east = true)
    /\ (points = [] ->
        south = PInf /\ west = PInf /\ north = NInf /\ east = NInf)
    /\ (points <> [] ->
        (exists p, p ∈ points /\ south = Fin p.2)
        /\ (exists p, p ∈ points /\ west = Fin p.1)
        /\ (exists p, p ∈ points /\ north = Fin p.2)
        /\ (exists p, p ∈ points /\ east = Fin p.1)).
Proof.
  unfold all_points, calculateMunicipalitiesBounds. intros Hpts.
  apply fmap_Some in Hpts as (pss & Hpss & ->).
  rewrite (features_points _ _ _ Hpss). cbn [fmap option_fmap option_map].
  set (init := {| minLat := PInf; maxLat := NInf;
                  minLng := PInf; maxLng := NInf |}).
  destruct (extend_fold (List.concat pss) init) as (Hs & Hn & Hw & He).
  cbv zeta in Hs, Hn, Hw, He. cbn [init minLat maxLat minLng maxLng] in *.
  destruct (fold_min_spec snd (List.concat pss) PInf (or_introl eq_refl))
    as (_ & Hs_all & Hs_att).
  destruct (fold_min_spec fst (List.concat pss) PInf (or_introl eq_refl))
    as (_ & Hw_all & Hw_att).
  destruct (fold_max_spec snd (List.concat pss) NInf (or_introl eq_refl))
    as (_ & Hn_all & Hn_att).
  destruct (fold_max_spec fst (List.concat pss) NInf (or_introl eq_refl))
    as (_ & He_all & He_att).
  cbv zeta in *. rewrite <- Hs in Hs_all, Hs_att.
  rewrite <- Hw in Hw_all, Hw_att. rewrite <- Hn in Hn_all, Hn_att.
  rewrite <- He in He_all, He_att.
  do 4 eexists. split; [reflexivity|]. split; [|split].
  - intros lng lat Hp.
    split; [exact (Hs_all _ Hp)|]. split; [exact (Hn_all _ Hp)|].
    split; [exact (Hw_all _ Hp)|exact (He_all _ Hp)].
  - intros Hnil. rewrite Hnil in *. repeat split.
  - intros Hne.
    assert (Hfin : forall (r a : jsnum) (f : Q * Q -> Q),
               (forall p, p ∈ List.concat pss -> r <> a) ->
               r = a \/ (exists p, p ∈ List.concat pss /\ r = Fin (f p)) ->
               exists p, p ∈ List.concat pss /\ r = Fin (f p)).
    { intros r a f Hra [Heq|Hex]; [|exact Hex].
      destruct (List.concat pss) as [|p ps]; [contradiction|].
      destruct (Hra p (list_elem_of_here _ _) Heq). }
    split; [|split; [|split]].
    + apply (Hfin _ PInf snd); [|exact Hs_att].
      intros p Hp Heq. specialize (Hs_all p Hp). rewrite Heq in Hs_all.
      discriminate.
    + apply (Hfin _ PInf fst); [|exact Hw_att].
      intros p Hp Heq. specialize (Hw_all p Hp). rewrite Heq in Hw_all.
      discriminate.
    + apply (Hfin _ NInf snd); [|exact Hn_att].
      intros p Hp Heq. specialize (Hn_all p Hp). rewrite Heq in Hn_all.
      discriminate.
    + apply (Hfin _ NInf fst); [|exact He_att].
      intros p Hp Heq. specialize (He_all p Hp). rewrite Heq in He_all.
      discriminate.
Qed.

End BoundsFacts.

Section BoundsExamples.
Import Js GeoUtils Scenarios.

Lemma bounds_contain_every_point_witness :
  exists south west north east,
    calculateMunicipalitiesBounds two_shapes
    = Some ((south, west), (north, east))
    /\ leb south (Fin 19) = true /\ leb (Fin (43 / 2)) north = true
    /\ leb west (Fin (-102)) = true /\ leb (Fin (-99)) east = true.
Proof.
  destruct (bounds_contain_every_point two_shapes
              [(-101, 20); (-100, 21); (-102, 43 / 2); (-99, 19);
               (-100, 39 / 2)]%Q eq_refl)
    as (south & west & north & east & Hb & Hall & _).
  exists south, west, north, east. split; [exact Hb|].
  assert (H1 : forall p : Q * Q,
             p ∈ [(-101, 20); (-100, 21); (-102, 43 / 2); (-99, 19);
                  (-100, 39 / 2)]%Q ->
             leb south (Fin p.2) = true /\ leb (Fin p.2) north = true
             /\ leb west (Fin p.1) = true /\ leb (Fin p.1) east = true)
    by (intros [lng lat]; apply Hall).
  split; [apply (H1 (-99, 19)%Q); repeat constructor|].
  split; [apply (H1 (-102, 43 / 2)%Q); repeat constructor|].
  split; [apply (H1 (-102, 43 / 2)%Q); repeat constructor|].
  apply (H1 (-99, 19)%Q); repeat constructor.
Defined.

(** The bounds of the two shapes, and of a collection without points. *)
Example two_shapes_bounds :
  calculateMunicipalitiesBounds two_shapes
  = Some ((Fin 19, Fin (-102)), (Fin (43 / 2), Fin (-99)))
  /\ calculateMunicipalitiesBounds only_celaya
     = Some ((PInf, PInf), (NInf, NInf)).
Proof. split; vm_compute; reflexivity. Qed.

End BoundsExamples.
